(** * informative-drawings: the network definitions of [model.py]

    A shallow embedding of the layer compositions of [model.py] (SPADE,
    the residual blocks, the two generators, [GlobalGenerator2] and the
    [InceptionV3] wrapper) together with the properties stated for them.

    The tensor framework is external to [model.py].  It enters the
    development in two ways:
    - layer constructors ([nn.Conv2d], [nn.ReflectionPad2d], ...) are data:
      a [Layer] records the hyper-parameters the source passes;
    - the forward passes are written once, over an interface [Framework]
      (what calling a layer does, element-wise arithmetic, interpolation,
      the random source), and instantiated at shapes, at exact integer
      entries and at binary32 entries. *)

From Stdlib Require Import ZArith List String Ascii Bool Lia QArith Qround Lqa.
From Stdlib Require Import SpecFloat.
From stdpp Require Import gmap.
Import ListNotations.

Local Open Scope string_scope.
Local Open Scope list_scope.
Local Open Scope Z_scope.

(** ** Exceptions and the result of a fallible computation *)

Inductive exception : Type :=
| AssertionError
| AttributeError (msg : string)
| ValueError (msg : string)
| NotImplementedError (msg : string)
| RuntimeError (msg : string).

Inductive result (A : Type) : Type :=
| Ok (a : A)
| Raise (e : exception).

Arguments Ok {A} a.
Arguments Raise {A} e.

Definition rbind {A B : Type} (m : result A) (k : A -> result B) : result B :=
  match m with
  | Ok a => k a
  | Raise e => Raise e
  end.

Declare Scope result_scope.
Delimit Scope result_scope with result.
Notation "'let*' x ':=' m 'in' k" := (rbind m (fun x => k))
  (at level 10, x pattern, m at level 100, k at level 200, only parsing) : result_scope.

(** ** Configuration strings: [re.search('spade(\D+)(\d)x\d', config_text)]

    Strings are sequences of code points below 256; on these [\d] is
    ['0'..'9'] and [\D] is every other character. *)

Definition is_digit (c : ascii) : bool :=
  ((48 <=? nat_of_ascii c) && (nat_of_ascii c <=? 57))%nat.

(** [int(s)] on a one-digit string *)
Definition int_of_digit (c : ascii) : Z := Z.of_nat (nat_of_ascii c) - 48.

Definition int (s : string) : Z :=
  match s with
  | String c EmptyString => int_of_digit c
  | _ => 0
  end.

(** [s.startswith(p)] *)
Definition startswith (s p : string) : bool := String.prefix p s.

Fixpoint strip_prefix (p s : string) : option string :=
  match p, s with
  | EmptyString, _ => Some s
  | String a p', String b s' => if Ascii.eqb a b then strip_prefix p' s' else None
  | String _ _, EmptyString => None
  end.

(** A successful match: the text of the two groups. *)
Record Match : Type := { group1 : string; group2 : string }.

(** [(\d)x\d] at the head of [s]; the group is the first digit. *)
Definition match_ks (s : string) : option string :=
  match s with
  | String d (String x (String d' _)) =>
      if is_digit d && Ascii.eqb x "x" && is_digit d'
      then Some (String d EmptyString) else None
  | _ => None
  end.

(** [(\D+)(\d)x\d] at the head of [s].  The [+] is greedy: one more
    non-digit is tried first, and the shorter group only when the longer
    one leads to no match. *)
Fixpoint match_norm (s : string) : option Match :=
  match s with
  | String c rest =>
      if is_digit c then None
      else match match_norm rest with
           | Some m => Some {| group1 := String c (group1 m); group2 := group2 m |}
           | None =>
               match match_ks rest with
               | Some g2 => Some {| group1 := String c EmptyString; group2 := g2 |}
               | None => None
               end
           end
  | EmptyString => None
  end.

Definition match_here (s : string) : option Match :=
  match strip_prefix "spade" s with
  | Some rest => match_norm rest
  | None => None
  end.

(** [re.search]: the match at the leftmost position that has one. *)
Fixpoint re_search (s : string) : option Match :=
  match match_here s with
  | Some m => Some m
  | None =>
      match s with
      | String _ rest => re_search rest
      | EmptyString => None
      end
  end.

(** [parsed.group(i)]; on [None] the attribute access raises. *)
Definition group (i : Z) (parsed : option Match) : result string :=
  match parsed with
  | Some m => Ok (if i =? 1 then group1 m else group2 m)
  | None => Raise (AttributeError "'NoneType' object has no attribute 'group'")
  end.

Definition assert (b : bool) : result unit :=
  if b then Ok tt else Raise AssertionError.

(** ** Layers: the hyper-parameters [model.py] passes to the framework

    A layer is the record of the arguments its constructor was called
    with, and building the record is total.  The framework's constructors
    are not: [nn.Conv2d], [nn.ConvTranspose2d] and [nn.BatchNorm2d] raise
    [RuntimeError] on a negative channel count.  A statement below that
    concludes that a constructor of [model.py] returns therefore takes
    channel counts that are not negative as a hypothesis. *)

Inductive Layer : Type :=
| ReflectionPad2d (padding : Z)
| ReplicationPad2d (padding : Z)
| Conv2d (in_channels out_channels kernel_size stride padding : Z)
| ConvTranspose2d (in_channels out_channels kernel_size stride padding output_padding : Z)
| InstanceNorm2d (num_features : Z) (affine : bool)
| BatchNorm2d (num_features : Z) (affine : bool)
| ReLU (inplace : bool)
| Sigmoid
| Tanh
| Dropout (p : Q).

(** The module-level default [norm_layer = nn.InstanceNorm2d]. *)
Definition norm_layer (num_features : Z) : Layer := InstanceNorm2d num_features false.

(** ** Modules of [model.py], over any type [L] of layers

    A constructor returns the module with layers of type [Layer]; a forward
    pass takes the module with the layers of the framework it runs in.
    The attributes [model0] ... [model4], [model] and [conv_block] of the
    different classes carry the prefixes [sg_], [g_], [gg_] and [rb_]. *)

Record SPADE (L : Type) : Type := {
  param_free_norm : L;
  mlp_shared : list L;
  mlp_gamma : L;
  mlp_beta : L
}.
Arguments param_free_norm {L} _.
Arguments mlp_shared {L} _.
Arguments mlp_gamma {L} _.
Arguments mlp_beta {L} _.

(** [SPADE.__init__] *)
Definition SPADE_init (config_text : string) (norm_nc label_nc : Z) : result (SPADE Layer) :=
  (let* _ := assert (startswith config_text "spade") in
   let parsed := re_search config_text in
   let* param_free_norm_type := group 1 parsed in
   let* ks_text := group 2 parsed in
   let ks := int ks_text in
   let* norm := (if String.eqb param_free_norm_type "instance"
            then Ok (InstanceNorm2d norm_nc false)
            else if String.eqb param_free_norm_type "batch"
            then Ok (BatchNorm2d norm_nc false)
            else Raise (ValueError
                   (param_free_norm_type ++
                    " is not a recognized param-free norm type in SPADE")%string)) in
   let nhidden := 128 in
   let pw := ks / 2 in
   Ok {| param_free_norm := norm;
         mlp_shared := [Conv2d label_nc nhidden ks 1 pw; ReLU false];
         mlp_gamma := Conv2d nhidden norm_nc ks 1 pw;
         mlp_beta := Conv2d nhidden norm_nc ks 1 pw |})%result.

(** [for _ in range(n): state = body(state)], for a body that may raise *)
Fixpoint for_range {S : Type} (n : nat) (body : S -> result S) (s : S) : result S :=
  match n with
  | O => Ok s
  | S n' => rbind (body s) (for_range n' body)
  end.

Definition range (n : Z) : nat := Z.to_nat n.

Record SPADEResidualBlock (L : Type) : Type := {
  conv_block0 : list L;
  norm_layer0 : SPADE L;
  conv_block1 : list L;
  norm_layer1 : SPADE L
}.
Arguments conv_block0 {L} _.
Arguments norm_layer0 {L} _.
Arguments conv_block1 {L} _.
Arguments norm_layer1 {L} _.

(** [SPADEResidualBlock.__init__] *)
Definition SPADEResidualBlock_init (in_features : Z) : result (SPADEResidualBlock Layer) :=
  (let conv_block0 := [ReflectionPad2d 1; Conv2d in_features in_features 3 1 0] in
   let* norm_layer0 := SPADE_init "spadeinstance3x3" in_features 3 in
   let conv_block1 := [ReLU true; ReflectionPad2d 1;
                       Conv2d in_features in_features 3 1 0] in
   let* norm_layer1 := SPADE_init "spadeinstance3x3" in_features 3 in
   Ok {| conv_block0 := conv_block0; norm_layer0 := norm_layer0;
         conv_block1 := conv_block1; norm_layer1 := norm_layer1 |})%result.

Record ResidualBlock (L : Type) : Type := { conv_block : list L }.
Arguments conv_block {L} _.

(** [ResidualBlock.__init__] *)
Definition ResidualBlock_init (in_features : Z) : ResidualBlock Layer :=
  {| conv_block := [ReflectionPad2d 1;
                    Conv2d in_features in_features 3 1 0;
                    norm_layer in_features;
                    ReLU true;
                    ReflectionPad2d 1;
                    Conv2d in_features in_features 3 1 0;
                    norm_layer in_features] |}.

(** A stage of [SPADEGenerator.model3]: the [isinstance(m, SPADE)] test of
    the forward pass is the case distinction on this type. *)
Inductive UpModule (L : Type) : Type :=
| UpLayer (l : L)
| UpSPADE (s : SPADE L).
Arguments UpLayer {L} l.
Arguments UpSPADE {L} s.

Record SPADEGenerator (L : Type) : Type := {
  sg_model0 : list L;
  sg_model1 : list L;
  sg_model2 : list (SPADEResidualBlock L);
  sg_model3 : list (UpModule L);
  sg_model4 : list L
}.
Arguments sg_model0 {L} _.
Arguments sg_model1 {L} _.
Arguments sg_model2 {L} _.
Arguments sg_model3 {L} _.
Arguments sg_model4 {L} _.

(** The loop state [(model, in_features, out_features)] of the
    down- and up-sampling loops. *)
Definition stage_state (X : Type) : Type := (list X * Z * Z)%type.

Definition downsampling_body (st : stage_state Layer) : result (stage_state Layer) :=
  let '(model1, in_features, out_features) := st in
  let model1 := model1 ++ [Conv2d in_features out_features 3 2 1;
                           norm_layer out_features;
                           ReLU true] in
  let in_features := out_features in
  let out_features := in_features * 2 in
  Ok (model1, in_features, out_features).

(** [SPADEGenerator.__init__] *)
Definition SPADEGenerator_init (input_nc output_nc n_residual_blocks : Z) (sigmoid : bool)
  : result (SPADEGenerator Layer) :=
  (let model0 := [ReflectionPad2d 3; Conv2d input_nc 64 7 1 0; norm_layer 64; ReLU true] in
   let in_features := 64 in
   let out_features := in_features * 2 in
   let* (model1, in_features, out_features) :=
      for_range (range 2) downsampling_body ([], in_features, out_features) in
   let* model2 := for_range (range n_residual_blocks)
               (fun model2 => let* b := SPADEResidualBlock_init in_features in
                              Ok (model2 ++ [b])) [] in
   let out_features := in_features / 2 in
   let* (model3, in_features, out_features) :=
      for_range (range 2)
        (fun '(model3, in_features, out_features) =>
           let* s := SPADE_init "spadeinstance3x3" out_features 3 in
           let model3 := model3 ++ [UpLayer (ConvTranspose2d in_features out_features 3 2 1 1);
                                    UpSPADE s;
                                    UpLayer (ReLU true)] in
           let in_features := out_features in
           let out_features := in_features / 2 in
           Ok (model3, in_features, out_features))
        ([], in_features, out_features) in
   let model4 := [ReflectionPad2d 3; Conv2d 64 output_nc 7 1 0] in
   let model4 := if sigmoid then model4 ++ [Sigmoid] else model4 in
   Ok {| sg_model0 := model0; sg_model1 := model1; sg_model2 := model2;
         sg_model3 := model3; sg_model4 := model4 |})%result.

Record Generator (L : Type) : Type := {
  g_model0 : list L;
  g_model1 : list L;
  g_model2 : list (ResidualBlock L);
  g_model3 : list L;
  g_model4 : list L
}.
Arguments g_model0 {L} _.
Arguments g_model1 {L} _.
Arguments g_model2 {L} _.
Arguments g_model3 {L} _.
Arguments g_model4 {L} _.

(** [Generator.__init__] *)
Definition Generator_init (input_nc output_nc n_residual_blocks : Z) (sigmoid : bool)
  : result (Generator Layer) :=
  (let model0 := [ReflectionPad2d 3; Conv2d input_nc 64 7 1 0; norm_layer 64; ReLU true] in
   let in_features := 64 in
   let out_features := in_features * 2 in
   let* (model1, in_features, out_features) :=
      for_range (range 2) downsampling_body ([], in_features, out_features) in
   let* model2 := for_range (range n_residual_blocks)
               (fun model2 => Ok (model2 ++ [ResidualBlock_init in_features])) [] in
   let out_features := in_features / 2 in
   let* (model3, in_features, out_features) :=
      for_range (range 2)
        (fun '(model3, in_features, out_features) =>
           let model3 := model3 ++ [ConvTranspose2d in_features out_features 3 2 1 1;
                                    norm_layer out_features;
                                    ReLU true] in
           let in_features := out_features in
           let out_features := in_features / 2 in
           Ok (model3, in_features, out_features))
        ([], in_features, out_features) in
   let model4 := [ReflectionPad2d 3; Conv2d 64 output_nc 7 1 0] in
   let model4 := if sigmoid then model4 ++ [Sigmoid] else model4 in
   Ok {| g_model0 := model0; g_model1 := model1; g_model2 := model2;
         g_model3 := model3; g_model4 := model4 |})%result.

Record ResnetBlock (L : Type) : Type := { rb_conv_block : list L }.
Arguments rb_conv_block {L} _.

(** [ResnetBlock.build_conv_block] *)
Definition build_conv_block (dim : Z) (padding_type : string) (norm_layer : Z -> Layer)
    (activation : Layer) (use_dropout : bool) : result (list Layer) :=
  (let conv_block := [] in
   let p := 0 in
   let* (conv_block, p) :=
      (if String.eqb padding_type "reflect" then Ok (conv_block ++ [ReflectionPad2d 1], p)
       else if String.eqb padding_type "replicate" then Ok (conv_block ++ [ReplicationPad2d 1], p)
       else if String.eqb padding_type "zero" then Ok (conv_block, 1)
       else Raise (NotImplementedError
                     ("padding [" ++ padding_type ++ "] is not implemented")%string)) in
   let conv_block := conv_block ++ [Conv2d dim dim 3 1 p; norm_layer dim; activation] in
   let conv_block := if use_dropout then conv_block ++ [Dropout (1 # 2)] else conv_block in
   let p := 0 in
   let* (conv_block, p) :=
      (if String.eqb padding_type "reflect" then Ok (conv_block ++ [ReflectionPad2d 1], p)
       else if String.eqb padding_type "replicate" then Ok (conv_block ++ [ReplicationPad2d 1], p)
       else if String.eqb padding_type "zero" then Ok (conv_block, 1)
       else Raise (NotImplementedError
                     ("padding [" ++ padding_type ++ "] is not implemented")%string)) in
   let conv_block := conv_block ++ [Conv2d dim dim 3 1 p; norm_layer dim] in
   Ok conv_block)%result.

(** [ResnetBlock.__init__] *)
Definition ResnetBlock_init (dim : Z) (padding_type : string) (norm_layer : Z -> Layer)
    (activation : Layer) (use_dropout : bool) : result (ResnetBlock Layer) :=
  (let* conv_block := build_conv_block dim padding_type norm_layer activation use_dropout in
   Ok {| rb_conv_block := conv_block |})%result.

(** An element of [GlobalGenerator2.model]. *)
Inductive GModule (L : Type) : Type :=
| GLayer (l : L)
| GResnetBlock (b : ResnetBlock L).
Arguments GLayer {L} l.
Arguments GResnetBlock {L} b.

Record GlobalGenerator2 (L : Type) : Type := { gg_model : list (GModule L) }.
Arguments gg_model {L} _.

(** The [### downsample] loop body, on the state [(model, mult)]. *)
Definition downsample_body (ngf : Z) (norm_layer : Z -> Layer) (activation : Layer)
    (st : list (GModule Layer) * Z) : result (list (GModule Layer) * Z) :=
  let '(model, mult) := st in
  let model := model ++ [GLayer (ConvTranspose2d (ngf * mult) (ngf * mult / 2) 4 2 1 0);
                         GLayer (norm_layer (ngf * mult / 2));
                         GLayer activation] in
  let mult := mult / 2 in
  Ok (model, mult).

(** The [### upsample] loop body. *)
Definition upsample_body (ngf : Z) (norm_layer : Z -> Layer) (activation : Layer)
    (st : list (GModule Layer) * Z) : result (list (GModule Layer) * Z) :=
  let '(model, mult) := st in
  let next_mult := mult / 2 in
  let '(next_mult, mult) := if next_mult =? 0 then (1, 1) else (next_mult, mult) in
  let model := model ++ [GLayer (ConvTranspose2d (ngf * mult) (ngf * next_mult) 3 2 1 1);
                         GLayer (norm_layer (ngf * next_mult));
                         GLayer activation] in
  let mult := next_mult in
  Ok (model, mult).

(** [GlobalGenerator2.__init__] *)
Definition GlobalGenerator2_init (input_nc output_nc ngf n_downsampling n_blocks : Z)
    (norm_layer : Z -> Layer) (padding_type : string) (use_sig : bool) (n_UPsampling : Z)
  : result (GlobalGenerator2 Layer) :=
  (let* _ := assert (n_blocks >=? 0) in
   let activation := ReLU true in
   let mult := 8 in
   let model := [GLayer (ReflectionPad2d 4); GLayer (Conv2d input_nc (ngf * mult) 7 1 0);
                 GLayer (norm_layer (ngf * mult)); GLayer activation] in
   let* (model, mult) := for_range (range n_downsampling)
                       (downsample_body ngf norm_layer activation) (model, mult) in
   let n_UPsampling := if n_UPsampling <=? 0 then n_downsampling else n_UPsampling in
   let* model := for_range (range n_blocks)
              (fun model =>
                 let* b := ResnetBlock_init (ngf * mult) padding_type norm_layer activation false in
                 Ok (model ++ [GResnetBlock b])) model in
   let* (model, mult) := for_range (range n_UPsampling)
                       (upsample_body ngf norm_layer activation) (model, mult) in
   let model :=
     if use_sig
     then model ++ [GLayer (ReflectionPad2d 3); GLayer (Conv2d ngf output_nc 7 1 0); GLayer Sigmoid]
     else model ++ [GLayer (ReflectionPad2d 3); GLayer (Conv2d ngf output_nc 7 1 0); GLayer Tanh] in
   Ok {| gg_model := model |})%result.

(** ** Forward passes

    A forward pass reads and updates the state of the framework (the
    random generator, running statistics) and may raise. *)

Definition M (W A : Type) : Type := W -> result (A * W).

Definition st_ret {W A : Type} (a : A) : M W A := fun w => Ok (a, w).

Definition st_bind {W A B : Type} (m : M W A) (k : A -> M W B) : M W B :=
  fun w => match m w with
           | Ok (a, w') => k a w'
           | Raise e => Raise e
           end.

Definition st_lift {W A : Type} (r : result A) : M W A :=
  fun w => match r with
           | Ok a => Ok (a, w)
           | Raise e => Raise e
           end.

Declare Scope fwd_scope.
Delimit Scope fwd_scope with fwd.
Notation "'let*' x ':=' m 'in' k" := (st_bind m (fun x => k))
  (at level 10, x pattern, m at level 100, k at level 200, only parsing) : fwd_scope.

(** What [model.py] uses of the tensor framework. *)
Record Framework : Type := {
  tensor : Type;
  layer : Type;
  world : Type;
  (** [l(x)] for a framework layer [l] *)
  call : layer -> tensor -> M world tensor;
  (** [x.size()[2:]] *)
  size_hw : tensor -> Z * Z;
  (** [F.interpolate(t, size=hw, mode='nearest')] *)
  F_interpolate : tensor -> Z * Z -> result tensor;
  (** [a + b], [a - b], [a * b] on tensors *)
  t_add : tensor -> tensor -> result tensor;
  t_sub : tensor -> tensor -> result tensor;
  t_mul : tensor -> tensor -> result tensor;
  (** [k + t] and [t * k] for a number [k] or a one-element tensor [k] *)
  scalar_add : Z -> tensor -> tensor;
  mul_scalar : tensor -> Z -> tensor;
  (** [torch.zeros_like(t)] *)
  zeros_like : tensor -> tensor;
  (** the entry of [torch.rand(1)] *)
  torch_rand : world -> Q * world
}.

Section Forward.

Context (fw : Framework).

Local Abbreviation T := (tensor fw).
Local Abbreviation L := (layer fw).
Local Abbreviation FM := (M (world fw)).

(** [nn.Sequential.forward] *)
Fixpoint Sequential (modules : list L) (x : T) : FM T :=
  match modules with
  | [] => st_ret x
  | m :: rest => (let* x := call fw m x in Sequential rest x)%fwd
  end.

(** [SPADE.forward] *)
Definition SPADE_forward (self : SPADE L) (x segmap : T) : FM T :=
  (let* normalized := call fw (param_free_norm self) x in
   let* segmap := st_lift (F_interpolate fw segmap (size_hw fw x)) in
   let* actv := Sequential (mlp_shared self) segmap in
   let* gamma := call fw (mlp_gamma self) actv in
   let* beta := call fw (mlp_beta self) actv in
   let* scaled := st_lift (t_mul fw normalized (scalar_add fw 1 gamma)) in
   let* out := st_lift (t_add fw scaled beta) in
   st_ret out)%fwd.

(** [SPADEResidualBlock.forward] *)
Definition SPADEResidualBlock_forward (self : SPADEResidualBlock L) (x depth : T) : FM T :=
  (let* out := Sequential (conv_block0 self) x in
   let* out := SPADE_forward (norm_layer0 self) out depth in
   let* out := Sequential (conv_block1 self) out in
   let* out := SPADE_forward (norm_layer1 self) out depth in
   st_lift (t_add fw x out))%fwd.

(** [ResidualBlock.forward] *)
Definition ResidualBlock_forward (self : ResidualBlock L) (x : T) : FM T :=
  (let* out := Sequential (conv_block self) x in
   st_lift (t_add fw x out))%fwd.

(** [ResnetBlock.forward] *)
Definition ResnetBlock_forward (self : ResnetBlock L) (x : T) : FM T :=
  (let* out := Sequential (rb_conv_block self) x in
   let* out := st_lift (t_add fw x out) in
   st_ret out)%fwd.

(** [for m in modules: out = f(m, out)] *)
Fixpoint for_each {X : Type} (f : X -> T -> FM T) (modules : list X) (out : T) : FM T :=
  match modules with
  | [] => st_ret out
  | m :: rest => (let* out := f m out in for_each f rest out)%fwd
  end.

(** Lines 166-173 of [SPADEGenerator.forward]: the random draw and the
    choice of the condition map by [sign]. *)
Definition condition_by_sign (depth : T) (sign : Z) : FM T :=
  (let* random_tensor := (fun w => Ok (torch_rand fw w)) in
   let random_tensor := Qfloor (random_tensor * 2) in
   if sign =? 0 then st_ret (mul_scalar fw depth random_tensor)
   else if sign =? 1 then st_ret depth
   else if sign =? 2 then st_ret (mul_scalar fw depth 0)
   else st_ret depth)%fwd.

(** Lines 174-185 of [SPADEGenerator.forward]. *)
Definition SPADEGenerator_body (self : SPADEGenerator L) (x depth : T) : FM T :=
  (let* out := Sequential (sg_model0 self) x in
   let* out := Sequential (sg_model1 self) out in
   let* out := for_each (fun m out => SPADEResidualBlock_forward m out depth)
                 (sg_model2 self) out in
   let* out := for_each (fun m out =>
                   match m with
                   | UpSPADE m => SPADE_forward m out depth
                   | UpLayer m => call fw m out
                   end) (sg_model3 self) out in
   let* out := Sequential (sg_model4 self) out in
   st_ret out)%fwd.

(** [SPADEGenerator.forward] *)
Definition SPADEGenerator_forward (self : SPADEGenerator L) (x depth : T) (sign : Z) : FM T :=
  (let* depth := condition_by_sign depth sign in
   SPADEGenerator_body self x depth)%fwd.

(** [Generator.forward] *)
Definition Generator_forward (self : Generator L) (x : T) : FM T :=
  (let* out := Sequential (g_model0 self) x in
   let* out := Sequential (g_model1 self) out in
   let* out := for_each ResidualBlock_forward (g_model2 self) out in
   let* out := Sequential (g_model3 self) out in
   let* out := Sequential (g_model4 self) out in
   st_ret out)%fwd.

(** [GlobalGenerator2.forward] *)
Definition GlobalGenerator2_forward (self : GlobalGenerator2 L) (input : T) : FM T :=
  for_each (fun m out =>
              match m with
              | GLayer l => call fw l out
              | GResnetBlock b => ResnetBlock_forward b out
              end) (gg_model self) input.

End Forward.

Arguments Sequential {fw} modules x.
Arguments for_each {fw X} f modules out.
Arguments SPADE_forward {fw} self x segmap.
Arguments SPADEResidualBlock_forward {fw} self x depth.
Arguments ResidualBlock_forward {fw} self x.
Arguments ResnetBlock_forward {fw} self x.
Arguments condition_by_sign {fw} depth sign.
Arguments SPADEGenerator_body {fw} self x depth.
Arguments SPADEGenerator_forward {fw} self x depth sign.
Arguments Generator_forward {fw} self x.
Arguments GlobalGenerator2_forward {fw} self input.

(** The path of [SPADEResidualBlock.forward] before the skip connection
    (lines 90-93): convolution, SPADE, convolution, SPADE. *)
Definition SPADEResidualBlock_path {fw : Framework} (self : SPADEResidualBlock (layer fw))
    (x depth : tensor fw) : M (world fw) (tensor fw) :=
  (let* out := Sequential (conv_block0 self) x in
   let* out := SPADE_forward (norm_layer0 self) out depth in
   let* out := Sequential (conv_block1 self) out in
   SPADE_forward (norm_layer1 self) out depth)%fwd.

(** ** [InceptionV3]

    The wrapped network comes from the model zoo; its sub-modules and the
    functional operators of the framework are parameters here. *)

Section InceptionV3.

Context {tensor world module : Type}.

Variable call_module : module -> tensor -> M world tensor.
(** [F.max_pool2d(x, kernel_size=k, stride=s)] *)
Variable F_max_pool2d : tensor -> Z -> Z -> M world tensor.
(** [F.adaptive_avg_pool2d(x, size)] *)
Variable F_adaptive_avg_pool2d : tensor -> Z * Z -> M world tensor.
(** [F.dropout(x, training=b)]: draws from the random generator *)
Variable F_dropout : tensor -> bool -> M world tensor.
(** [torch.flatten(x, start_dim)] *)
Variable torch_flatten : tensor -> Z -> M world tensor.

(** The attributes of [self.model_ft] that [model.py] uses. *)
Record Inception3 : Type := {
  Conv2d_1a_3x3 : module;
  Conv2d_2a_3x3 : module;
  Conv2d_2b_3x3 : module;
  Conv2d_3b_1x1 : module;
  Conv2d_4a_3x3 : module;
  Mixed_5b : module;
  Mixed_5c : module;
  Mixed_5d : module;
  Mixed_6a : module;
  Mixed_6b : module;
  Mixed_6c : module;
  Mixed_6d : module;
  Mixed_6e : module;
  AuxLogits : module;
  Mixed_7a : module;
  Mixed_7b : module;
  Mixed_7c : module;
  fc : module
}.

Record InceptionV3 : Type := {
  every_feat : bool;
  model_ft : Inception3;
  isTrain : bool;
  use_aux : bool
}.

(** [InceptionV3.forward]; the second component is [feat21] or [aux],
    and [aux] may be [None]. *)
Definition InceptionV3_forward (self : InceptionV3) (x : tensor)
  : M world (tensor * option tensor) :=
  (let* x := call_module (Conv2d_1a_3x3 (model_ft self)) x in
   let* x := call_module (Conv2d_2a_3x3 (model_ft self)) x in
   let* x := call_module (Conv2d_2b_3x3 (model_ft self)) x in
   let* x := F_max_pool2d x 3 2 in
   let* x := call_module (Conv2d_3b_1x1 (model_ft self)) x in
   let* x := call_module (Conv2d_4a_3x3 (model_ft self)) x in
   let* x := F_max_pool2d x 3 2 in
   let* x := call_module (Mixed_5b (model_ft self)) x in
   let feat1 := x in
   let* x := call_module (Mixed_5c (model_ft self)) x in
   let feat11 := x in
   let* x := call_module (Mixed_5d (model_ft self)) x in
   let feat12 := x in
   let* x := call_module (Mixed_6a (model_ft self)) x in
   let feat2 := x in
   let* x := call_module (Mixed_6b (model_ft self)) x in
   let feat21 := x in
   let* x := call_module (Mixed_6c (model_ft self)) x in
   let feat22 := x in
   let* x := call_module (Mixed_6d (model_ft self)) x in
   let feat23 := x in
   let* x := call_module (Mixed_6e (model_ft self)) x in
   let feat3 := x in
   let aux_defined := isTrain self && use_aux self in
   let* aux := (if aux_defined
                then let* aux := call_module (AuxLogits (model_ft self)) x in st_ret (Some aux)
                else st_ret None) in
   let* x := call_module (Mixed_7a (model_ft self)) x in
   let* x := call_module (Mixed_7b (model_ft self)) x in
   let* x := call_module (Mixed_7c (model_ft self)) x in
   let* x := F_adaptive_avg_pool2d x (1, 1) in
   let* feats := F_dropout x (isTrain self) in
   let* x := torch_flatten feats 1 in
   let* x := call_module (fc (model_ft self)) x in
   if every_feat self
   then st_ret (x, Some feat21)
   else st_ret (x, aux))%fwd.

(** The part of the forward pass that produces [feat21]. *)
Definition features_Mixed_6b (self : InceptionV3) (x : tensor) : M world tensor :=
  (let* x := call_module (Conv2d_1a_3x3 (model_ft self)) x in
   let* x := call_module (Conv2d_2a_3x3 (model_ft self)) x in
   let* x := call_module (Conv2d_2b_3x3 (model_ft self)) x in
   let* x := F_max_pool2d x 3 2 in
   let* x := call_module (Conv2d_3b_1x1 (model_ft self)) x in
   let* x := call_module (Conv2d_4a_3x3 (model_ft self)) x in
   let* x := F_max_pool2d x 3 2 in
   let* x := call_module (Mixed_5b (model_ft self)) x in
   let* x := call_module (Mixed_5c (model_ft self)) x in
   let* x := call_module (Mixed_5d (model_ft self)) x in
   let* x := call_module (Mixed_6a (model_ft self)) x in
   call_module (Mixed_6b (model_ft self)) x)%fwd.

(** [self.every_feat = b], everything else as it is. *)
Definition with_every_feat (b : bool) (self : InceptionV3) : InceptionV3 :=
  {| every_feat := b; model_ft := model_ft self;
     isTrain := isTrain self; use_aux := use_aux self |}.

End InceptionV3.

(** *** The freezing rule of [InceptionV3.__init__] (lines 340-346)

    A parameter is an object; [requires_grad] is an attribute of it.  The
    heap maps the identity of each parameter to its flag.  [children]
    lists, for each child of [self.model_ft.children()] in order, the
    parameters that [child.parameters()] yields. *)

Definition param : Type := positive.

(** [for param in child.parameters(): param.requires_grad = False] *)
Definition freeze_child (params : list param) (heap : gmap positive bool) : gmap positive bool :=
  fold_left (fun heap p => <[p := false]> heap) params heap.

Definition freeze_step (st : gmap positive bool * Z) (child : list param) : gmap positive bool * Z :=
  let '(heap, stop) := st in
  let heap := if stop <? 17 then freeze_child child heap else heap in
  (heap, stop + 1).

Definition freeze_rule (freeze pretrain : bool) (children : list (list param))
    (heap : gmap positive bool) : gmap positive bool :=
  let stop := 0 in
  if freeze && pretrain
  then fst (fold_left freeze_step children (heap, stop))
  else heap.

(** ** The framework at shapes

    A tensor is its [torch.Size] (N, C, H, W); a layer acts by the shape
    rule the framework documents for it (the output size of a convolution
    and of a transposed convolution, padding smaller than the input for
    reflection padding, matching channel counts), and raises where the
    rule does not apply.  Activations keep the shape, and so do the
    normalizations where they run: [nn.InstanceNorm2d] raises [ValueError]
    on a map with one spatial element, [nn.BatchNorm2d] raises it in
    training mode on one value per channel.  [training] is the mode of
    the network ([net.train()] or [net.eval()]; a module is constructed
    in training mode).  Element-wise arithmetic broadcasts. *)

Record Size : Type := { sN : Z; sC : Z; sH : Z; sW : Z }.

Definition conv_out (i k stride padding : Z) : Z :=
  (i + 2 * padding - (k - 1) - 1) / stride + 1.

Definition conv_transpose_out (i k stride padding output_padding : Z) : Z :=
  (i - 1) * stride - 2 * padding + (k - 1) + output_padding + 1.

Definition Layer_shape (training : bool) (l : Layer) (s : Size) : result Size :=
  match l with
  | ReflectionPad2d p =>
      if (p <? sH s) && (p <? sW s)
      then Ok {| sN := sN s; sC := sC s; sH := sH s + 2 * p; sW := sW s + 2 * p |}
      else Raise (RuntimeError "Padding size should be less than the corresponding input dimension")
  | ReplicationPad2d p =>
      Ok {| sN := sN s; sC := sC s; sH := sH s + 2 * p; sW := sW s + 2 * p |}
  | Conv2d cin cout k stride p =>
      if negb (sC s =? cin)
      then Raise (RuntimeError "input channels do not match the weight")
      else if (sH s + 2 * p <? k) || (sW s + 2 * p <? k)
      then Raise (RuntimeError "Kernel size can't be greater than actual input size")
      else Ok {| sN := sN s; sC := cout;
                 sH := conv_out (sH s) k stride p; sW := conv_out (sW s) k stride p |}
  | ConvTranspose2d cin cout k stride p op =>
      if negb (sC s =? cin)
      then Raise (RuntimeError "input channels do not match the weight")
      else Ok {| sN := sN s; sC := cout;
                 sH := conv_transpose_out (sH s) k stride p op;
                 sW := conv_transpose_out (sW s) k stride p op |}
  | InstanceNorm2d c affine =>
      if affine && negb (sC s =? c)
      then Raise (RuntimeError "input channels do not match num_features")
      else if sH s * sW s =? 1
      then Raise (ValueError "Expected more than 1 spatial element when training")
      else Ok s
  | BatchNorm2d c affine =>
      if training && (sN s * sH s * sW s =? 1)
      then Raise (ValueError "Expected more than 1 value per channel when training")
      else if negb (sC s =? c)
      then Raise (RuntimeError "input channels do not match num_features")
      else Ok s
  | ReLU _ | Sigmoid | Tanh | Dropout _ => Ok s
  end.

Definition broadcast_dim (a b : Z) : result Z :=
  if a =? b then Ok a
  else if a =? 1 then Ok b
  else if b =? 1 then Ok a
  else Raise (RuntimeError "The size of tensor a must match the size of tensor b").

Definition broadcast (s t : Size) : result Size :=
  (let* n := broadcast_dim (sN s) (sN t) in
   let* c := broadcast_dim (sC s) (sC t) in
   let* h := broadcast_dim (sH s) (sH t) in
   let* w := broadcast_dim (sW s) (sW t) in
   Ok {| sN := n; sC := c; sH := h; sW := w |})%result.

Definition ShapeFW (training : bool) : Framework := {|
  tensor := Size;
  layer := Layer;
  world := unit;
  call := fun l s => st_lift (Layer_shape training l s);
  size_hw := fun s => (sH s, sW s);
  F_interpolate := fun s hw => Ok {| sN := sN s; sC := sC s; sH := fst hw; sW := snd hw |};
  t_add := broadcast;
  t_sub := broadcast;
  t_mul := broadcast;
  scalar_add := fun _ s => s;
  mul_scalar := fun s _ => s;
  zeros_like := fun s => s;
  torch_rand := fun w => (0%Q, w)
|}.

(** ** The framework at row vectors

    A tensor of shape (1, 1, 1, n) is the list of its n entries; a layer
    is the function it computes with its weights; the random source is a
    counter.  The entries are of a type [R] with the arithmetic
    [radd], [rsub], [rmul] and the image [of_Z] of the integers. *)

Section RowFramework.

Context {R : Type}.
Variables (radd rsub rmul : R -> R -> R) (of_Z : Z -> R).

Fixpoint zip_with (f : R -> R -> R) (a b : list R) : list R :=
  match a, b with
  | x :: a', y :: b' => f x y :: zip_with f a' b'
  | _, _ => []
  end.

(** Element-wise [f] on equal lengths, a one-element operand broadcast. *)
Definition pointwise (f : R -> R -> R) (a b : list R) : result (list R) :=
  if (length a =? length b)%nat then Ok (zip_with f a b)
  else match a, b with
       | [x], _ => Ok (map (fun y => f x y) b)
       | _, [y] => Ok (map (fun x => f x y) a)
       | _, _ => Raise (RuntimeError "The size of tensor a must match the size of tensor b")
       end.

(** Nearest-neighbour resampling of a row to [n] entries: entry [i] is
    entry floor(i * len / n) of [t].  (The framework computes this index
    in floating point, and can differ from the exact one when the two
    lengths differ; every row resampled below keeps its length.) *)
Definition nearest (t : list R) (n : nat) : list R :=
  map (fun i => nth (i * length t / n)%nat t (of_Z 0)) (seq 0 n).

(** Layers on rows.  [row_conv weights bias] is a convolution of stride 1
    without padding, [row_conv_same] the one of kernel size 3 with zero
    padding 1, [row_reflect_pad1] is [nn.ReflectionPad2d(1)] along the row. *)
Definition row_conv (weights : list R) (bias : R) (t : list R) : list R :=
  map (fun i => fold_left radd (zip_with rmul weights (skipn i t)) bias)
      (seq 0 (length t + 1 - length weights)).

Definition row_conv_same (weights : list R) (bias : R) (t : list R) : list R :=
  row_conv weights bias (of_Z 0 :: t ++ [of_Z 0]).

Definition row_reflect_pad1 (t : list R) : list R :=
  match t with
  | a :: b :: _ => b :: t ++ [nth (length t - 2) t a]
  | _ => t
  end.

Definition RowFW : Framework := {|
  tensor := list R;
  layer := list R -> list R;
  world := nat;
  call := fun l x => st_ret (l x);
  size_hw := fun t => (1, Z.of_nat (length t));
  F_interpolate := fun t hw => Ok (nearest t (Z.to_nat (fst hw * snd hw)));
  t_add := pointwise radd;
  t_sub := pointwise rsub;
  t_mul := pointwise rmul;
  scalar_add := fun k t => map (fun x => radd (of_Z k) x) t;
  mul_scalar := fun t k => map (fun x => rmul x (of_Z k)) t;
  zeros_like := fun t => map (fun _ => of_Z 0) t;
  torch_rand := fun n => (Z.of_nat (n mod 4) # 4, S n)
|}.

End RowFramework.

(** Exact integer entries. *)
Definition ZRowFW : Framework := RowFW Z.add Z.sub Z.mul (fun z => z).

(** binary32 entries ([torch.float32]): 24 bits of precision, exponents
    below 128, round to nearest even. *)
Definition f32_add : spec_float -> spec_float -> spec_float := SFadd 24 128.
Definition f32_sub : spec_float -> spec_float -> spec_float := SFsub 24 128.
Definition f32_mul : spec_float -> spec_float -> spec_float := SFmul 24 128.
Definition f32_of_Z (z : Z) : spec_float := binary_normalize 24 128 z 0 false.

Definition f32_div : spec_float -> spec_float -> spec_float := SFdiv 24 128.
Definition f32_sqrt : spec_float -> spec_float := SFsqrt 24 128.

Definition F32RowFW : Framework := RowFW f32_add f32_sub f32_mul f32_of_Z.

(** [nn.ReLU] on binary32 rows *)
Definition f32_relu (t : list spec_float) : list spec_float :=
  map (fun v => if SFltb v (f32_of_Z 0) then f32_of_Z 0 else v) t.

(** The default [eps = 1e-5] of the normalizations, as a binary32 number. *)
Definition f32_eps : spec_float := S754_finite false 10995116 (-40).

(** [nn.InstanceNorm2d(affine=False)] on a binary32 row:
    (x - mean) / sqrt(var + eps), the variance being the biased one,
    every operation rounded to binary32.  (The framework's kernel orders
    and accumulates its operations differently, so the last bits of a
    result can differ; the rows normalized below are constant or hold a
    NaN, and come out as zeros or NaNs either way.) *)
Definition f32_instance_norm (t : list spec_float) : list spec_float :=
  let n := f32_of_Z (Z.of_nat (length t)) in
  let mean := f32_div (fold_left f32_add t (f32_of_Z 0)) n in
  let centred := map (fun v => f32_sub v mean) t in
  let var := f32_div (fold_left f32_add (map (fun v => f32_mul v v) centred) (f32_of_Z 0)) n in
  map (fun v => f32_div v (f32_sqrt (f32_add var f32_eps))) centred.

(** 2^-30 *)
Definition f32_tiny : spec_float := SFldexp 24 128 (f32_of_Z 1) (-30).

(** A SPADE module on binary32 rows whose three convolutions have zero
    weights; the bias of [mlp_beta] is 2^-30, the other biases are 0. *)
Definition f32_spade : SPADE (list spec_float -> list spec_float) :=
  {| param_free_norm := f32_instance_norm;
     mlp_shared := [row_conv_same f32_add f32_mul f32_of_Z
                      [f32_of_Z 0; f32_of_Z 0; f32_of_Z 0] (f32_of_Z 0);
                    f32_relu];
     mlp_gamma := row_conv_same f32_add f32_mul f32_of_Z
                    [f32_of_Z 0; f32_of_Z 0; f32_of_Z 0] (f32_of_Z 0);
     mlp_beta := row_conv_same f32_add f32_mul f32_of_Z
                   [f32_of_Z 0; f32_of_Z 0; f32_of_Z 0] f32_tiny |}.

(** A [SPADEResidualBlock] on binary32 rows with these SPADE modules and
    zero convolutions. *)
Definition f32_spade_block : SPADEResidualBlock (list spec_float -> list spec_float) :=
  {| conv_block0 := [row_reflect_pad1;
                     row_conv f32_add f32_mul [f32_of_Z 0; f32_of_Z 0; f32_of_Z 0] (f32_of_Z 0)];
     norm_layer0 := f32_spade;
     conv_block1 := [f32_relu; row_reflect_pad1;
                     row_conv f32_add f32_mul [f32_of_Z 0; f32_of_Z 0; f32_of_Z 0] (f32_of_Z 0)];
     norm_layer1 := f32_spade |}.

(** A generator on binary32 rows whose only stage is that block. *)
Definition f32_generator : SPADEGenerator (list spec_float -> list spec_float) :=
  {| sg_model0 := []; sg_model1 := []; sg_model2 := [f32_spade_block];
     sg_model3 := []; sg_model4 := [] |}.

(** A residual block on integer rows: convolution, ReLU, convolution. *)
Definition Z_relu (t : list Z) : list Z := map (Z.max 0) t.

(** A generator on integer rows: a stem convolution and one SPADE stage. *)
Definition Z_generator : SPADEGenerator (list Z -> list Z) :=
  {| sg_model0 := [row_conv_same Z.add Z.mul (fun z => z) [1; 1; 1] 0];
     sg_model1 := [];
     sg_model2 := [];
     sg_model3 :=
       [UpSPADE {| param_free_norm := fun t => t;
                   mlp_shared := [row_conv_same Z.add Z.mul (fun z => z) [1; 0; 2] 0; Z_relu];
                   mlp_gamma := row_conv_same Z.add Z.mul (fun z => z) [0; 1; 0] 0;
                   mlp_beta := row_conv_same Z.add Z.mul (fun z => z) [0; 0; 1] 1 |}];
     sg_model4 := [] |}.

Definition Z_residual_block : ResidualBlock (list Z -> list Z) :=
  {| conv_block := [row_reflect_pad1; row_conv Z.add Z.mul [1; -2; 1] 3; Z_relu;
                    row_reflect_pad1; row_conv Z.add Z.mul [2; 0; -1] (-1)] |}.

(** ** Values the proofs name *)

(** The output size of both generators on an input of size [H]:
    4 * ceil(H / 4). *)
Definition generator_out (H : Z) : Z := 4 * ((H + 3) / 4).

(** The module [SPADE("spadeinstance3x3", norm_nc, 3)]. *)
Definition spade3x3 (norm_nc : Z) : SPADE Layer :=
  {| param_free_norm := InstanceNorm2d norm_nc false;
     mlp_shared := [Conv2d 3 128 3 1 1; ReLU false];
     mlp_gamma := Conv2d 128 norm_nc 3 1 1;
     mlp_beta := Conv2d 128 norm_nc 3 1 1 |}.

(** The module [SPADEResidualBlock(in_features)]. *)
Definition spade_block (in_features : Z) : SPADEResidualBlock Layer :=
  {| conv_block0 := [ReflectionPad2d 1; Conv2d in_features in_features 3 1 0];
     norm_layer0 := spade3x3 in_features;
     conv_block1 := [ReLU true; ReflectionPad2d 1; Conv2d in_features in_features 3 1 0];
     norm_layer1 := spade3x3 in_features |}.

(** The layers the [### downsample] loop of [GlobalGenerator2.__init__]
    appends in [n] iterations that start at [mult]. *)
Fixpoint down_stages (ngf : Z) (norm_layer : Z -> Layer) (activation : Layer)
    (n : nat) (mult : Z) : list (GModule Layer) :=
  match n with
  | O => []
  | S n' =>
      [GLayer (ConvTranspose2d (ngf * mult) (ngf * mult / 2) 4 2 1 0);
       GLayer (norm_layer (ngf * mult / 2));
       GLayer activation]
      ++ down_stages ngf norm_layer activation n' (mult / 2)
  end.

(** [forward] adds its input to what [path] computes from it. *)
Definition skip_connection (fw : Framework)
    (forward path : tensor fw -> M (world fw) (tensor fw)) : Prop :=
  forall x w, forward x w = (let* f := path x in st_lift (t_add fw x f))%fwd w.

(** Whenever [forward] returns, [path] has returned some [f] of which the
    output is the sum with the input, and subtracting the input from the
    output gives [f] back. *)
Definition exact_difference (fw : Framework)
    (forward path : tensor fw -> M (world fw) (tensor fw)) : Prop :=
  forall x w out w',
    forward x w = Ok (out, w') ->
    exists f, path x w = Ok (f, w')
              /\ t_add fw x f = Ok out
              /\ (size_hw fw x = size_hw fw f -> t_sub fw out x = Ok f).

(** Subtraction undoes addition on tensors of one size. *)
Definition sub_cancels_add (fw : Framework) : Prop :=
  forall a b c, size_hw fw a = size_hw fw b -> t_add fw a b = Ok c -> t_sub fw c a = Ok b.

(** The first tensor of the pair a forward pass returns, with the state
    it leaves. *)
Definition first_output {A B W : Type} (r : result (A * B * W)) : result (A * W) :=
  match r with
  | Ok (a, _, w) => Ok (a, w)
  | Raise e => Raise e
  end.

(** An [InceptionV3] on integers: every sub-module adds 1, pooling and
    flattening change nothing, dropout in training scales by the state. *)
Definition Z_inception : InceptionV3 (module := Z -> Z) :=
  let m := {| Conv2d_1a_3x3 := Z.succ; Conv2d_2a_3x3 := Z.succ; Conv2d_2b_3x3 := Z.succ;
              Conv2d_3b_1x1 := Z.succ; Conv2d_4a_3x3 := Z.succ;
              Mixed_5b := Z.succ; Mixed_5c := Z.succ; Mixed_5d := Z.succ;
              Mixed_6a := Z.succ; Mixed_6b := Z.succ; Mixed_6c := Z.succ;
              Mixed_6d := Z.succ; Mixed_6e := Z.succ;
              AuxLogits := Z.opp;
              Mixed_7a := Z.succ; Mixed_7b := Z.succ; Mixed_7c := Z.succ;
              fc := Z.mul 2 |} in
  {| every_feat := false; model_ft := m; isTrain := true; use_aux := true |}.

Definition Z_call (f : Z -> Z) (x : Z) : M nat Z := st_ret (f x).
Definition Z_pool (x : Z) (_ _ : Z) : M nat Z := st_ret x.
Definition Z_avg_pool (x : Z) (_ : Z * Z) : M nat Z := st_ret x.
Definition Z_dropout (x : Z) (training : bool) : M nat Z :=
  fun w => Ok (if training then x * Z.of_nat w else x, S w).
Definition Z_flatten (x : Z) (_ : Z) : M nat Z := st_ret x.

(** Nineteen children with one parameter each (1, ..., 19), all of which
    require gradients. *)
Definition nineteen_children : list (list param) :=
  map (fun i => [Pos.of_nat i]) (seq 1 19).

Definition all_trainable : gmap positive bool :=
  list_to_map (map (fun i => (Pos.of_nat i, true)) (seq 1 19)).

(** [s] holds no character of ['0'..'9']. *)
Fixpoint no_digit (s : string) : bool :=
  match s with
  | EmptyString => true
  | String c rest => negb (is_digit c) && no_digit rest
  end.

(** The text [<d>x<d'>] followed by [rest]. *)
Definition ks_text (d d' : ascii) (rest : string) : string :=
  String d (String "x" (String d' rest)).

(** The layers the [### upsample] loop of [GlobalGenerator2.__init__]
    appends in [n] iterations that start at [mult], and the [mult] it
    ends with. *)
Fixpoint up_stages (ngf : Z) (norm_layer : Z -> Layer) (activation : Layer)
    (n : nat) (mult : Z) : list (GModule Layer) * Z :=
  match n with
  | O => ([], mult)
  | S n' =>
      let next_mult := mult / 2 in
      let '(next_mult, mult) := if next_mult =? 0 then (1, 1) else (next_mult, mult) in
      let '(rest, final) := up_stages ngf norm_layer activation n' next_mult in
      ([GLayer (ConvTranspose2d (ngf * mult) (ngf * next_mult) 3 2 1 1);
        GLayer (norm_layer (ngf * next_mult));
        GLayer activation] ++ rest, final)
  end.

(** [mult] after [n] iterations of [mult = mult // 2]. *)
Definition halved (n : nat) (mult : Z) : Z := Nat.iter n (fun m => m / 2) mult.

(** The tail of [GlobalGenerator2.model]. *)
Definition gg_tail (ngf output_nc : Z) (use_sig : bool) : list (GModule Layer) :=
  [GLayer (ReflectionPad2d 3); GLayer (Conv2d ngf output_nc 7 1 0);
   GLayer (if use_sig then Sigmoid else Tanh)].

(** The stem of [GlobalGenerator2.model]. *)
Definition gg_stem (input_nc ngf : Z) (norm_layer : Z -> Layer) : list (GModule Layer) :=
  [GLayer (ReflectionPad2d 4); GLayer (Conv2d input_nc (ngf * 8) 7 1 0);
   GLayer (norm_layer (ngf * 8)); GLayer (ReLU true)].

(** [padding_type] is one of the three that [build_conv_block] knows. *)
Definition valid_padding (padding_type : string) : Prop :=
  padding_type = "reflect" \/ padding_type = "replicate" \/ padding_type = "zero".

(** The normalization constructor gives layers that keep the shape of an
    input with the channels they were built for when the map has more
    than one spatial element (as [nn.BatchNorm2d] and [nn.InstanceNorm2d]
    do, in either mode). *)
Definition norm_keeps_shape (training : bool) (norm_layer : Z -> Layer) : Prop :=
  forall c N H W : Z,
    1 <= H -> 1 <= W -> 2 <= H \/ 2 <= W ->
    Layer_shape training (norm_layer c) {| sN := N; sC := c; sH := H; sW := W |} =
    Ok {| sN := N; sC := c; sH := H; sW := W |}.

(** One element of [GlobalGenerator2.model] applied, as in
    [GlobalGenerator2.forward]. *)
Definition gg_call (fw : Framework) (m : GModule (layer fw)) (out : tensor fw)
  : M (world fw) (tensor fw) :=
  match m with
  | GLayer l => call fw l out
  | GResnetBlock b => ResnetBlock_forward b out
  end.

(** 2 to the power [k]. *)
Definition pow2 (k : nat) : Z := 2 ^ Z.of_nat k.

(** [self.model_ft.AuxLogits = m], everything else as it is. *)
Definition with_AuxLogits {module : Type} (m : module) (self : InceptionV3 (module := module))
  : InceptionV3 (module := module) :=
  let ft := model_ft self in
  {| every_feat := every_feat self;
     model_ft :=
       {| Conv2d_1a_3x3 := Conv2d_1a_3x3 ft; Conv2d_2a_3x3 := Conv2d_2a_3x3 ft;
          Conv2d_2b_3x3 := Conv2d_2b_3x3 ft; Conv2d_3b_1x1 := Conv2d_3b_1x1 ft;
          Conv2d_4a_3x3 := Conv2d_4a_3x3 ft;
          Mixed_5b := Mixed_5b ft; Mixed_5c := Mixed_5c ft; Mixed_5d := Mixed_5d ft;
          Mixed_6a := Mixed_6a ft; Mixed_6b := Mixed_6b ft; Mixed_6c := Mixed_6c ft;
          Mixed_6d := Mixed_6d ft; Mixed_6e := Mixed_6e ft;
          AuxLogits := m;
          Mixed_7a := Mixed_7a ft; Mixed_7b := Mixed_7b ft; Mixed_7c := Mixed_7c ft;
          fc := fc ft |};
     isTrain := isTrain self; use_aux := use_aux self |}.

(** [self.isTrain = b], everything else as it is. *)
Definition with_isTrain {module : Type} (b : bool) (self : InceptionV3 (module := module))
  : InceptionV3 (module := module) :=
  {| every_feat := every_feat self; model_ft := model_ft self;
     isTrain := b; use_aux := use_aux self |}.

(** Integer modules of which [None] raises on every input, and an
    [InceptionV3] of them whose auxiliary head is [None]. *)
Definition Z_failing_call (f : option (Z -> Z)) (x : Z) : M nat Z :=
  match f with
  | Some f => st_ret (f x)
  | None => fun _ => Raise (RuntimeError "size mismatch")
  end.

Definition Z_inception_failing_aux : InceptionV3 (module := option (Z -> Z)) :=
  let m := {| Conv2d_1a_3x3 := Some Z.succ; Conv2d_2a_3x3 := Some Z.succ;
              Conv2d_2b_3x3 := Some Z.succ; Conv2d_3b_1x1 := Some Z.succ;
              Conv2d_4a_3x3 := Some Z.succ;
              Mixed_5b := Some Z.succ; Mixed_5c := Some Z.succ; Mixed_5d := Some Z.succ;
              Mixed_6a := Some Z.succ; Mixed_6b := Some Z.succ; Mixed_6c := Some Z.succ;
              Mixed_6d := Some Z.succ; Mixed_6e := Some Z.succ;
              AuxLogits := None;
              Mixed_7a := Some Z.succ; Mixed_7b := Some Z.succ; Mixed_7c := Some Z.succ;
              fc := Some (Z.mul 2) |} in
  {| every_feat := true; model_ft := m; isTrain := true; use_aux := true |}.

(** * Properties *)

(** ** Configuration errors *)

Example SPADE_init_instance3x3 :
  SPADE_init "spadeinstance3x3" 64 3 =
  Ok {| param_free_norm := InstanceNorm2d 64 false;
        mlp_shared := [Conv2d 3 128 3 1 1; ReLU false];
        mlp_gamma := Conv2d 128 64 3 1 1;
        mlp_beta := Conv2d 128 64 3 1 1 |}.
Proof. reflexivity. Qed.

Example SPADE_init_foo :
  SPADE_init "spadefoo3x3" 64 3 =
  Raise (ValueError "foo is not a recognized param-free norm type in SPADE").
Proof. reflexivity. Qed.

(** The comment above the class names [syncbatch]; the constructor does
    not take it. *)
Example SPADE_init_syncbatch :
  SPADE_init "spadesyncbatch3x3" 64 3 =
  Raise (ValueError "syncbatch is not a recognized param-free norm type in SPADE").
Proof. reflexivity. Qed.

(** The search is not anchored: a later occurrence of the pattern is
    found when the text does not match at its start. *)
Example re_search_later_match :
  re_search "spade3x3 spadebatch5x5" = Some {| group1 := "batch"; group2 := "5" |}.
Proof. reflexivity. Qed.

Example SPADE_init_no_match :
  SPADE_init "spade" 64 3 =
  Raise (AttributeError "'NoneType' object has no attribute 'group'").
Proof. reflexivity. Qed.

Lemma SPADE_init_unfold (config_text : string) (norm_nc label_nc : Z) (m : Match) :
  startswith config_text "spade" = true ->
  re_search config_text = Some m ->
  SPADE_init config_text norm_nc label_nc =
  (let* norm := (if String.eqb (group1 m) "instance"
                 then Ok (InstanceNorm2d norm_nc false)
                 else if String.eqb (group1 m) "batch"
                 then Ok (BatchNorm2d norm_nc false)
                 else Raise (ValueError
                        (group1 m ++ " is not a recognized param-free norm type in SPADE")%string)) in
   Ok {| param_free_norm := norm;
         mlp_shared := [Conv2d label_nc 128 (int (group2 m)) 1 (int (group2 m) / 2); ReLU false];
         mlp_gamma := Conv2d 128 norm_nc (int (group2 m)) 1 (int (group2 m) / 2);
         mlp_beta := Conv2d 128 norm_nc (int (group2 m)) 1 (int (group2 m) / 2) |})%result.
Proof.
  intros Hs Hm. unfold SPADE_init. rewrite Hs, Hm. reflexivity.
Qed.

(** C4.  When the configuration text passes the [startswith] assertion and
    the pattern is found in it, a normalization type other than
    [instance] and [batch] makes [SPADE.__init__] raise the [ValueError]
    that names the type, whatever the channel counts; [instance] and
    [batch], with channel counts that are not negative (the layer
    constructors refuse a negative one), make it return the module with
    the matching parameter-free normalization. *)
Theorem SPADE_init_norm_type_checked :
  forall (config_text : string) (norm_nc label_nc : Z) (m : Match),
    startswith config_text "spade" = true ->
    re_search config_text = Some m ->
    (group1 m <> "instance" -> group1 m <> "batch" ->
       SPADE_init config_text norm_nc label_nc =
       Raise (ValueError
                (group1 m ++ " is not a recognized param-free norm type in SPADE")%string))
    /\ (group1 m = "instance" -> 0 <= norm_nc -> 0 <= label_nc ->
        exists spade, SPADE_init config_text norm_nc label_nc = Ok spade
                      /\ param_free_norm spade = InstanceNorm2d norm_nc false)
    /\ (group1 m = "batch" -> 0 <= norm_nc -> 0 <= label_nc ->
        exists spade, SPADE_init config_text norm_nc label_nc = Ok spade
                      /\ param_free_norm spade = BatchNorm2d norm_nc false).
Proof.
  intros config_text norm_nc label_nc m Hs Hm.
  rewrite (SPADE_init_unfold _ norm_nc label_nc _ Hs Hm).
  repeat split.
  - intros Hi Hb.
    apply String.eqb_neq in Hi. apply String.eqb_neq in Hb.
    rewrite Hi, Hb. reflexivity.
  - intros -> _ _. simpl. eexists; split; reflexivity.
  - intros -> _ _. simpl. eexists; split; reflexivity.
Qed.

Lemma SPADE_init_norm_type_checked_witness :
  SPADE_init "spadefoo3x3" 64 3 =
    Raise (ValueError "foo is not a recognized param-free norm type in SPADE")
  /\ (exists spade, SPADE_init "spadeinstance3x3" 64 3 = Ok spade
                    /\ param_free_norm spade = InstanceNorm2d 64 false)
  /\ (exists spade, SPADE_init "spadebatch5x5" 64 3 = Ok spade
                    /\ param_free_norm spade = BatchNorm2d 64 false).
Proof.
  split; [| split].
  - apply (proj1 (SPADE_init_norm_type_checked "spadefoo3x3" 64 3
                    {| group1 := "foo"; group2 := "3" |} eq_refl eq_refl));
      discriminate.
  - apply (proj1 (proj2 (SPADE_init_norm_type_checked "spadeinstance3x3" 64 3
                    {| group1 := "instance"; group2 := "3" |} eq_refl eq_refl)));
      first [reflexivity | lia].
  - apply (proj2 (proj2 (SPADE_init_norm_type_checked "spadebatch5x5" 64 3
                    {| group1 := "batch"; group2 := "5" |} eq_refl eq_refl)));
      first [reflexivity | lia].
Defined.

(** C5.  [ResnetBlock.__init__] raises [NotImplementedError] for a padding
    type other than [reflect], [replicate] and [zero], before it builds
    any layer; for these three, with a channel count [dim] that is not
    negative (the layer constructors refuse a negative one), it returns
    the block: an explicit padding layer before each convolution for
    [reflect] and [replicate], convolutions of padding 1 for [zero]. *)
Theorem ResnetBlock_padding_type_checked :
  forall (dim : Z) (padding_type : string) (norm_layer : Z -> Layer)
         (activation : Layer) (use_dropout : bool),
    (padding_type <> "reflect" -> padding_type <> "replicate" -> padding_type <> "zero" ->
       ResnetBlock_init dim padding_type norm_layer activation use_dropout =
       Raise (NotImplementedError ("padding [" ++ padding_type ++ "] is not implemented")%string))
    /\ (0 <= dim ->
        ResnetBlock_init dim "reflect" norm_layer activation use_dropout =
        Ok {| rb_conv_block :=
                [ReflectionPad2d 1; Conv2d dim dim 3 1 0; norm_layer dim; activation]
                ++ (if use_dropout then [Dropout (1 # 2)] else [])
                ++ [ReflectionPad2d 1; Conv2d dim dim 3 1 0; norm_layer dim] |}
        /\ ResnetBlock_init dim "replicate" norm_layer activation use_dropout =
           Ok {| rb_conv_block :=
                   [ReplicationPad2d 1; Conv2d dim dim 3 1 0; norm_layer dim; activation]
                   ++ (if use_dropout then [Dropout (1 # 2)] else [])
                   ++ [ReplicationPad2d 1; Conv2d dim dim 3 1 0; norm_layer dim] |}
        /\ ResnetBlock_init dim "zero" norm_layer activation use_dropout =
           Ok {| rb_conv_block :=
                   [Conv2d dim dim 3 1 1; norm_layer dim; activation]
                   ++ (if use_dropout then [Dropout (1 # 2)] else [])
                   ++ [Conv2d dim dim 3 1 1; norm_layer dim] |}).
Proof.
  intros dim padding_type nl activation use_dropout.
  split; [| intros _; repeat split; destruct use_dropout; reflexivity].
  intros H1 H2 H3.
  apply String.eqb_neq in H1. apply String.eqb_neq in H2. apply String.eqb_neq in H3.
  unfold ResnetBlock_init, build_conv_block. rewrite H1, H2, H3. reflexivity.
Qed.

Lemma ResnetBlock_padding_type_checked_witness :
  ResnetBlock_init 64 "circular" (fun c => BatchNorm2d c true) (ReLU true) false =
    Raise (NotImplementedError "padding [circular] is not implemented")
  /\ ResnetBlock_init 64 "zero" (fun c => BatchNorm2d c true) (ReLU true) false =
     Ok {| rb_conv_block :=
             [Conv2d 64 64 3 1 1; BatchNorm2d 64 true; ReLU true;
              Conv2d 64 64 3 1 1; BatchNorm2d 64 true] |}.
Proof.
  split.
  - apply (proj1 (ResnetBlock_padding_type_checked 64 "circular"
                    (fun c => BatchNorm2d c true) (ReLU true) false));
      discriminate.
  - apply (proj2 (ResnetBlock_padding_type_checked 64 "zero"
                    (fun c => BatchNorm2d c true) (ReLU true) false)).
    lia.
Defined.

(** ** Shapes *)

Lemma Conv2d_same_shape {training : bool} (cin cout k : Z) (s : Size) :
  Z.odd k = true -> sC s = cin -> 0 < sH s -> 0 < sW s ->
  Layer_shape training (Conv2d cin cout k 1 (k / 2)) s =
  Ok {| sN := sN s; sC := cout; sH := sH s; sW := sW s |}.
Proof.
  intros Hodd HC HH HW. unfold Layer_shape, conv_out.
  assert (Hk : k = 2 * (k / 2) + 1).
  { rewrite (Z.div_mod k 2) at 1 by lia. rewrite Zmod_odd, Hodd. reflexivity. }
  replace (sC s =? cin) with true by (symmetry; apply Z.eqb_eq; exact HC).
  replace (sH s + 2 * (k / 2) <? k) with false by (symmetry; apply Z.ltb_ge; lia).
  replace (sW s + 2 * (k / 2) <? k) with false by (symmetry; apply Z.ltb_ge; lia).
  simpl. rewrite !Z.div_1_r.
  f_equal. f_equal; lia.
Qed.

Lemma ReLU_shape {training : bool} (inplace : bool) (s : Size) :
  Layer_shape training (ReLU inplace) s = Ok s.
Proof. reflexivity. Qed.

Lemma broadcast_same (s : Size) : broadcast s s = Ok s.
Proof.
  unfold broadcast, broadcast_dim. rewrite !Z.eqb_refl. destruct s; reflexivity.
Qed.

Lemma SPADE_init_inv (config_text : string) (norm_nc label_nc : Z) (spade : SPADE Layer) :
  SPADE_init config_text norm_nc label_nc = Ok spade ->
  exists m, re_search config_text = Some m
    /\ (param_free_norm spade = InstanceNorm2d norm_nc false
        \/ param_free_norm spade = BatchNorm2d norm_nc false)
    /\ mlp_shared spade =
         [Conv2d label_nc 128 (int (group2 m)) 1 (int (group2 m) / 2); ReLU false]
    /\ mlp_gamma spade = Conv2d 128 norm_nc (int (group2 m)) 1 (int (group2 m) / 2)
    /\ mlp_beta spade = Conv2d 128 norm_nc (int (group2 m)) 1 (int (group2 m) / 2).
Proof.
  unfold SPADE_init.
  destruct (startswith config_text "spade"); [| discriminate].
  destruct (re_search config_text) as [m |]; [| discriminate].
  simpl.
  destruct (String.eqb (group1 m) "instance").
  - simpl. intros [= <-]. exists m. simpl. auto 6.
  - destruct (String.eqb (group1 m) "batch"); [| discriminate].
    simpl. intros [= <-]. exists m. simpl. auto 6.
Qed.

(** The two normalizations keep the shape of a map with more than one
    value per channel, and [nn.InstanceNorm2d] refuses a map with one
    spatial element. *)
Lemma spatial_many (H W : Z) : 1 <= H -> 1 <= W -> 2 <= H \/ 2 <= W -> H * W <> 1.
Proof. nia. Qed.

Lemma batch_many (N H W : Z) : 1 <= H -> 1 <= W -> 2 <= H \/ 2 <= W -> N * H * W <> 1.
Proof.
  intros HH HW Hmany E. assert (Hprod : 2 <= H * W) by nia.
  rewrite <- Z.mul_assoc in E. destruct (Z.le_gt_cases N 0); nia.
Qed.

Lemma InstanceNorm2d_shape {training : bool} (c N C H W : Z) :
  H * W <> 1 ->
  Layer_shape training (InstanceNorm2d c false) {| sN := N; sC := C; sH := H; sW := W |} =
  Ok {| sN := N; sC := C; sH := H; sW := W |}.
Proof.
  intros Hmany. unfold Layer_shape. cbn [andb sH sW].
  apply Z.eqb_neq in Hmany. rewrite Hmany. reflexivity.
Qed.

Lemma InstanceNorm2d_single {training : bool} (c N C H W : Z) :
  H * W = 1 ->
  Layer_shape training (InstanceNorm2d c false) {| sN := N; sC := C; sH := H; sW := W |} =
  Raise (ValueError "Expected more than 1 spatial element when training").
Proof.
  intros Hone. unfold Layer_shape. cbn [andb sH sW].
  apply Z.eqb_eq in Hone. rewrite Hone. reflexivity.
Qed.

Lemma BatchNorm2d_shape {training : bool} (c N H W : Z) (affine : bool) :
  (training = true -> N * H * W <> 1) ->
  Layer_shape training (BatchNorm2d c affine) {| sN := N; sC := c; sH := H; sW := W |} =
  Ok {| sN := N; sC := c; sH := H; sW := W |}.
Proof.
  intros Hmany. unfold Layer_shape. cbn [sN sC sH sW]. rewrite Z.eqb_refl.
  destruct training; cbn [andb negb]; [| reflexivity].
  specialize (Hmany eq_refl). apply Z.eqb_neq in Hmany. rewrite Hmany. reflexivity.
Qed.

Lemma SPADE_forward_shape {training : bool} (spade : SPADE Layer)
    (norm_nc label_nc ks N H W N' H' W' : Z) :
  Layer_shape training (param_free_norm spade) {| sN := N; sC := norm_nc; sH := H; sW := W |} =
    Ok {| sN := N; sC := norm_nc; sH := H; sW := W |} ->
  mlp_shared spade = [Conv2d label_nc 128 ks 1 (ks / 2); ReLU false] ->
  mlp_gamma spade = Conv2d 128 norm_nc ks 1 (ks / 2) ->
  mlp_beta spade = Conv2d 128 norm_nc ks 1 (ks / 2) ->
  Z.odd ks = true -> 0 < H -> 0 < W -> N' = N \/ N' = 1 ->
  SPADE_forward (fw := ShapeFW training) spade
    {| sN := N; sC := norm_nc; sH := H; sW := W |}
    {| sN := N'; sC := label_nc; sH := H'; sW := W' |} tt =
  Ok ({| sN := N; sC := norm_nc; sH := H; sW := W |}, tt).
Proof.
  intros Hnorm Hshared Hgamma Hbeta Hodd HH HW HN.
  set (x := {| sN := N; sC := norm_nc; sH := H; sW := W |}).
  unfold SPADE_forward. change (layer (ShapeFW training)) with Layer.
  rewrite Hshared, Hgamma, Hbeta.
  assert (Hn : call (ShapeFW training) (param_free_norm spade) x tt = Ok (x, tt)).
  { cbn [call ShapeFW]. unfold st_lift. fold x in Hnorm. rewrite Hnorm. reflexivity. }
  cbn [Sequential call F_interpolate size_hw t_mul t_add scalar_add ShapeFW] in *.
  unfold st_bind, st_lift, st_ret in *. rewrite Hn.
  cbv beta iota. cbn [fst snd sH sW x].
  rewrite (Conv2d_same_shape label_nc 128) by (simpl; auto).
  cbv beta iota. rewrite ReLU_shape. cbv beta iota.
  rewrite (Conv2d_same_shape 128 norm_nc) by (simpl; auto).
  cbv beta iota. cbn [sN sC sH sW].
  assert (Hb : broadcast x {| sN := N'; sC := norm_nc; sH := H; sW := W |} = Ok x).
  { unfold broadcast, broadcast_dim, x. cbn [sN sC sH sW]. rewrite !Z.eqb_refl.
    destruct HN as [-> | ->].
    - rewrite Z.eqb_refl. reflexivity.
    - destruct (N =? 1) eqn:E; [apply Z.eqb_eq in E; subst; reflexivity |].
      simpl. reflexivity. }
  rewrite Hb. cbv beta iota. rewrite Hb. reflexivity.
Qed.

(** The parameter-free normalization of a constructed SPADE module keeps
    the shape of a map it accepts. *)
Lemma param_free_norm_shape {training : bool} (spade : SPADE Layer) (norm_nc N H W : Z) :
  (param_free_norm spade = InstanceNorm2d norm_nc false
   \/ param_free_norm spade = BatchNorm2d norm_nc false) ->
  (param_free_norm spade = InstanceNorm2d norm_nc false -> 1 < H * W) ->
  (param_free_norm spade = BatchNorm2d norm_nc false -> training = true -> 1 < N * H * W) ->
  Layer_shape training (param_free_norm spade) {| sN := N; sC := norm_nc; sH := H; sW := W |} =
  Ok {| sN := N; sC := norm_nc; sH := H; sW := W |}.
Proof.
  intros [Hnorm | Hnorm] Hinstance Hbatch; rewrite Hnorm.
  - apply InstanceNorm2d_shape. specialize (Hinstance Hnorm). lia.
  - apply BatchNorm2d_shape. intros Htrain. specialize (Hbatch Hnorm Htrain). lia.
Qed.

(** C1 (as amended).  For a SPADE module built from a configuration text
    whose kernel size is odd, for [norm_nc] feature channels and
    [label_nc] condition channels, in either mode of the network: the
    forward pass on a feature map of shape (N, norm_nc, H, W) that the
    parameter-free normalization accepts (more than one spatial element
    for [instance], more than one value per channel for [batch] in
    training mode) and a condition map of shape (N, label_nc, H', W')
    returns a tensor of the shape of the feature map. *)
Theorem SPADE_forward_preserves_shape :
  forall (training : bool) (config_text : string) (m : Match) (norm_nc label_nc : Z)
         (spade : SPADE Layer) (N H W H' W' : Z),
    SPADE_init config_text norm_nc label_nc = Ok spade ->
    re_search config_text = Some m ->
    Z.odd (int (group2 m)) = true ->
    0 < N -> 0 < H -> 0 < W -> 0 < H' -> 0 < W' ->
    (param_free_norm spade = InstanceNorm2d norm_nc false -> 1 < H * W) ->
    (param_free_norm spade = BatchNorm2d norm_nc false -> training = true -> 1 < N * H * W) ->
    let x := {| sN := N; sC := norm_nc; sH := H; sW := W |} in
    let segmap := {| sN := N; sC := label_nc; sH := H'; sW := W' |} in
    SPADE_forward (fw := ShapeFW training) spade x segmap tt = Ok (x, tt).
Proof.
  intros training config_text m norm_nc label_nc spade N H W H' W' Hinit Hm Hodd
         HN HH HW HH' HW' Hinstance Hbatch x segmap.
  destruct (SPADE_init_inv _ _ _ _ Hinit) as (m' & Hm' & Hnorm & Hshared & Hgamma & Hbeta).
  rewrite Hm in Hm'. injection Hm' as <-.
  apply (SPADE_forward_shape spade norm_nc label_nc (int (group2 m))); auto.
  apply param_free_norm_shape; assumption.
Qed.

Lemma SPADE_forward_preserves_shape_witness :
  exists spade,
    SPADE_init "spadebatch5x5" 64 3 = Ok spade
    /\ SPADE_forward (fw := ShapeFW true) spade
         {| sN := 2; sC := 64; sH := 7; sW := 9 |}
         {| sN := 2; sC := 3; sH := 32; sW := 40 |} tt =
       Ok ({| sN := 2; sC := 64; sH := 7; sW := 9 |}, tt).
Proof.
  eexists. split; [reflexivity |].
  apply (SPADE_forward_preserves_shape true "spadebatch5x5"
           {| group1 := "batch"; group2 := "5" |} 64 3 _ 2 7 9 32 40);
    first [reflexivity | discriminate | (intros; reflexivity)].
Defined.

(** On a feature map with one spatial element the instance normalization
    of the module raises, in either mode: the forward pass of
    [SPADE("spadeinstance3x3", 4, 3)] on a (1, 4, 1, 1) map returns no
    tensor of that shape. *)
Lemma SPADE_forward_single_element_counterexample :
  exists spade,
    SPADE_init "spadeinstance3x3" 4 3 = Ok spade
    /\ Z.odd (int "3") = true
    /\ SPADE_forward (fw := ShapeFW true) spade
         {| sN := 1; sC := 4; sH := 1; sW := 1 |}
         {| sN := 1; sC := 3; sH := 1; sW := 1 |} tt =
       Raise (ValueError "Expected more than 1 spatial element when training")
    /\ SPADE_forward (fw := ShapeFW false) spade
         {| sN := 1; sC := 4; sH := 1; sW := 1 |}
         {| sN := 1; sC := 3; sH := 1; sW := 1 |} tt =
       Raise (ValueError "Expected more than 1 spatial element when training")
    /\ SPADE_forward (fw := ShapeFW true) spade
         {| sN := 1; sC := 4; sH := 1; sW := 1 |}
         {| sN := 1; sC := 3; sH := 1; sW := 1 |} tt <>
       Ok ({| sN := 1; sC := 4; sH := 1; sW := 1 |}, tt).
Proof.
  eexists. split; [reflexivity |].
  split; [reflexivity |].
  split; [reflexivity |].
  split; [reflexivity |].
  discriminate.
Qed.

(** With an even kernel size the padding [ks // 2] makes gamma and beta
    two larger than the feature map, and the forward pass raises. *)
Example SPADE_forward_even_kernel :
  exists spade,
    SPADE_init "spadeinstance2x2" 64 3 = Ok spade
    /\ SPADE_forward (fw := ShapeFW true) spade
         {| sN := 1; sC := 64; sH := 8; sW := 8 |}
         {| sN := 1; sC := 3; sH := 8; sW := 8 |} tt =
       Raise (RuntimeError "The size of tensor a must match the size of tensor b").
Proof. eexists. split; reflexivity. Qed.

(** *** Shape rules of the layers the generators use *)

Lemma ReflectionPad2d_shape {training : bool} (p N C H W : Z) :
  p < H -> p < W ->
  Layer_shape training (ReflectionPad2d p) {| sN := N; sC := C; sH := H; sW := W |} =
  Ok {| sN := N; sC := C; sH := H + 2 * p; sW := W + 2 * p |}.
Proof.
  intros HH HW. unfold Layer_shape. cbn [sN sC sH sW].
  replace (p <? H) with true by (symmetry; apply Z.ltb_lt; exact HH).
  replace (p <? W) with true by (symmetry; apply Z.ltb_lt; exact HW).
  reflexivity.
Qed.

Lemma Conv2d_shape {training : bool} (cin cout k stride p N H W : Z) :
  k <= H + 2 * p -> k <= W + 2 * p ->
  Layer_shape training (Conv2d cin cout k stride p) {| sN := N; sC := cin; sH := H; sW := W |} =
  Ok {| sN := N; sC := cout; sH := conv_out H k stride p; sW := conv_out W k stride p |}.
Proof.
  intros HH HW. unfold Layer_shape. cbn [sN sC sH sW].
  rewrite Z.eqb_refl.
  replace (H + 2 * p <? k) with false by (symmetry; apply Z.ltb_ge; exact HH).
  replace (W + 2 * p <? k) with false by (symmetry; apply Z.ltb_ge; exact HW).
  reflexivity.
Qed.

Lemma ConvTranspose2d_shape {training : bool} (cin cout k stride p op N H W : Z) :
  Layer_shape training (ConvTranspose2d cin cout k stride p op)
    {| sN := N; sC := cin; sH := H; sW := W |} =
  Ok {| sN := N; sC := cout;
        sH := conv_transpose_out H k stride p op;
        sW := conv_transpose_out W k stride p op |}.
Proof.
  unfold Layer_shape. cbn [sN sC sH sW]. rewrite Z.eqb_refl. reflexivity.
Qed.

Lemma norm_layer_shape {training : bool} (c N C H W : Z) :
  1 <= H -> 1 <= W -> 2 <= H \/ 2 <= W ->
  Layer_shape training (norm_layer c) {| sN := N; sC := C; sH := H; sW := W |} =
  Ok {| sN := N; sC := C; sH := H; sW := W |}.
Proof.
  intros HH HW Hmany. apply InstanceNorm2d_shape. apply spatial_many; assumption.
Qed.

Lemma norm_layer_single {training : bool} (c N C : Z) :
  Layer_shape training (norm_layer c) {| sN := N; sC := C; sH := 1; sW := 1 |} =
  Raise (ValueError "Expected more than 1 spatial element when training").
Proof. apply InstanceNorm2d_single. reflexivity. Qed.

(** The sizes a normalization meets are sizes of convolutions. *)
Ltac size_side :=
  unfold conv_out, conv_transpose_out; Z.div_mod_to_equations; lia.

Lemma Sigmoid_shape {training : bool} (s : Size) : Layer_shape training Sigmoid s = Ok s.
Proof. reflexivity. Qed.

(** One step of a forward pass at shapes: expose the next layer, apply
    its rule, continue. *)
Ltac shape_run :=
  cbn [Sequential for_each call t_add ShapeFW];
  unfold st_bind, st_lift, st_ret;
  repeat (cbv beta iota;
          first [ rewrite ReflectionPad2d_shape by lia
                | rewrite Conv2d_shape by lia
                | rewrite ConvTranspose2d_shape
                | rewrite norm_layer_shape by size_side
                | rewrite ReLU_shape
                | rewrite Sigmoid_shape
                | rewrite broadcast_same ]).

Lemma conv_out_7 (H : Z) : conv_out (H + 2 * 3) 7 1 0 = H.
Proof. unfold conv_out. rewrite Z.div_1_r. lia. Qed.

Lemma conv_out_3 (H : Z) : conv_out (H + 2 * 1) 3 1 0 = H.
Proof. unfold conv_out. rewrite Z.div_1_r. lia. Qed.

Lemma conv_out_down (H : Z) : conv_out H 3 2 1 = (H + 1) / 2.
Proof. unfold conv_out. Z.div_mod_to_equations. lia. Qed.

Lemma conv_out_down2 (H : Z) : (( H + 1) / 2 + 1) / 2 = (H + 3) / 4.
Proof. Z.div_mod_to_equations. lia. Qed.

Lemma conv_transpose_out_up (H : Z) : conv_transpose_out H 3 2 1 1 = 2 * H.
Proof. unfold conv_transpose_out. lia. Qed.

(** The stem [model0] of both generators. *)
Lemma model0_shape {training : bool} (input_nc N H W : Z) :
  4 <= H -> 4 <= W ->
  Sequential (fw := ShapeFW training)
    [ReflectionPad2d 3; Conv2d input_nc 64 7 1 0; norm_layer 64; ReLU true]
    {| sN := N; sC := input_nc; sH := H; sW := W |} tt =
  Ok ({| sN := N; sC := 64; sH := H; sW := W |}, tt).
Proof.
  intros HH HW. shape_run. rewrite !conv_out_7. reflexivity.
Qed.

(** The two stride-2 convolutions [model1]: each takes H to ceil(H/2). *)
Lemma model1_shape {training : bool} (N H W : Z) :
  1 <= H -> 1 <= W -> 5 <= H \/ 5 <= W ->
  Sequential (fw := ShapeFW training)
    [Conv2d 64 128 3 2 1; norm_layer 128; ReLU true;
     Conv2d 128 256 3 2 1; norm_layer 256; ReLU true]
    {| sN := N; sC := 64; sH := H; sW := W |} tt =
  Ok ({| sN := N; sC := 256; sH := (H + 3) / 4; sW := (W + 3) / 4 |}, tt).
Proof.
  intros HH HW Hmany. shape_run.
  cbv beta iota. rewrite !conv_out_down.
  rewrite Conv2d_shape by (Z.div_mod_to_equations; lia).
  shape_run. rewrite !conv_out_down, !conv_out_down2. reflexivity.
Qed.

Lemma ResidualBlock_shape {training : bool} (c N H W : Z) :
  2 <= H -> 2 <= W ->
  ResidualBlock_forward (fw := ShapeFW training) (ResidualBlock_init c)
    {| sN := N; sC := c; sH := H; sW := W |} tt =
  Ok ({| sN := N; sC := c; sH := H; sW := W |}, tt).
Proof.
  intros HH HW. unfold ResidualBlock_forward, ResidualBlock_init. cbn [conv_block].
  shape_run. rewrite !conv_out_3. shape_run. rewrite !conv_out_3. shape_run.
  reflexivity.
Qed.

Lemma for_range_push {X : Type} (r : result X) (b : X) (n : nat) (acc : list X) :
  r = Ok b ->
  for_range n (fun model => rbind r (fun b => Ok (model ++ [b]))) acc =
  Ok (acc ++ repeat b n).
Proof.
  intros ->. revert acc. induction n as [| n IH]; intros acc; simpl.
  - rewrite app_nil_r. reflexivity.
  - rewrite IH, <- app_assoc. reflexivity.
Qed.

Lemma for_range_append {X : Type} (b : X) (n : nat) (acc : list X) :
  for_range n (fun model => Ok (model ++ [b])) acc = Ok (acc ++ repeat b n).
Proof.
  exact (for_range_push (Ok b) b n acc eq_refl).
Qed.

Lemma for_each_repeat_fixed {fw : Framework} {X : Type}
    (f : X -> tensor fw -> M (world fw) (tensor fw)) (b : X) (x : tensor fw)
    (w : world fw) (n : nat) :
  f b x w = Ok (x, w) ->
  for_each f (repeat b n) x w = Ok (x, w).
Proof.
  intros Hf. induction n as [| n IH]; simpl.
  - reflexivity.
  - unfold st_bind. rewrite Hf. exact IH.
Qed.

(** The two transposed convolutions [model3] of [Generator]: each doubles
    the spatial size. *)
Lemma model3_shape {training : bool} (N H W : Z) :
  1 <= H -> 1 <= W ->
  Sequential (fw := ShapeFW training)
    [ConvTranspose2d 256 128 3 2 1 1; norm_layer 128; ReLU true;
     ConvTranspose2d 128 64 3 2 1 1; norm_layer 64; ReLU true]
    {| sN := N; sC := 256; sH := H; sW := W |} tt =
  Ok ({| sN := N; sC := 64; sH := 4 * H; sW := 4 * W |}, tt).
Proof.
  intros HH HW. shape_run. rewrite !conv_transpose_out_up. do 2 f_equal. f_equal; lia.
Qed.

Lemma model4_shape {training : bool} (output_nc N H W : Z) (sigmoid : bool) :
  4 <= H -> 4 <= W ->
  Sequential (fw := ShapeFW training)
    (if sigmoid then [ReflectionPad2d 3; Conv2d 64 output_nc 7 1 0; Sigmoid]
     else [ReflectionPad2d 3; Conv2d 64 output_nc 7 1 0])
    {| sN := N; sC := 64; sH := H; sW := W |} tt =
  Ok ({| sN := N; sC := output_nc; sH := H; sW := W |}, tt).
Proof.
  intros HH HW. destruct sigmoid; cbn [app]; shape_run; rewrite !conv_out_7;
    shape_run; reflexivity.
Qed.

(** What [Generator.__init__] builds. *)
Lemma Generator_init_eq (input_nc output_nc n_residual_blocks : Z) (sigmoid : bool) :
  Generator_init input_nc output_nc n_residual_blocks sigmoid =
  Ok {| g_model0 := [ReflectionPad2d 3; Conv2d input_nc 64 7 1 0; norm_layer 64; ReLU true];
        g_model1 := [Conv2d 64 128 3 2 1; norm_layer 128; ReLU true;
                     Conv2d 128 256 3 2 1; norm_layer 256; ReLU true];
        g_model2 := repeat (ResidualBlock_init 256) (range n_residual_blocks);
        g_model3 := [ConvTranspose2d 256 128 3 2 1 1; norm_layer 128; ReLU true;
                     ConvTranspose2d 128 64 3 2 1 1; norm_layer 64; ReLU true];
        g_model4 := if sigmoid
                    then [ReflectionPad2d 3; Conv2d 64 output_nc 7 1 0; Sigmoid]
                    else [ReflectionPad2d 3; Conv2d 64 output_nc 7 1 0] |}.
Proof.
  unfold Generator_init.
  change (for_range (range 2) downsampling_body ([], 64, 64 * 2))
    with (Ok ([Conv2d 64 128 3 2 1; norm_layer 128; ReLU true;
               Conv2d 128 256 3 2 1; norm_layer 256; ReLU true], 256, 512)).
  cbn [rbind].
  rewrite for_range_append. reflexivity.
Qed.

Lemma Generator_forward_shape {training : bool} (input_nc output_nc n_residual_blocks : Z)
    (sigmoid : bool)
    (g : Generator Layer) (N H W : Z) :
  Generator_init input_nc output_nc n_residual_blocks sigmoid = Ok g ->
  5 <= H -> 5 <= W ->
  Generator_forward (fw := ShapeFW training) g {| sN := N; sC := input_nc; sH := H; sW := W |} tt =
  Ok ({| sN := N; sC := output_nc; sH := generator_out H; sW := generator_out W |}, tt).
Proof.
  rewrite Generator_init_eq. intros [= <-] HH HW.
  unfold Generator_forward. cbn [g_model0 g_model1 g_model2 g_model3 g_model4].
  unfold st_bind at 1. change (layer (ShapeFW training)) with Layer.
  rewrite model0_shape by lia.
  unfold st_bind at 1. rewrite model1_shape by lia.
  unfold st_bind at 1.
  rewrite for_each_repeat_fixed
    by (apply ResidualBlock_shape; Z.div_mod_to_equations; lia).
  unfold st_bind at 1. rewrite model3_shape by (Z.div_mod_to_equations; lia).
  unfold st_bind at 1.
  rewrite model4_shape by (Z.div_mod_to_equations; lia).
  reflexivity.
Qed.

Lemma SPADE_init_3x3 (norm_nc : Z) :
  SPADE_init "spadeinstance3x3" norm_nc 3 = Ok (spade3x3 norm_nc).
Proof. reflexivity. Qed.

Lemma SPADEResidualBlock_init_eq (in_features : Z) :
  SPADEResidualBlock_init in_features = Ok (spade_block in_features).
Proof. reflexivity. Qed.

Lemma spade3x3_shape {training : bool} (c N H W N' H' W' : Z) :
  0 < H -> 0 < W -> 2 <= H \/ 2 <= W -> N' = N \/ N' = 1 ->
  SPADE_forward (fw := ShapeFW training) (spade3x3 c)
    {| sN := N; sC := c; sH := H; sW := W |}
    {| sN := N'; sC := 3; sH := H'; sW := W' |} tt =
  Ok ({| sN := N; sC := c; sH := H; sW := W |}, tt).
Proof.
  intros HH HW Hmany HN.
  apply (SPADE_forward_shape (spade3x3 c) c 3 3); auto.
  apply InstanceNorm2d_shape. apply spatial_many; lia.
Qed.

Ltac spade_run :=
  shape_run;
  repeat (first [ rewrite conv_out_3
                | rewrite conv_transpose_out_up
                | rewrite spade3x3_shape by (auto; lia) ];
          shape_run).

Lemma SPADEResidualBlock_shape {training : bool} (c N H W N' H' W' : Z) :
  2 <= H -> 2 <= W -> N' = N \/ N' = 1 ->
  SPADEResidualBlock_forward (fw := ShapeFW training) (spade_block c)
    {| sN := N; sC := c; sH := H; sW := W |}
    {| sN := N'; sC := 3; sH := H'; sW := W' |} tt =
  Ok ({| sN := N; sC := c; sH := H; sW := W |}, tt).
Proof.
  intros HH HW HN. unfold SPADEResidualBlock_forward, spade_block.
  cbn [conv_block0 conv_block1 norm_layer0 norm_layer1].
  spade_run. reflexivity.
Qed.

(** The up-sampling stages [model3] of [SPADEGenerator]. *)
Lemma sg_model3_shape {training : bool} (N H W N' H' W' : Z) :
  0 < H -> 0 < W -> N' = N \/ N' = 1 ->
  for_each (fw := ShapeFW training)
    (fun m out =>
       match m with
       | UpSPADE m => SPADE_forward m out {| sN := N'; sC := 3; sH := H'; sW := W' |}
       | UpLayer m => call (ShapeFW training) m out
       end)
    [UpLayer (ConvTranspose2d 256 128 3 2 1 1); UpSPADE (spade3x3 128); UpLayer (ReLU true);
     UpLayer (ConvTranspose2d 128 64 3 2 1 1); UpSPADE (spade3x3 64); UpLayer (ReLU true)]
    {| sN := N; sC := 256; sH := H; sW := W |} tt =
  Ok ({| sN := N; sC := 64; sH := 4 * H; sW := 4 * W |}, tt).
Proof.
  intros HH HW HN. spade_run. do 2 f_equal. f_equal; lia.
Qed.

(** What [SPADEGenerator.__init__] builds. *)
Lemma SPADEGenerator_init_eq (input_nc output_nc n_residual_blocks : Z) (sigmoid : bool) :
  SPADEGenerator_init input_nc output_nc n_residual_blocks sigmoid =
  Ok {| sg_model0 := [ReflectionPad2d 3; Conv2d input_nc 64 7 1 0; norm_layer 64; ReLU true];
        sg_model1 := [Conv2d 64 128 3 2 1; norm_layer 128; ReLU true;
                      Conv2d 128 256 3 2 1; norm_layer 256; ReLU true];
        sg_model2 := repeat (spade_block 256) (range n_residual_blocks);
        sg_model3 := [UpLayer (ConvTranspose2d 256 128 3 2 1 1); UpSPADE (spade3x3 128);
                      UpLayer (ReLU true);
                      UpLayer (ConvTranspose2d 128 64 3 2 1 1); UpSPADE (spade3x3 64);
                      UpLayer (ReLU true)];
        sg_model4 := if sigmoid
                     then [ReflectionPad2d 3; Conv2d 64 output_nc 7 1 0; Sigmoid]
                     else [ReflectionPad2d 3; Conv2d 64 output_nc 7 1 0] |}.
Proof.
  unfold SPADEGenerator_init.
  change (for_range (range 2) downsampling_body ([], 64, 64 * 2))
    with (Ok ([Conv2d 64 128 3 2 1; norm_layer 128; ReLU true;
               Conv2d 128 256 3 2 1; norm_layer 256; ReLU true], 256, 512)).
  cbn [rbind].
  rewrite (for_range_push (SPADEResidualBlock_init 256) (spade_block 256)
             (range n_residual_blocks) [] (SPADEResidualBlock_init_eq 256)).
  destruct sigmoid; reflexivity.
Qed.

Lemma condition_by_sign_shape {training : bool} (depth : Size) (sign : Z) :
  condition_by_sign (fw := ShapeFW training) depth sign tt = Ok (depth, tt).
Proof.
  unfold condition_by_sign, st_bind, st_ret. cbn [torch_rand mul_scalar ShapeFW].
  destruct (sign =? 0); [reflexivity |].
  destruct (sign =? 1); [reflexivity |].
  destruct (sign =? 2); reflexivity.
Qed.

Lemma SPADEGenerator_forward_shape {training : bool} (input_nc output_nc n_residual_blocks : Z)
    (sigmoid : bool)
    (g : SPADEGenerator Layer) (N H W H' W' sign : Z) :
  SPADEGenerator_init input_nc output_nc n_residual_blocks sigmoid = Ok g ->
  5 <= H -> 5 <= W ->
  SPADEGenerator_forward (fw := ShapeFW training) g
    {| sN := N; sC := input_nc; sH := H; sW := W |}
    {| sN := N; sC := 3; sH := H'; sW := W' |} sign tt =
  Ok ({| sN := N; sC := output_nc; sH := generator_out H; sW := generator_out W |}, tt).
Proof.
  rewrite SPADEGenerator_init_eq. intros [= <-] HH HW.
  unfold SPADEGenerator_forward. unfold st_bind at 1. rewrite condition_by_sign_shape.
  unfold SPADEGenerator_body.
  cbn [sg_model0 sg_model1 sg_model2 sg_model3 sg_model4].
  unfold st_bind at 1. change (layer (ShapeFW training)) with Layer.
  rewrite model0_shape by lia.
  unfold st_bind at 1. rewrite model1_shape by lia.
  unfold st_bind at 1.
  rewrite for_each_repeat_fixed
    by (apply SPADEResidualBlock_shape; auto; Z.div_mod_to_equations; lia).
  unfold st_bind at 1.
  rewrite sg_model3_shape by (auto; Z.div_mod_to_equations; lia).
  unfold st_bind at 1.
  rewrite model4_shape by (Z.div_mod_to_equations; lia).
  reflexivity.
Qed.

(** C7 (as amended).  For every input whose height and width are multiples
    of 4 and at least 8, [Generator.forward] and [SPADEGenerator.forward]
    (two stride-2 convolutions down, two stride-2 transposed convolutions
    up, any number of residual blocks, any [sign], either mode of the
    network) return an output of the height and width of the input.  The
    generators are the ones the constructors build for channel counts
    that are not negative. *)
Theorem generators_preserve_resolution :
  forall (training : bool) (input_nc output_nc n_residual_blocks : Z) (sigmoid : bool)
         (N H W H' W' sign : Z),
    0 <= input_nc -> 0 <= output_nc ->
    0 < N -> 0 < H' -> 0 < W' ->
    H mod 4 = 0 -> W mod 4 = 0 -> 8 <= H -> 8 <= W ->
    (exists g, Generator_init input_nc output_nc n_residual_blocks sigmoid = Ok g
       /\ Generator_forward (fw := ShapeFW training) g
            {| sN := N; sC := input_nc; sH := H; sW := W |} tt =
          Ok ({| sN := N; sC := output_nc; sH := H; sW := W |}, tt))
    /\ (exists g, SPADEGenerator_init input_nc output_nc n_residual_blocks sigmoid = Ok g
          /\ SPADEGenerator_forward (fw := ShapeFW training) g
               {| sN := N; sC := input_nc; sH := H; sW := W |}
               {| sN := N; sC := 3; sH := H'; sW := W' |} sign tt =
             Ok ({| sN := N; sC := output_nc; sH := H; sW := W |}, tt)).
Proof.
  intros training input_nc output_nc n sigmoid N H W H' W' sign _ _ _ _ _ H4 W4 HH HW.
  assert (EH : generator_out H = H)
    by (unfold generator_out; Z.div_mod_to_equations; lia).
  assert (EW : generator_out W = W)
    by (unfold generator_out; Z.div_mod_to_equations; lia).
  split.
  - eexists. split; [apply Generator_init_eq |].
    rewrite (Generator_forward_shape input_nc output_nc n sigmoid)
      by (try apply Generator_init_eq; lia).
    rewrite EH, EW. reflexivity.
  - eexists. split; [apply SPADEGenerator_init_eq |].
    rewrite (SPADEGenerator_forward_shape input_nc output_nc n sigmoid)
      by (try apply SPADEGenerator_init_eq; lia).
    rewrite EH, EW. reflexivity.
Qed.

Lemma generators_preserve_resolution_witness :
  (exists g, Generator_init 3 1 9 true = Ok g
     /\ Generator_forward (fw := ShapeFW true) g
          {| sN := 1; sC := 3; sH := 256; sW := 512 |} tt =
        Ok ({| sN := 1; sC := 1; sH := 256; sW := 512 |}, tt))
  /\ (exists g, SPADEGenerator_init 3 1 9 true = Ok g
        /\ SPADEGenerator_forward (fw := ShapeFW true) g
             {| sN := 1; sC := 3; sH := 256; sW := 512 |}
             {| sN := 1; sC := 3; sH := 64; sW := 64 |} 0 tt =
           Ok ({| sN := 1; sC := 1; sH := 256; sW := 512 |}, tt)).
Proof.
  apply (generators_preserve_resolution true 3 1 9 true 1 256 512 64 64 0);
    first [reflexivity | lia].
Defined.

(** An even size that is not a multiple of 4 comes out 2 larger: a 6 x 6
    input gives an 8 x 8 output, and no minimum size repairs it. *)
Lemma generators_even_resolution_counterexample :
  (exists g, Generator_init 3 1 9 true = Ok g
     /\ Generator_forward (fw := ShapeFW true) g
          {| sN := 1; sC := 3; sH := 6; sW := 6 |} tt =
        Ok ({| sN := 1; sC := 1; sH := 8; sW := 8 |}, tt))
  /\ (exists g, SPADEGenerator_init 3 1 9 true = Ok g
        /\ SPADEGenerator_forward (fw := ShapeFW true) g
             {| sN := 1; sC := 3; sH := 6; sW := 6 |}
             {| sN := 1; sC := 3; sH := 6; sW := 6 |} 1 tt =
           Ok ({| sN := 1; sC := 1; sH := 8; sW := 8 |}, tt))
  /\ ~ (exists Hmin : Z,
          forall (H W : Z) (g : Generator Layer),
            Hmin <= H -> Hmin <= W -> Z.even H = true -> Z.even W = true ->
            Generator_init 3 1 9 true = Ok g ->
            exists out, Generator_forward (fw := ShapeFW true) g
                          {| sN := 1; sC := 3; sH := H; sW := W |} tt = Ok (out, tt)
                        /\ sH out = H /\ sW out = W).
Proof.
  split; [| split].
  - eexists. split; [apply Generator_init_eq |].
    apply (Generator_forward_shape 3 1 9 true); [apply Generator_init_eq | lia | lia].
  - eexists. split; [apply SPADEGenerator_init_eq |].
    apply (SPADEGenerator_forward_shape 3 1 9 true);
      [apply SPADEGenerator_init_eq | lia | lia].
  - intros [Hmin Hall].
    set (k := Z.max Hmin 1).
    assert (Heven : Z.even (4 * k + 2) = true).
    { replace (4 * k + 2) with (2 * (2 * k + 1)) by lia. apply Z.even_mul. }
    destruct (Hall (4 * k + 2) (4 * k + 2) _ ltac:(lia) ltac:(lia) Heven Heven
                (Generator_init_eq 3 1 9 true)) as (out & Hout & HoutH & _).
    rewrite (Generator_forward_shape 3 1 9 true) in Hout
      by (try apply Generator_init_eq; lia).
    injection Hout as <-. cbn [sH] in HoutH.
    unfold generator_out in HoutH. Z.div_mod_to_equations. lia.
Qed.

(** *** [GlobalGenerator2]: the stages labelled "downsample" *)

Lemma for_range_extends {S X : Type} (proj : S -> list X) (body : S -> result S) :
  (forall s s', body s = Ok s' -> exists suffix, proj s' = proj s ++ suffix) ->
  forall (n : nat) (s s' : S),
    for_range n body s = Ok s' -> exists suffix, proj s' = proj s ++ suffix.
Proof.
  intros Hbody n. induction n as [| n IH]; intros s s' Hrun; simpl in Hrun.
  - injection Hrun as <-. exists []. rewrite app_nil_r. reflexivity.
  - destruct (body s) as [s1 |] eqn:E; [| discriminate]. simpl in Hrun.
    destruct (Hbody _ _ E) as [suf1 H1].
    destruct (IH _ _ Hrun) as [suf2 H2].
    exists (suf1 ++ suf2). rewrite H2, H1, app_assoc. reflexivity.
Qed.

Lemma downsample_loop (ngf : Z) (nl : Z -> Layer) (act : Layer) (n : nat)
    (model : list (GModule Layer)) (mult : Z) :
  exists mult',
    for_range n (downsample_body ngf nl act) (model, mult) =
    Ok (model ++ down_stages ngf nl act n mult, mult').
Proof.
  revert model mult. induction n as [| n IH]; intros model mult.
  - exists mult. simpl. rewrite app_nil_r. reflexivity.
  - destruct (IH (model ++ [GLayer (ConvTranspose2d (ngf * mult) (ngf * mult / 2) 4 2 1 0);
                            GLayer (nl (ngf * mult / 2)); GLayer act]) (mult / 2))
      as [mult' Hrun].
    exists mult'. cbn [for_range downsample_body rbind down_stages].
    rewrite Hrun, <- app_assoc. reflexivity.
Qed.

Lemma down_stages_nth (ngf : Z) (nl : Z -> Layer) (act : Layer) (n i : nat) (mult : Z) :
  (i < n)%nat ->
  nth_error (down_stages ngf nl act n mult) (3 * i) =
  Some (GLayer (ConvTranspose2d (ngf * (mult / 2 ^ Z.of_nat i))
                                (ngf * (mult / 2 ^ Z.of_nat i) / 2) 4 2 1 0)).
Proof.
  revert i mult. induction n as [| n IH]; intros i mult Hi; [lia |].
  destruct i as [| i].
  - simpl. rewrite Z.div_1_r. reflexivity.
  - replace (3 * S i)%nat with (3 + 3 * i)%nat by lia.
    cbn [down_stages app nth_error Nat.add].
    rewrite IH by lia.
    replace (2 ^ Z.of_nat (S i)) with (2 * 2 ^ Z.of_nat i)
      by (rewrite Nat2Z.inj_succ, Z.pow_succ_r by lia; reflexivity).
    rewrite Z.div_div by (try apply Z.pow_pos_nonneg; lia).
    reflexivity.
Qed.

Lemma down_stages_length (ngf : Z) (nl : Z -> Layer) (act : Layer) (n : nat) (mult : Z) :
  length (down_stages ngf nl act n mult) = (3 * n)%nat.
Proof.
  revert mult. induction n as [| n IH]; intros mult; simpl; [reflexivity |].
  rewrite IH. lia.
Qed.

(** The model of a constructed [GlobalGenerator2] starts with the four
    stem layers and the layers of the downsampling loop. *)
Lemma GlobalGenerator2_init_prefix (input_nc output_nc ngf n_downsampling n_blocks : Z)
    (nl : Z -> Layer) (padding_type : string) (use_sig : bool) (n_UPsampling : Z)
    (g : GlobalGenerator2 Layer) :
  GlobalGenerator2_init input_nc output_nc ngf n_downsampling n_blocks nl padding_type
    use_sig n_UPsampling = Ok g ->
  exists rest,
    gg_model g =
    ([GLayer (ReflectionPad2d 4); GLayer (Conv2d input_nc (ngf * 8) 7 1 0);
      GLayer (nl (ngf * 8)); GLayer (ReLU true)]
     ++ down_stages ngf nl (ReLU true) (range n_downsampling) 8) ++ rest.
Proof.
  unfold GlobalGenerator2_init.
  destruct (assert (n_blocks >=? 0)); [| discriminate]. cbn [rbind].
  destruct (downsample_loop ngf nl (ReLU true) (range n_downsampling)
              [GLayer (ReflectionPad2d 4); GLayer (Conv2d input_nc (ngf * 8) 7 1 0);
               GLayer (nl (ngf * 8)); GLayer (ReLU true)] 8) as [mult Hdown].
  rewrite Hdown. cbn [rbind].
  set (prefix := _ ++ down_stages _ _ _ _ _).
  destruct (for_range (range n_blocks) _ prefix) as [model1 |] eqn:Hres; [| discriminate].
  cbn [rbind].
  assert (H1 : exists suf1, model1 = prefix ++ suf1).
  { revert Hres. apply (for_range_extends (fun m : list (GModule Layer) => m)).
    intros s s' Hb.
    destruct (ResnetBlock_init (ngf * mult) padding_type nl (ReLU true) false);
      simpl in Hb; [injection Hb as <-; eexists; reflexivity | discriminate]. }
  destruct H1 as [suf1 H1].
  destruct (for_range _ _ (model1, mult)) as [[model2 mult2] |] eqn:Hup; [| discriminate].
  cbn [rbind].
  assert (H2 : exists suf2, fst (model2, mult2) = fst (model1, mult) ++ suf2).
  { revert Hup. apply (for_range_extends (fun st : list (GModule Layer) * Z => fst st)).
    intros [m0 k0] s' Hb. unfold upsample_body in Hb.
    destruct (k0 / 2 =? 0); simpl in Hb; injection Hb as <-; eexists; reflexivity. }
  destruct H2 as [suf2 H2].
  cbn [fst] in H2. subst model2 model1.
  intros [= <-]. cbn [gg_model].
  destruct use_sig; rewrite <- !app_assoc; eexists; reflexivity.
Qed.

(** C6 (as amended).  In a constructed [GlobalGenerator2], stage [i] of the
    [n_downsampling] stages labelled "downsample" is the transposed
    convolution from [ngf * mult] to [ngf * mult // 2] channels (kernel 4,
    stride 2, padding 1), where [mult] is 8 halved [i] times; it halves
    the channel count and doubles the height and the width. *)
Theorem GlobalGenerator2_downsample_stage :
  forall (training : bool)
         (input_nc output_nc ngf n_downsampling n_blocks : Z) (nl : Z -> Layer)
         (padding_type : string) (use_sig : bool) (n_UPsampling : Z)
         (g : GlobalGenerator2 Layer) (i : Z),
    GlobalGenerator2_init input_nc output_nc ngf n_downsampling n_blocks nl padding_type
      use_sig n_UPsampling = Ok g ->
    0 <= i < n_downsampling ->
    let mult := 8 / 2 ^ i in
    let stage := ConvTranspose2d (ngf * mult) (ngf * mult / 2) 4 2 1 0 in
    nth_error (gg_model g) (Z.to_nat (4 + 3 * i)) = Some (GLayer stage)
    /\ forall N H W : Z,
         Layer_shape training stage {| sN := N; sC := ngf * mult; sH := H; sW := W |} =
         Ok {| sN := N; sC := ngf * mult / 2; sH := 2 * H; sW := 2 * W |}.
Proof.
  intros training input_nc output_nc ngf n_downsampling n_blocks nl padding_type use_sig
         n_UPsampling g i Hinit Hi mult stage.
  split.
  - destruct (GlobalGenerator2_init_prefix _ _ _ _ _ _ _ _ _ _ Hinit) as [rest ->].
    assert (Hlt : (Z.to_nat i < range n_downsampling)%nat) by (unfold range; lia).
    rewrite nth_error_app1
      by (rewrite length_app, down_stages_length; cbn [length]; unfold range in *; lia).
    replace (Z.to_nat (4 + 3 * i)) with (4 + 3 * Z.to_nat i)%nat by lia.
    cbn [app nth_error Nat.add].
    rewrite (down_stages_nth ngf nl (ReLU true) _ _ 8 Hlt).
    rewrite Z2Nat.id by lia. reflexivity.
  - intros N H W. unfold stage. rewrite ConvTranspose2d_shape.
    unfold conv_transpose_out. do 2 f_equal; lia.
Qed.

Lemma GlobalGenerator2_downsample_stage_witness :
  exists g,
    GlobalGenerator2_init 3 1 64 3 9 (fun c => BatchNorm2d c true) "reflect" false 0 = Ok g
    /\ nth_error (gg_model g) 7 = Some (GLayer (ConvTranspose2d 256 128 4 2 1 0))
    /\ Layer_shape true (ConvTranspose2d 256 128 4 2 1 0)
         {| sN := 1; sC := 256; sH := 32; sW := 48 |} =
       Ok {| sN := 1; sC := 128; sH := 64; sW := 96 |}.
Proof.
  eexists. split; [reflexivity |].
  destruct (GlobalGenerator2_downsample_stage true 3 1 64 3 9 (fun c => BatchNorm2d c true)
              "reflect" false 0 _ 1 eq_refl ltac:(lia)) as [Hnth Hshape].
  split; [exact Hnth | exact (Hshape 1 32 48)].
Defined.

(** The first "downsample" stage of the default [GlobalGenerator2] takes a
    4 x 4 map of 512 channels to an 8 x 8 map of 256 channels: the spatial
    size does not stay as it is. *)
Lemma GlobalGenerator2_downsample_counterexample :
  exists (g : GlobalGenerator2 Layer) (stage : Layer) (out : Size),
    GlobalGenerator2_init 3 1 64 3 9 (fun c => BatchNorm2d c true) "reflect" false 0 = Ok g
    /\ nth_error (gg_model g) 4 = Some (GLayer stage)
    /\ Layer_shape true stage {| sN := 1; sC := 512; sH := 4; sW := 4 |} = Ok out
    /\ sC out = 256 /\ sH out = 8 /\ sW out = 8
    /\ ~ (sH out = 4 /\ sW out = 4).
Proof.
  eexists. eexists. eexists.
  split; [reflexivity |].
  split; [reflexivity |].
  split; [reflexivity |].
  cbn. repeat split; try reflexivity. intros [H _]. discriminate H.
Qed.

(** ** Residual blocks *)

Lemma skip_connection_exact (fw : Framework)
    (forward path : tensor fw -> M (world fw) (tensor fw)) :
  skip_connection fw forward path ->
  sub_cancels_add fw ->
  exact_difference fw forward path.
Proof.
  intros Hskip Hcancel x w out w' Hrun.
  rewrite Hskip in Hrun. unfold st_bind, st_lift in Hrun.
  destruct (path x w) as [[f w1] |] eqn:Hpath; [| discriminate].
  destruct (t_add fw x f) as [out1 |] eqn:Hadd; [| discriminate].
  injection Hrun as <- <-.
  exists f. split; [reflexivity |]. split; [exact Hadd |].
  intros Hsize. exact (Hcancel x f out1 Hsize Hadd).
Qed.

Lemma ResidualBlock_skip (fw : Framework) (self : ResidualBlock (layer fw)) :
  skip_connection fw (ResidualBlock_forward self) (Sequential (conv_block self)).
Proof. intros x w. reflexivity. Qed.

Lemma SPADEResidualBlock_skip (fw : Framework) (self : SPADEResidualBlock (layer fw))
    (depth : tensor fw) :
  skip_connection fw (fun x => SPADEResidualBlock_forward self x depth)
                     (fun x => SPADEResidualBlock_path self x depth).
Proof.
  intros x w. unfold SPADEResidualBlock_forward, SPADEResidualBlock_path, st_bind.
  destruct (Sequential (conv_block0 self) x w) as [[o1 w1] |]; [| reflexivity].
  destruct (SPADE_forward (norm_layer0 self) o1 depth w1) as [[o2 w2] |]; [| reflexivity].
  destruct (Sequential (conv_block1 self) o2 w2) as [[o3 w3] |]; reflexivity.
Qed.

Lemma ResnetBlock_skip (fw : Framework) (self : ResnetBlock (layer fw)) :
  skip_connection fw (ResnetBlock_forward self) (Sequential (rb_conv_block self)).
Proof.
  intros x w. unfold ResnetBlock_forward, st_bind, st_lift, st_ret.
  destruct (Sequential (rb_conv_block self) x w) as [[f w1] |]; [| reflexivity].
  destruct (t_add fw x f); reflexivity.
Qed.

(** The plain block that [ResidualBlock.__init__] builds has the path
    pad, convolution, normalization, activation, pad, convolution,
    normalization. *)
Lemma ResidualBlock_init_path (in_features : Z) :
  conv_block (ResidualBlock_init in_features) =
  [ReflectionPad2d 1; Conv2d in_features in_features 3 1 0; InstanceNorm2d in_features false;
   ReLU true;
   ReflectionPad2d 1; Conv2d in_features in_features 3 1 0; InstanceNorm2d in_features false].
Proof. reflexivity. Qed.

(** C3 (as amended).  In every framework, each residual block returns the
    sum of its input and of what its convolutional path computes from it:
    [ResidualBlock] and [ResnetBlock] with the path [conv_block],
    [SPADEResidualBlock] with the path convolution, SPADE, convolution,
    SPADE on [x] and [depth].  In a framework whose subtraction undoes its
    addition on tensors of one size, output minus input is then exactly
    the value of the path. *)
Theorem residual_blocks_skip_connection :
  forall fw : Framework,
    ((forall self : ResidualBlock (layer fw),
        skip_connection fw (ResidualBlock_forward self) (Sequential (conv_block self)))
     /\ (forall (self : SPADEResidualBlock (layer fw)) (depth : tensor fw),
           skip_connection fw (fun x => SPADEResidualBlock_forward self x depth)
                              (fun x => SPADEResidualBlock_path self x depth))
     /\ (forall self : ResnetBlock (layer fw),
           skip_connection fw (ResnetBlock_forward self) (Sequential (rb_conv_block self))))
    /\ (sub_cancels_add fw ->
        (forall self : ResidualBlock (layer fw),
           exact_difference fw (ResidualBlock_forward self) (Sequential (conv_block self)))
        /\ (forall (self : SPADEResidualBlock (layer fw)) (depth : tensor fw),
              exact_difference fw (fun x => SPADEResidualBlock_forward self x depth)
                                  (fun x => SPADEResidualBlock_path self x depth))
        /\ (forall self : ResnetBlock (layer fw),
              exact_difference fw (ResnetBlock_forward self)
                                  (Sequential (rb_conv_block self)))).
Proof.
  intros fw. split.
  - split; [| split].
    + apply ResidualBlock_skip.
    + apply SPADEResidualBlock_skip.
    + apply ResnetBlock_skip.
  - intros Hcancel. split; [| split]; intros.
    + apply skip_connection_exact; [apply ResidualBlock_skip | exact Hcancel].
    + apply skip_connection_exact; [apply SPADEResidualBlock_skip | exact Hcancel].
    + apply skip_connection_exact; [apply ResnetBlock_skip | exact Hcancel].
Qed.

Lemma zip_with_length {R : Type} (f : R -> R -> R) (a b : list R) :
  length a = length b -> length (zip_with f a b) = length a.
Proof.
  revert b. induction a as [| x a IH]; intros [| y b] Hlen; simpl in *;
    try reflexivity; try discriminate.
  f_equal. apply IH. lia.
Qed.

Lemma zip_with_sub_add (a b : list Z) :
  length a = length b -> zip_with Z.sub (zip_with Z.add a b) a = b.
Proof.
  revert b. induction a as [| x a IH]; intros [| y b] Hlen; simpl in *;
    try reflexivity; try discriminate.
  f_equal; [lia | apply IH; lia].
Qed.

(** Integer rows: subtraction undoes addition. *)
Lemma ZRowFW_sub_cancels_add : sub_cancels_add ZRowFW.
Proof.
  intros a b c Hsize Hadd. cbn in a, b, c, Hsize, Hadd |- *.
  assert (Hlen : length a = length b) by (injection Hsize; lia).
  unfold pointwise in *.
  rewrite (proj2 (Nat.eqb_eq _ _) Hlen) in Hadd. injection Hadd as <-.
  rewrite zip_with_length by exact Hlen. rewrite Nat.eqb_refl.
  rewrite zip_with_sub_add by exact Hlen. reflexivity.
Qed.

Lemma residual_blocks_skip_connection_witness :
  exists f,
    Sequential (fw := ZRowFW) (conv_block Z_residual_block) [5; 7; -2] 0%nat = Ok (f, 0%nat)
    /\ t_add ZRowFW [5; 7; -2] f = Ok [4; -1; -3]
    /\ (size_hw ZRowFW [5; 7; -2] = size_hw ZRowFW f ->
        t_sub ZRowFW [4; -1; -3] [5; 7; -2] = Ok f).
Proof.
  exact (proj1 (proj2 (residual_blocks_skip_connection ZRowFW) ZRowFW_sub_cancels_add)
           Z_residual_block [5; 7; -2] 0%nat [4; -1; -3] 0%nat eq_refl).
Defined.

(** On binary32 rows the difference is not exact: for the input (1, 1)
    the path of [f32_spade_block] gives (2^-30, 2^-30), the block returns
    (1, 1), and output minus input is (0, 0). *)
Lemma residual_difference_counterexample :
  let x := [f32_of_Z 1; f32_of_Z 1] in
  let depth := [f32_of_Z 1; f32_of_Z 1] in
  exists out f,
    SPADEResidualBlock_forward (fw := F32RowFW) f32_spade_block x depth 0%nat = Ok (out, 0%nat)
    /\ SPADEResidualBlock_path (fw := F32RowFW) f32_spade_block x depth 0%nat = Ok (f, 0%nat)
    /\ f = [f32_tiny; f32_tiny]
    /\ size_hw F32RowFW x = size_hw F32RowFW f
    /\ t_sub F32RowFW out x = Ok [f32_of_Z 0; f32_of_Z 0]
    /\ t_sub F32RowFW out x <> Ok f.
Proof.
  eexists. eexists.
  split; [vm_compute; reflexivity |].
  split; [vm_compute; reflexivity |].
  split; [vm_compute; reflexivity |].
  split; [vm_compute; reflexivity |].
  split; [vm_compute; reflexivity |].
  vm_compute. discriminate.
Qed.

(** ** The [sign] argument of [SPADEGenerator.forward] *)

Lemma Qfloor_rand (u : Q) :
  (0 <= u)%Q -> (u < 1)%Q -> Qfloor (u * 2) = 0 \/ Qfloor (u * 2) = 1.
Proof.
  intros H0 H1.
  assert (Hlo : Qfloor 0 <= Qfloor (u * 2)) by (apply Qfloor_resp_le; lra).
  assert (Hhi : (inject_Z (Qfloor (u * 2)) < inject_Z 2)%Q).
  { apply Qle_lt_trans with (u * 2)%Q; [apply Qfloor_le |].
    change (inject_Z 2) with 2%Q. lra. }
  rewrite <- Zlt_Qlt in Hhi. change (Qfloor 0) with 0 in Hlo. lia.
Qed.

(** The selection draws once, whatever [sign] is, and returns the condition
    map the rest of the forward pass uses. *)
Lemma condition_by_sign_eq (fw : Framework) (depth : tensor fw) (sign : Z) (w : world fw) :
  condition_by_sign depth sign w =
  Ok (if sign =? 0 then mul_scalar fw depth (Qfloor (fst (torch_rand fw w) * 2))
      else if sign =? 1 then depth
      else if sign =? 2 then mul_scalar fw depth 0
      else depth,
      snd (torch_rand fw w)).
Proof.
  unfold condition_by_sign, st_bind, st_ret.
  destruct (torch_rand fw w) as [u w1]. cbn [fst snd].
  destruct (sign =? 0); [reflexivity |].
  destruct (sign =? 1); [reflexivity |].
  destruct (sign =? 2); reflexivity.
Qed.

Lemma SPADEGenerator_forward_eq (fw : Framework) (self : SPADEGenerator (layer fw))
    (x depth : tensor fw) (sign : Z) (w : world fw) :
  SPADEGenerator_forward self x depth sign w =
  SPADEGenerator_body self x
    (if sign =? 0 then mul_scalar fw depth (Qfloor (fst (torch_rand fw w) * 2))
     else if sign =? 1 then depth
     else if sign =? 2 then mul_scalar fw depth 0
     else depth)
    (snd (torch_rand fw w)).
Proof.
  unfold SPADEGenerator_forward, st_bind. rewrite condition_by_sign_eq. reflexivity.
Qed.

(** The three modes as the code has them.  With a random source that
    draws from [0, 1): mode 0 multiplies the whole condition map by one
    number, 0 or 1, the floor of twice the one draw of the forward pass;
    mode 1 uses the condition map as it is; mode 2 multiplies it by 0.
    Where that product is the tensor [zeros_like] gives, the mode-2
    output is the mode-1 output on the zero tensor. *)
Theorem SPADEGenerator_forward_modes :
  forall (fw : Framework) (self : SPADEGenerator (layer fw)) (x depth : tensor fw)
         (w : world fw),
    (0 <= fst (torch_rand fw w))%Q -> (fst (torch_rand fw w) < 1)%Q ->
    let b := Qfloor (fst (torch_rand fw w) * 2) in
    let w1 := snd (torch_rand fw w) in
    (b = 0 \/ b = 1)
    /\ condition_by_sign depth 0 w = Ok (mul_scalar fw depth b, w1)
    /\ condition_by_sign depth 1 w = Ok (depth, w1)
    /\ condition_by_sign depth 2 w = Ok (mul_scalar fw depth 0, w1)
    /\ SPADEGenerator_forward self x depth 0 w =
       SPADEGenerator_body self x (mul_scalar fw depth b) w1
    /\ SPADEGenerator_forward self x depth 1 w = SPADEGenerator_body self x depth w1
    /\ SPADEGenerator_forward self x depth 2 w =
       SPADEGenerator_body self x (mul_scalar fw depth 0) w1
    /\ (mul_scalar fw depth 0 = zeros_like fw depth ->
        SPADEGenerator_forward self x depth 2 w =
        SPADEGenerator_forward self x (zeros_like fw depth) 1 w).
Proof.
  intros fw self x depth w H0 H1 b w1.
  split; [apply Qfloor_rand; assumption |].
  rewrite !condition_by_sign_eq, !SPADEGenerator_forward_eq. cbn [Z.eqb Pos.eqb].
  repeat split. intros ->. reflexivity.
Qed.

Lemma SPADEGenerator_forward_modes_witness :
  SPADEGenerator_forward (fw := ZRowFW) Z_generator [1; 2] [3; -4] 0 2%nat =
    SPADEGenerator_body (fw := ZRowFW) Z_generator [1; 2] [3; -4] 3%nat
  /\ SPADEGenerator_forward (fw := ZRowFW) Z_generator [1; 2] [3; -4] 2 2%nat =
     SPADEGenerator_forward (fw := ZRowFW) Z_generator [1; 2] [0; 0] 1 2%nat.
Proof.
  pose proof (SPADEGenerator_forward_modes ZRowFW Z_generator [1; 2] [3; -4] 2%nat
                ltac:(discriminate) ltac:(reflexivity)) as H.
  split.
  - exact (proj1 (proj2 (proj2 (proj2 (proj2 H))))).
  - exact (proj2 (proj2 (proj2 (proj2 (proj2 (proj2 (proj2 H)))))) eq_refl).
Defined.

(** C2.  Mode 2 does not force the condition map to zero: line 172 is
    [depth = depth * 0] under the comment "depth is zero tensor".  On
    binary32 rows, with the condition map (+inf, 1), mode 2 hands
    (NaN, 0) to the rest of the forward pass, which is not the zero
    tensor, and the output of [f32_generator] is (NaN, NaN), where mode 1
    on the zero tensor gives (1, 1). *)
Lemma zero_mode_keeps_nan :
  let depth := [S754_infinity false; f32_of_Z 1] in
  let x := [f32_of_Z 1; f32_of_Z 1] in
  condition_by_sign (fw := F32RowFW) depth 2 0%nat = Ok ([S754_nan; S754_zero false], 1%nat)
  /\ zeros_like F32RowFW depth = [S754_zero false; S754_zero false]
  /\ [S754_nan; S754_zero false] <> zeros_like F32RowFW depth
  /\ SPADEGenerator_forward (fw := F32RowFW) f32_generator x depth 2 0%nat =
     Ok ([S754_nan; S754_nan], 1%nat)
  /\ SPADEGenerator_forward (fw := F32RowFW) f32_generator x (zeros_like F32RowFW depth) 1 0%nat =
     Ok ([f32_of_Z 1; f32_of_Z 1], 1%nat)
  /\ SPADEGenerator_forward (fw := F32RowFW) f32_generator x depth 2 0%nat <>
     SPADEGenerator_forward (fw := F32RowFW) f32_generator x (zeros_like F32RowFW depth) 1 0%nat.
Proof.
  split; [vm_compute; reflexivity |].
  split; [vm_compute; reflexivity |].
  split; [vm_compute; discriminate |].
  split; [vm_compute; reflexivity |].
  split; [vm_compute; reflexivity |].
  vm_compute. discriminate.
Qed.

(** C10.  For a [sign] other than 0, 1 and 2 the selection raises nothing and
    returns the condition map as it is, after the one draw; the forward
    pass is the one for [sign = 1]. *)
Theorem SPADEGenerator_forward_other_sign :
  forall (fw : Framework) (self : SPADEGenerator (layer fw)) (x depth : tensor fw)
         (sign : Z) (w : world fw),
    sign <> 0 -> sign <> 1 -> sign <> 2 ->
    condition_by_sign depth sign w = Ok (depth, snd (torch_rand fw w))
    /\ SPADEGenerator_forward self x depth sign w = SPADEGenerator_forward self x depth 1 w.
Proof.
  intros fw self x depth sign w H0 H1 H2.
  rewrite condition_by_sign_eq, !SPADEGenerator_forward_eq.
  apply Z.eqb_neq in H0. apply Z.eqb_neq in H1. apply Z.eqb_neq in H2.
  rewrite H0, H1, H2. split; reflexivity.
Qed.

Lemma SPADEGenerator_forward_other_sign_witness :
  condition_by_sign (fw := ZRowFW) [3; -4] 7 2%nat = Ok ([3; -4], 3%nat)
  /\ SPADEGenerator_forward (fw := ZRowFW) Z_generator [1; 2] [3; -4] 7 2%nat =
     SPADEGenerator_forward (fw := ZRowFW) Z_generator [1; 2] [3; -4] 1 2%nat.
Proof.
  apply (SPADEGenerator_forward_other_sign ZRowFW Z_generator [1; 2] [3; -4] 7 2%nat);
    discriminate.
Defined.

(** ** [InceptionV3] *)

Section InceptionV3_properties.

Context {tensor world module : Type}.
Variable call_module : module -> tensor -> M world tensor.
Variable F_max_pool2d : tensor -> Z -> Z -> M world tensor.
Variable F_adaptive_avg_pool2d : tensor -> Z * Z -> M world tensor.
Variable F_dropout : tensor -> bool -> M world tensor.
Variable torch_flatten : tensor -> Z -> M world tensor.

Local Abbreviation forward :=
  (InceptionV3_forward call_module F_max_pool2d F_adaptive_avg_pool2d F_dropout torch_flatten).
Local Abbreviation features :=
  (features_Mixed_6b call_module F_max_pool2d).

(** Two continuations that agree on the first output give passes that
    agree on it. *)
Lemma first_output_bind {A : Type} (m : M world A)
    (k1 k2 : A -> M world (tensor * option tensor)) (w : world) :
  (forall a w', first_output (k1 a w') = first_output (k2 a w')) ->
  first_output (st_bind m k1 w) = first_output (st_bind m k2 w).
Proof.
  intros Hk. unfold st_bind. destruct (m w) as [[a w'] |]; [apply Hk | reflexivity].
Qed.

Lemma forward_first_output (self : InceptionV3 (module := module)) (x : tensor) (w : world) :
  first_output (forward (with_every_feat true self) x w) =
  first_output (forward (with_every_feat false self) x w).
Proof.
  unfold InceptionV3_forward, with_every_feat.
  cbn [every_feat model_ft isTrain use_aux].
  repeat (apply first_output_bind; intros ? ?).
  reflexivity.
Qed.

Lemma st_bind_ok {A B : Type} (m : M world A) (k : A -> M world B) (w : world)
    (r : B * world) :
  st_bind m k w = Ok r -> exists a w1, m w = Ok (a, w1) /\ k a w1 = Ok r.
Proof.
  unfold st_bind. destruct (m w) as [[a w1] |]; [| discriminate].
  intros Hk. exists a, w1. split; [reflexivity | exact Hk].
Qed.

(** Split a successful pass into its successful steps. *)
Ltac split_pass Hrun :=
  repeat (let a := fresh "t" in
          let w1 := fresh "w" in
          let Hstep := fresh "Hstep" in
          apply st_bind_ok in Hrun; destruct Hrun as (a & w1 & Hstep & Hrun)).

Lemma forward_second_feat (self : InceptionV3 (module := module)) (x : tensor) (w : world)
    (logits : tensor) (second : option tensor) (w' : world) :
  forward (with_every_feat true self) x w = Ok (logits, second, w') ->
  exists feat21 w21, features self x w = Ok (feat21, w21) /\ second = Some feat21.
Proof.
  unfold InceptionV3_forward, features_Mixed_6b, with_every_feat.
  cbn [every_feat model_ft isTrain use_aux].
  intros Hrun. split_pass Hrun.
  injection Hrun as _ <- _.
  eexists. eexists. split; [| reflexivity].
  unfold st_bind.
  repeat match goal with
         | H : ?m = Ok _ |- context [?m] => rewrite H
         end.
  reflexivity.
Qed.

Lemma forward_second_aux (self : InceptionV3 (module := module)) (x : tensor) (w : world)
    (logits : tensor) (second : option tensor) (w' : world) :
  forward (with_every_feat false self) x w = Ok (logits, second, w') ->
  if isTrain self && use_aux self
  then exists t w0 aux w1,
         call_module (AuxLogits (model_ft self)) t w0 = Ok (aux, w1) /\ second = Some aux
  else second = None.
Proof.
  unfold InceptionV3_forward, with_every_feat.
  cbn [every_feat model_ft isTrain use_aux].
  intros Hrun. split_pass Hrun.
  injection Hrun as _ <- _.
  destruct (isTrain self && use_aux self); cbv iota in *.
  - match goal with
    | H : st_bind _ _ _ = Ok (_, _) |- _ =>
        apply st_bind_ok in H; destruct H as (aux & wa & Haux & Hret)
    end.
    injection Hret as <- _.
    do 4 eexists. split; [exact Haux | reflexivity].
  - match goal with
    | H : st_ret None _ = Ok (_, _) |- _ => injection H as <- _
    end.
    reflexivity.
Qed.

(** C8.  For the same input, sub-modules and state, the logits that
    [InceptionV3.forward] returns, the state it leaves and the error it
    raises are the same with [every_feat] set and unset; with the flag set
    the second tensor is the output of [Mixed_6b], otherwise it is the
    output of [AuxLogits] when [isTrain and use_aux], and [None] when
    not. *)
Theorem every_feat_keeps_logits :
  forall (self : InceptionV3 (module := module)) (x : tensor) (w : world),
    first_output (forward (with_every_feat true self) x w) =
    first_output (forward (with_every_feat false self) x w)
    /\ (forall logits second w',
          forward (with_every_feat true self) x w = Ok (logits, second, w') ->
          exists feat21 w21, features self x w = Ok (feat21, w21) /\ second = Some feat21)
    /\ (forall logits second w',
          forward (with_every_feat false self) x w = Ok (logits, second, w') ->
          if isTrain self && use_aux self
          then exists t w0 aux w1,
                 call_module (AuxLogits (model_ft self)) t w0 = Ok (aux, w1)
                 /\ second = Some aux
          else second = None).
Proof.
  intros self x w. split; [apply forward_first_output |].
  split; intros logits second w' Hrun.
  - exact (forward_second_feat self x w logits second w' Hrun).
  - exact (forward_second_aux self x w logits second w' Hrun).
Qed.

End InceptionV3_properties.

Lemma every_feat_keeps_logits_witness :
  first_output (InceptionV3_forward Z_call Z_pool Z_avg_pool Z_dropout Z_flatten
                  (with_every_feat true Z_inception) 5 3%nat) =
  first_output (InceptionV3_forward Z_call Z_pool Z_avg_pool Z_dropout Z_flatten
                  (with_every_feat false Z_inception) 5 3%nat)
  /\ (exists feat21 w21,
        features_Mixed_6b Z_call Z_pool Z_inception 5 3%nat = Ok (feat21, w21)
        /\ Some 15 = Some feat21)
  /\ (exists t w0 aux w1, Z_call Z.opp t w0 = Ok (aux, w1) /\ Some (-18) = Some aux).
Proof.
  destruct (every_feat_keeps_logits Z_call Z_pool Z_avg_pool Z_dropout Z_flatten
              Z_inception 5 3%nat) as (H1 & H2 & H3).
  split; [exact H1 |].
  split.
  - exact (H2 126 (Some 15) 4%nat eq_refl).
  - exact (H3 126 (Some (-18)) 4%nat eq_refl).
Defined.

(** ** The freezing rule *)

Lemma freeze_child_lookup (params : list param) (heap : gmap positive bool) (p : param) :
  freeze_child params heap !! p = if decide (p ∈ params) then Some false else heap !! p.
Proof.
  unfold freeze_child. revert heap.
  induction params as [| q params IH]; intros heap; cbn [fold_left].
  - destruct (decide (p ∈ [])) as [Hin | _]; [inversion Hin | reflexivity].
  - rewrite IH.
    destruct (decide (p ∈ params)) as [Hin | Hnin].
    + rewrite decide_True by (right; exact Hin). reflexivity.
    + destruct (decide (p = q)) as [-> | Hne].
      * rewrite decide_True by left. apply lookup_insert_eq.
      * rewrite decide_False by (intros Hin; apply elem_of_cons in Hin; tauto).
        apply lookup_insert_ne. congruence.
Qed.

(** The loop from a counter [stop]: the children still below 17 are the
    first [17 - stop] of the remaining ones. *)
Lemma freeze_steps_lookup (children : list (list param)) (heap : gmap positive bool)
    (stop : Z) (p : param) :
  0 <= stop ->
  fst (fold_left freeze_step children (heap, stop)) !! p =
  if decide (p ∈ concat (take (Z.to_nat (17 - stop)) children))
  then Some false else heap !! p.
Proof.
  revert heap stop. induction children as [| child children IH]; intros heap stop Hstop.
  - cbn [fold_left fst]. rewrite take_nil. cbn [concat].
    destruct (decide (p ∈ [])) as [Hin | _]; [inversion Hin | reflexivity].
  - cbn [fold_left freeze_step]. rewrite IH by lia.
    destruct (stop <? 17) eqn:Hlt.
    + apply Z.ltb_lt in Hlt.
      replace (Z.to_nat (17 - stop)) with (S (Z.to_nat (17 - (stop + 1)))) by lia.
      cbn [take concat]. rewrite freeze_child_lookup.
      destruct (decide (p ∈ concat (take (Z.to_nat (17 - (stop + 1))) children)))
        as [Hin | Hnin].
      * rewrite decide_True by (apply elem_of_app; right; exact Hin). reflexivity.
      * destruct (decide (p ∈ child)) as [Hc | Hnc].
        -- rewrite decide_True by (apply elem_of_app; left; exact Hc). reflexivity.
        -- rewrite decide_False by (intros Hin; apply elem_of_app in Hin; tauto).
           reflexivity.
    + apply Z.ltb_ge in Hlt.
      replace (Z.to_nat (17 - (stop + 1))) with 0%nat by lia.
      replace (Z.to_nat (17 - stop)) with 0%nat by lia.
      reflexivity.
Qed.

(** C9.  With [freeze] and [pretrain] both set, after the rule the flag of
    a parameter is [False] when it belongs to one of the first 17 children
    and is what it was before otherwise; in particular a parameter of a
    later child that no earlier child shares keeps its flag.  With
    [freeze] or [pretrain] unset the rule changes no flag. *)
Theorem freeze_rule_first_17 :
  forall (freeze pretrain : bool) (children : list (list param))
         (heap : gmap positive bool),
    (freeze = true -> pretrain = true ->
       (forall p : param,
          freeze_rule freeze pretrain children heap !! p =
          if decide (p ∈ concat (take 17 children)) then Some false else heap !! p)
       /\ (forall (i : nat) (child : list param) (p : param),
             children !! i = Some child -> (17 <= i)%nat -> p ∈ child ->
             p ∉ concat (take 17 children) ->
             freeze_rule freeze pretrain children heap !! p = heap !! p))
    /\ (freeze = false \/ pretrain = false ->
        freeze_rule freeze pretrain children heap = heap).
Proof.
  intros freeze pretrain children heap. split.
  - intros -> ->. unfold freeze_rule. cbn [andb].
    assert (Hall : forall p : param,
               fst (fold_left freeze_step children (heap, 0)) !! p =
               if decide (p ∈ concat (take 17 children)) then Some false else heap !! p).
    { intros p. rewrite freeze_steps_lookup by lia. reflexivity. }
    split; [exact Hall |].
    intros i child p _ _ _ Hnin. rewrite Hall, decide_False by exact Hnin. reflexivity.
  - intros [-> | ->]; unfold freeze_rule; [| rewrite andb_false_r]; reflexivity.
Qed.

Lemma freeze_rule_first_17_witness :
  freeze_rule true true nineteen_children all_trainable !! 17%positive = Some false
  /\ freeze_rule true true nineteen_children all_trainable !! 18%positive = Some true
  /\ freeze_rule true false nineteen_children all_trainable = all_trainable.
Proof.
  destruct (freeze_rule_first_17 true true nineteen_children all_trainable) as [Hon _].
  destruct (Hon eq_refl eq_refl) as [Hall Hlater].
  split; [| split].
  - rewrite Hall. reflexivity.
  - transitivity (all_trainable !! 18%positive); [| reflexivity].
    apply (Hlater 17%nat [18%positive]).
    + reflexivity.
    + lia.
    + apply list_elem_of_here.
    + apply (bool_decide_eq_false_1 (18%positive ∈ concat (take 17 nineteen_children))).
      reflexivity.
  - apply (freeze_rule_first_17 true false nineteen_children all_trainable). right. reflexivity.
Defined.

(** * Further properties of the code *)

(** ** The configuration text of [SPADE.__init__] *)

Lemma append_String (c : ascii) (a b : string) :
  (String c a ++ b)%string = String c (a ++ b)%string.
Proof. reflexivity. Qed.

Lemma append_Empty (b : string) : (EmptyString ++ b)%string = b.
Proof. reflexivity. Qed.

Lemma strip_prefix_app (p s : string) : strip_prefix p (p ++ s)%string = Some s.
Proof.
  induction p as [| a p IH]; [reflexivity |].
  rewrite append_String. cbn [strip_prefix]. rewrite Ascii.eqb_refl. exact IH.
Qed.

Lemma startswith_app (p s : string) : startswith (p ++ s)%string p = true.
Proof.
  unfold startswith. induction p as [| a p IH]; [destruct s; reflexivity |].
  rewrite append_String. cbn [String.prefix].
  destruct (ascii_dec a a) as [_ | Hne]; [exact IH | congruence].
Qed.

Lemma strip_prefix_inv (p s r : string) :
  strip_prefix p s = Some r -> s = (p ++ r)%string.
Proof.
  revert s. induction p as [| a p IH]; intros s; cbn [strip_prefix].
  - intros [= ->]. reflexivity.
  - destruct s as [| b s]; [discriminate |].
    destruct (Ascii.eqb a b) eqn:E; [| discriminate].
    apply Ascii.eqb_eq in E. subst b. intros H. rewrite (IH _ H). reflexivity.
Qed.

Lemma match_ks_text (d d' : ascii) (rest : string) :
  is_digit d = true -> is_digit d' = true ->
  match_ks (ks_text d d' rest) = Some (String d EmptyString).
Proof.
  intros Hd Hd'. unfold match_ks, ks_text. rewrite Hd, Hd'. reflexivity.
Qed.

Lemma match_ks_inv (s g : string) :
  match_ks s = Some g ->
  exists d d' rest, s = ks_text d d' rest /\ is_digit d = true /\ is_digit d' = true
                    /\ g = String d EmptyString.
Proof.
  unfold match_ks.
  destruct s as [| d [| x [| d' rest]]]; try discriminate.
  destruct (is_digit d) eqn:Hd; [| discriminate].
  destruct (Ascii.eqb x "x") eqn:Hx; [| discriminate].
  destruct (is_digit d') eqn:Hd'; [| discriminate].
  apply Ascii.eqb_eq in Hx. subst x. intros [= <-].
  exists d, d', rest. auto.
Qed.

Lemma match_norm_text (norm : string) (d d' : ascii) (rest : string) :
  norm <> EmptyString -> no_digit norm = true ->
  is_digit d = true -> is_digit d' = true ->
  match_norm (norm ++ ks_text d d' rest) =
  Some {| group1 := norm; group2 := String d EmptyString |}.
Proof.
  intros Hne Hnd Hd Hd'. induction norm as [| c norm IH]; [congruence |].
  simpl in Hnd. apply andb_true_iff in Hnd as [Hc Hnd].
  apply negb_true_iff in Hc.
  rewrite append_String. cbn [match_norm]. rewrite Hc.
  destruct norm as [| c' norm].
  - rewrite append_Empty. unfold ks_text at 1. cbn [match_norm]. rewrite Hd.
    rewrite match_ks_text by assumption. reflexivity.
  - rewrite IH by (try discriminate; assumption). reflexivity.
Qed.

Lemma match_norm_inv (s : string) (m : Match) :
  match_norm s = Some m ->
  exists d d' rest,
    s = (group1 m ++ ks_text d d' rest)%string
    /\ group1 m <> EmptyString /\ no_digit (group1 m) = true
    /\ is_digit d = true /\ is_digit d' = true
    /\ group2 m = String d EmptyString.
Proof.
  revert m. induction s as [| c s IH]; intros m; cbn [match_norm]; [discriminate |].
  destruct (is_digit c) eqn:Hc; [discriminate |].
  destruct (match_norm s) as [m' |].
  - intros [= <-]. destruct (IH m' eq_refl) as (d & d' & rest & -> & _ & Hnd & Hd & Hd' & Hg).
    exists d, d', rest. rewrite ?append_String; cbn [group1 group2 no_digit].
    rewrite Hc, Hnd. repeat split; try assumption; discriminate.
  - destruct (match_ks s) as [g |] eqn:Hks; [| discriminate].
    intros [= <-].
    destruct (match_ks_inv _ _ Hks) as (d & d' & rest & -> & Hd & Hd' & ->).
    exists d, d', rest. rewrite ?append_String; cbn [group1 group2 no_digit].
    rewrite Hc. repeat split; try assumption; discriminate.
Qed.

Lemma is_digit_int (d : ascii) :
  is_digit d = true -> 0 <= int (String d EmptyString) <= 9.
Proof.
  unfold is_digit, int, int_of_digit. intros H.
  apply andb_true_iff in H as [H1 H2].
  apply Nat.leb_le in H1. apply Nat.leb_le in H2. lia.
Qed.

Lemma re_search_here (s : string) (m : Match) :
  match_here s = Some m -> re_search s = Some m.
Proof.
  intros H. destruct s; cbn [re_search]; rewrite H; reflexivity.
Qed.

(** X1.  A text that is [spade], a non-empty norm name without digits, a
    digit, [x], a digit and anything after parses to that name and to the
    first digit. *)
Theorem re_search_well_formed :
  forall (norm : string) (d d' : ascii) (rest : string),
    norm <> EmptyString -> no_digit norm = true ->
    is_digit d = true -> is_digit d' = true ->
    let config_text := ("spade" ++ norm ++ ks_text d d' rest)%string in
    startswith config_text "spade" = true
    /\ re_search config_text = Some {| group1 := norm; group2 := String d EmptyString |}.
Proof.
  intros norm d d' rest Hne Hnd Hd Hd' config_text. split.
  - apply startswith_app.
  - unfold config_text. apply re_search_here. unfold match_here.
    rewrite strip_prefix_app. apply match_norm_text; assumption.
Qed.

Lemma re_search_well_formed_witness :
  re_search "spadeinstance7x3_v2" = Some {| group1 := "instance"; group2 := "7" |}.
Proof.
  apply (re_search_well_formed "instance" "7" "3" "_v2");
    first [discriminate | reflexivity].
Defined.

Lemma re_search_inv (s : string) (m : Match) :
  re_search s = Some m ->
  exists (before : string) (d d' : ascii) (rest : string),
    s = (before ++ "spade" ++ group1 m ++ ks_text d d' rest)%string
    /\ group1 m <> EmptyString /\ no_digit (group1 m) = true
    /\ is_digit d = true /\ is_digit d' = true
    /\ group2 m = String d EmptyString
    /\ 0 <= int (group2 m) <= 9.
Proof.
  revert m. induction s as [| c s IH]; intros m.
  - cbn. discriminate.
  - cbn [re_search].
    destruct (match_here (String c s)) as [m' |] eqn:Hhere.
    + intros [= ->]. unfold match_here in Hhere.
      destruct (strip_prefix "spade" (String c s)) as [r |] eqn:Hp; [| discriminate].
      apply strip_prefix_inv in Hp.
      destruct (match_norm_inv _ _ Hhere) as (d & d' & rest & -> & Hne & Hnd & Hd & Hd' & Hg).
      exists EmptyString, d, d', rest. rewrite Hp, Hg.
      repeat split; try assumption; apply is_digit_int; assumption.
    + intros Hs. destruct (IH _ Hs) as (before & d & d' & rest & -> & H).
      exists (String c before), d, d', rest. split; [reflexivity | exact H].
Qed.


(** X2.  Whatever [re.search] finds in a text is an occurrence of [spade],
    a non-empty group without digits, one digit, [x] and one digit: the
    kernel size is that one digit, between 0 and 9, and the digit after
    [x] is not part of any group. *)
Theorem re_search_sound :
  forall (s : string) (m : Match),
    re_search s = Some m ->
    exists (before : string) (d d' : ascii) (rest : string),
      s = (before ++ "spade" ++ group1 m ++ ks_text d d' rest)%string
      /\ group1 m <> EmptyString /\ no_digit (group1 m) = true
      /\ is_digit d = true /\ is_digit d' = true
      /\ group2 m = String d EmptyString
      /\ 0 <= int (group2 m) <= 9.
Proof.
  exact re_search_inv.
Qed.

Lemma re_search_sound_witness :
  exists (before : string) (d d' : ascii) (rest : string),
    "spade3x3 spadebatch5x7" = (before ++ "spade" ++ "batch" ++ ks_text d d' rest)%string
    /\ "batch" <> EmptyString /\ no_digit "batch" = true
    /\ is_digit d = true /\ is_digit d' = true
    /\ "5" = String d EmptyString
    /\ 0 <= int "5" <= 9.
Proof.
  exact (re_search_sound "spade3x3 spadebatch5x7"
           {| group1 := "batch"; group2 := "5" |} eq_refl).
Defined.

(** X3.  The outcomes of [SPADE.__init__]: a text that does not start with
    [spade] fails the assertion; one that starts with it and holds no
    match raises [AttributeError] (on [None.group]); and the constructor
    returns only if the text starts with [spade], holds a match, and the
    matched name is [instance] or [batch]. *)
Theorem SPADE_init_outcomes :
  forall (config_text : string) (norm_nc label_nc : Z),
    (startswith config_text "spade" = false ->
     SPADE_init config_text norm_nc label_nc = Raise AssertionError)
    /\ (startswith config_text "spade" = true -> re_search config_text = None ->
        SPADE_init config_text norm_nc label_nc =
        Raise (AttributeError "'NoneType' object has no attribute 'group'"))
    /\ (forall spade, SPADE_init config_text norm_nc label_nc = Ok spade ->
        startswith config_text "spade" = true
        /\ exists m, re_search config_text = Some m
                     /\ (group1 m = "instance" \/ group1 m = "batch")).
Proof.
  intros config_text norm_nc label_nc. unfold SPADE_init.
  split; [| split].
  - intros ->. reflexivity.
  - intros -> ->. reflexivity.
  - intros spade.
    destruct (startswith config_text "spade"); [| discriminate].
    destruct (re_search config_text) as [m |]; [| discriminate].
    cbn [assert rbind group Z.eqb Pos.eqb].
    destruct (String.eqb (group1 m) "instance") eqn:Ei.
    + intros _. apply String.eqb_eq in Ei. eauto.
    + destruct (String.eqb (group1 m) "batch") eqn:Eb; [| discriminate].
      intros _. apply String.eqb_eq in Eb. eauto.
Qed.

Lemma SPADE_init_outcomes_witness :
  SPADE_init "instance3x3" 64 3 = Raise AssertionError
  /\ SPADE_init "spadeinstance13x13" 64 3 =
     Raise (AttributeError "'NoneType' object has no attribute 'group'")
  /\ (startswith "spadebatch3x3" "spade" = true
      /\ exists m, re_search "spadebatch3x3" = Some m
                   /\ (group1 m = "instance" \/ group1 m = "batch")).
Proof.
  split; [| split].
  - apply (proj1 (SPADE_init_outcomes "instance3x3" 64 3)). reflexivity.
  - apply (proj1 (proj2 (SPADE_init_outcomes "spadeinstance13x13" 64 3))); reflexivity.
  - exact (proj2 (proj2 (SPADE_init_outcomes "spadebatch3x3" 64 3)) _ eq_refl).
Defined.

Lemma append_assoc (a b c : string) : ((a ++ b) ++ c)%string = (a ++ b ++ c)%string.
Proof.
  induction a as [| x a IH]; [reflexivity |].
  rewrite !append_String, IH. reflexivity.
Qed.

Lemma startswith_app_r (s p t : string) :
  startswith s p = true -> startswith (s ++ t)%string p = true.
Proof.
  unfold startswith. revert s. induction p as [| a p IH]; intros s.
  - intros _. destruct (s ++ t)%string; reflexivity.
  - destruct s as [| b s]; [discriminate |].
    rewrite append_String. cbn [String.prefix].
    destruct (ascii_dec a b); [apply IH | discriminate].
Qed.

Lemma strip_prefix_app_r (p s r t : string) :
  strip_prefix p s = Some r -> strip_prefix p (s ++ t)%string = Some (r ++ t)%string.
Proof.
  revert s. induction p as [| a p IH]; intros s; cbn [strip_prefix].
  - intros [= ->]. reflexivity.
  - destruct s as [| b s]; [discriminate |].
    rewrite append_String. cbn [strip_prefix].
    destruct (Ascii.eqb a b); [apply IH | discriminate].
Qed.

Lemma match_ks_app (s t g : string) :
  match_ks s = Some g -> match_ks (s ++ t)%string = Some g.
Proof.
  destruct s as [| d [| x [| d' rest]]]; try discriminate.
  rewrite !append_String. exact (fun H => H).
Qed.

Lemma match_norm_app (s t : string) (m : Match) :
  match_norm s = Some m -> match_norm (s ++ t)%string = Some m.
Proof.
  revert m. induction s as [| c s IH]; intros m; [discriminate |].
  rewrite append_String. cbn [match_norm].
  destruct (is_digit c); [discriminate |].
  destruct (match_norm s) as [m' |] eqn:Hn.
  - rewrite (IH m' eq_refl). exact (fun H => H).
  - destruct (match_ks s) as [g |] eqn:Hks; [| discriminate].
    destruct (match_ks_inv _ _ Hks) as (d & d' & rest & -> & Hd & _ & _).
    replace (match_norm (ks_text d d' rest ++ t)) with (@None Match)
      by (unfold ks_text; rewrite append_String; cbn [match_norm]; rewrite Hd; reflexivity).
    rewrite (match_ks_app _ t _ Hks). exact (fun H => H).
Qed.

(** A text in which some [<d>x<d'>] occurs: what [match_norm] answers on
    it does not depend on what follows the text. *)
Lemma match_norm_None_app (r t a : string) (d d' : ascii) (rest : string) :
  r = (a ++ ks_text d d' rest)%string -> is_digit d = true ->
  match_norm r = None -> match_norm (r ++ t)%string = None.
Proof.
  intros -> Hd. induction a as [| c a IH].
  - rewrite append_Empty. unfold ks_text. rewrite !append_String.
    cbn [match_norm]. rewrite Hd. reflexivity.
  - rewrite !append_String. cbn [match_norm].
    destruct (is_digit c); [reflexivity |].
    destruct (match_norm (a ++ ks_text d d' rest)) as [m |]; [discriminate |].
    rewrite (IH eq_refl).
    destruct a as [| x [| y [| z a]]];
      rewrite ?append_String, ?append_Empty; unfold ks_text;
      rewrite ?append_String; exact (fun H => H).
Qed.

Lemma append_split_prefix (p r X Y : string) :
  (p ++ r)%string = (X ++ Y)%string -> (String.length p <= String.length X)%nat ->
  exists a, r = (a ++ Y)%string.
Proof.
  revert X. induction p as [| c p IH]; intros X.
  - rewrite append_Empty. intros -> _. exists X. reflexivity.
  - destruct X as [| x X]; cbn [String.length]; [lia |].
    rewrite !append_String. intros [= _ H] Hlen. apply (IH X H). lia.
Qed.

Lemma string_length_app (a b : string) :
  String.length (a ++ b)%string = (String.length a + String.length b)%nat.
Proof.
  induction a as [| c a IH]; [reflexivity |].
  rewrite append_String. cbn [String.length]. rewrite IH. reflexivity.
Qed.

Lemma strip_prefix_None_app (p s t : string) :
  strip_prefix p s = None -> (String.length p <= String.length s)%nat ->
  strip_prefix p (s ++ t)%string = None.
Proof.
  revert s. induction p as [| a p IH]; intros s; cbn [strip_prefix]; [discriminate |].
  destruct s as [| b s]; cbn [String.length]; [lia |].
  rewrite append_String. cbn [strip_prefix].
  destruct (Ascii.eqb a b); [| reflexivity].
  intros H Hlen. apply IH; [exact H | lia].
Qed.

Lemma re_search_app (s t : string) (m : Match) :
  re_search s = Some m -> re_search (s ++ t)%string = Some m.
Proof.
  revert m. induction s as [| c s IH]; intros m; [cbn; discriminate |].
  cbn [re_search]. destruct (match_here (String c s)) as [m' |] eqn:Hhere.
  - intros [= ->]. apply re_search_here. unfold match_here in *.
    destruct (strip_prefix "spade" (String c s)) as [r |] eqn:Hp; [| discriminate].
    rewrite (strip_prefix_app_r _ _ _ t Hp). apply match_norm_app. exact Hhere.
  - intros Hs. rewrite append_String. cbn [re_search]. rewrite <- append_String.
    assert (Hnone : match_here (String c s ++ t)%string = None).
    { destruct (re_search_inv _ _ Hs) as (before & d & d' & rest & Hdec & _ & _ & Hd & _).
      assert (Hdec' : String c s =
                      ((String c before ++ "spade" ++ group1 m) ++ ks_text d d' rest)%string).
      { rewrite Hdec, !append_assoc, append_String. reflexivity. }
      unfold match_here in *.
      destruct (strip_prefix "spade" (String c s)) as [r |] eqn:Hp.
      - rewrite (strip_prefix_app_r _ _ _ t Hp).
        pose proof (strip_prefix_inv _ _ _ Hp) as Hr. rewrite Hdec' in Hr.
        destruct (append_split_prefix "spade" r _ _ (eq_sym Hr)) as [a Ha].
        { rewrite !string_length_app. cbn [String.length]. lia. }
        exact (match_norm_None_app r t a d d' rest Ha Hd Hhere).
      - rewrite strip_prefix_None_app; [reflexivity | exact Hp |].
        rewrite Hdec', !string_length_app. cbn [String.length]. lia. }
    rewrite Hnone. rewrite (IH _ Hs). reflexivity.
Qed.

(** X4.  Text after a configuration that [SPADE.__init__] accepts changes
    nothing: the constructor returns the same module. *)
Theorem SPADE_init_ignores_trailing_text :
  forall (config_text extra : string) (norm_nc label_nc : Z) (spade : SPADE Layer),
    SPADE_init config_text norm_nc label_nc = Ok spade ->
    SPADE_init (config_text ++ extra)%string norm_nc label_nc = Ok spade.
Proof.
  intros config_text extra norm_nc label_nc spade Hinit.
  assert (Hs : startswith config_text "spade" = true).
  { unfold SPADE_init in Hinit.
    destruct (startswith config_text "spade"); [reflexivity | discriminate]. }
  destruct (SPADE_init_inv _ _ _ _ Hinit) as (m & Hm & _).
  rewrite (SPADE_init_unfold _ norm_nc label_nc m Hs Hm) in Hinit.
  rewrite (SPADE_init_unfold _ norm_nc label_nc m
             (startswith_app_r _ _ extra Hs) (re_search_app _ extra _ Hm)).
  exact Hinit.
Qed.

Lemma SPADE_init_ignores_trailing_text_witness :
  SPADE_init "spadeinstance3x3_hidden128" 64 3 =
  Ok {| param_free_norm := InstanceNorm2d 64 false;
        mlp_shared := [Conv2d 3 128 3 1 1; ReLU false];
        mlp_gamma := Conv2d 128 64 3 1 1;
        mlp_beta := Conv2d 128 64 3 1 1 |}.
Proof.
  apply (SPADE_init_ignores_trailing_text "spadeinstance3x3" "_hidden128" 64 3).
  reflexivity.
Defined.

(** X5.  For the norm names [instance] and [batch], every digit [d] and
    every digit [d'], and channel counts that are not negative, the text
    [spade<norm><d>x<d'>] followed by anything builds the module whose
    three convolutions have kernel size [d] and padding [d // 2]: the
    digit after [x] is not used. *)
Theorem SPADE_init_well_formed :
  forall (d d' : ascii) (rest : string) (norm_nc label_nc : Z),
    is_digit d = true -> is_digit d' = true ->
    0 <= norm_nc -> 0 <= label_nc ->
    let ks := int_of_digit d in
    SPADE_init ("spadeinstance" ++ ks_text d d' rest)%string norm_nc label_nc =
      Ok {| param_free_norm := InstanceNorm2d norm_nc false;
            mlp_shared := [Conv2d label_nc 128 ks 1 (ks / 2); ReLU false];
            mlp_gamma := Conv2d 128 norm_nc ks 1 (ks / 2);
            mlp_beta := Conv2d 128 norm_nc ks 1 (ks / 2) |}
    /\ SPADE_init ("spadebatch" ++ ks_text d d' rest)%string norm_nc label_nc =
      Ok {| param_free_norm := BatchNorm2d norm_nc false;
            mlp_shared := [Conv2d label_nc 128 ks 1 (ks / 2); ReLU false];
            mlp_gamma := Conv2d 128 norm_nc ks 1 (ks / 2);
            mlp_beta := Conv2d 128 norm_nc ks 1 (ks / 2) |}.
Proof.
  intros d d' rest norm_nc label_nc Hd Hd' _ _ ks.
  assert (Hparse : forall norm, norm <> EmptyString -> no_digit norm = true ->
            startswith ("spade" ++ norm ++ ks_text d d' rest)%string "spade" = true
            /\ re_search ("spade" ++ norm ++ ks_text d d' rest)%string =
               Some {| group1 := norm; group2 := String d EmptyString |}).
  { intros norm Hne Hnd. split; [apply startswith_app |].
    apply re_search_here. unfold match_here.
    rewrite strip_prefix_app. apply match_norm_text; assumption. }
  split.
  - destruct (Hparse "instance" ltac:(discriminate) eq_refl) as [Hs Hm].
    change ("spadeinstance" ++ ks_text d d' rest)%string
      with ("spade" ++ "instance" ++ ks_text d d' rest)%string.
    rewrite (SPADE_init_unfold _ norm_nc label_nc _ Hs Hm). reflexivity.
  - destruct (Hparse "batch" ltac:(discriminate) eq_refl) as [Hs Hm].
    change ("spadebatch" ++ ks_text d d' rest)%string
      with ("spade" ++ "batch" ++ ks_text d d' rest)%string.
    rewrite (SPADE_init_unfold _ norm_nc label_nc _ Hs Hm). reflexivity.
Qed.

Lemma SPADE_init_well_formed_witness :
  SPADE_init "spadebatch5x3" 64 3 =
  Ok {| param_free_norm := BatchNorm2d 64 false;
        mlp_shared := [Conv2d 3 128 5 1 2; ReLU false];
        mlp_gamma := Conv2d 128 64 5 1 2;
        mlp_beta := Conv2d 128 64 5 1 2 |}.
Proof.
  exact (proj2 (SPADE_init_well_formed "5" "3" "" 64 3 eq_refl eq_refl
                  ltac:(lia) ltac:(lia))).
Defined.

(** ** SPADE at shapes: the kernel size and the batch of the condition map *)

Lemma st_bind_Raise {W A B : Type} (m : M W A) (k : A -> M W B) (w : W) (e : exception) :
  m w = Raise e -> st_bind m k w = Raise e.
Proof. intros H. unfold st_bind. rewrite H. reflexivity. Qed.

Lemma st_bind_Ok {W A B : Type} (m : M W A) (k : A -> M W B) (w w' : W) (a : A) :
  m w = Ok (a, w') -> st_bind m k w = k a w'.
Proof. intros H. unfold st_bind. rewrite H. reflexivity. Qed.

Lemma Conv2d_even_shape {training : bool} (cin cout k N H W : Z) :
  Z.even k = true -> 0 <= k -> 0 <= H -> 0 <= W ->
  Layer_shape training (Conv2d cin cout k 1 (k / 2)) {| sN := N; sC := cin; sH := H; sW := W |} =
  Ok {| sN := N; sC := cout; sH := H + 1; sW := W + 1 |}.
Proof.
  intros Heven Hk HH HW.
  assert (Hk2 : k = 2 * (k / 2)).
  { rewrite (Z.div_mod k 2) at 1 by lia. rewrite Zmod_even, Heven. lia. }
  rewrite Conv2d_shape by lia. unfold conv_out. rewrite !Z.div_1_r.
  do 2 f_equal; lia.
Qed.

Lemma broadcast_dim_twice (a b n : Z) :
  broadcast_dim a b = Ok n -> broadcast_dim n b = Ok n.
Proof.
  unfold broadcast_dim.
  destruct (a =? b) eqn:E1.
  - apply Z.eqb_eq in E1. subst b. intros [= <-]. rewrite Z.eqb_refl. reflexivity.
  - destruct (a =? 1) eqn:E2.
    + intros [= <-]. rewrite Z.eqb_refl. reflexivity.
    + destruct (b =? 1) eqn:E3; [| discriminate].
      intros [= <-]. rewrite E1, E2. reflexivity.
Qed.

Lemma param_free_norm_many {training : bool} (spade : SPADE Layer) (norm_nc N H W : Z) :
  (param_free_norm spade = InstanceNorm2d norm_nc false
   \/ param_free_norm spade = BatchNorm2d norm_nc false) ->
  1 <= H -> 1 <= W -> 2 <= H \/ 2 <= W ->
  Layer_shape training (param_free_norm spade) {| sN := N; sC := norm_nc; sH := H; sW := W |} =
  Ok {| sN := N; sC := norm_nc; sH := H; sW := W |}.
Proof.
  intros [-> | ->] HH HW Hmany.
  - apply InstanceNorm2d_shape. apply spatial_many; assumption.
  - apply BatchNorm2d_shape. intros _. apply batch_many; assumption.
Qed.

(** X6.  A SPADE module with an even kernel size of at least 2 cannot run
    on a feature map that has a side of 2 or more: with the padding
    [ks // 2] each convolution adds 1 to the height and to the width, so
    the activation of [mlp_shared] is one larger than the feature map,
    gamma and beta are two larger, and the product raises the size
    mismatch. *)
Theorem SPADE_forward_even_kernel_raises :
  forall (training : bool) (config_text : string) (m : Match) (norm_nc label_nc : Z)
         (spade : SPADE Layer) (N H W H' W' : Z),
    SPADE_init config_text norm_nc label_nc = Ok spade ->
    re_search config_text = Some m ->
    Z.even (int (group2 m)) = true -> 2 <= int (group2 m) ->
    0 < N -> 0 < H -> 0 < W -> 2 <= H \/ 2 <= W -> 0 < H' -> 0 < W' ->
    let actv := {| sN := N; sC := 128; sH := H + 1; sW := W + 1 |} in
    let gamma := {| sN := N; sC := norm_nc; sH := H + 2; sW := W + 2 |} in
    Sequential (fw := ShapeFW training) (mlp_shared spade)
      {| sN := N; sC := label_nc; sH := H; sW := W |} tt = Ok (actv, tt)
    /\ call (ShapeFW training) (mlp_gamma spade) actv tt = Ok (gamma, tt)
    /\ call (ShapeFW training) (mlp_beta spade) actv tt = Ok (gamma, tt)
    /\ SPADE_forward (fw := ShapeFW training) spade
         {| sN := N; sC := norm_nc; sH := H; sW := W |}
         {| sN := N; sC := label_nc; sH := H'; sW := W' |} tt =
       Raise (RuntimeError "The size of tensor a must match the size of tensor b").
Proof.
  intros training config_text m norm_nc label_nc spade N H W H' W' Hinit Hm Heven Hk
         HN HH HW Hbig HH' HW' actv gamma.
  destruct (SPADE_init_inv _ _ _ _ Hinit) as (m' & Hm' & Hnorm & Hshared & Hgamma & Hbeta).
  rewrite Hm in Hm'. injection Hm' as <-.
  set (x := {| sN := N; sC := norm_nc; sH := H; sW := W |}).
  assert (Hactv : Sequential (fw := ShapeFW training) (mlp_shared spade)
                    {| sN := N; sC := label_nc; sH := H; sW := W |} tt = Ok (actv, tt)).
  { change (layer (ShapeFW training)) with Layer. rewrite Hshared.
    cbn [Sequential call ShapeFW]. unfold st_bind, st_lift, st_ret.
    rewrite Conv2d_even_shape by (first [exact Heven | lia]).
    cbv beta iota. rewrite ReLU_shape. reflexivity. }
  assert (Hconv : forall l, l = Conv2d 128 norm_nc (int (group2 m)) 1 (int (group2 m) / 2) ->
            call (ShapeFW training) l actv tt = Ok (gamma, tt)).
  { intros l ->. cbn [call ShapeFW]. unfold st_lift, actv.
    rewrite Conv2d_even_shape by (first [exact Heven | lia]).
    unfold gamma. do 3 f_equal; lia. }
  split; [exact Hactv |].
  split; [exact (Hconv _ Hgamma) |].
  split; [exact (Hconv _ Hbeta) |].
  unfold SPADE_forward.
  assert (Hn : call (ShapeFW training) (param_free_norm spade) x tt = Ok (x, tt)).
  { cbn [call ShapeFW]. unfold st_lift, x.
    rewrite (param_free_norm_many spade norm_nc N H W Hnorm) by lia. reflexivity. }
  rewrite (st_bind_Ok _ _ _ _ _ Hn).
  cbn [F_interpolate size_hw ShapeFW fst snd sN sC sH sW x].
  unfold st_bind at 1. unfold st_lift at 1. cbv beta iota.
  rewrite (st_bind_Ok _ _ _ _ _ Hactv).
  rewrite (st_bind_Ok _ _ _ _ _ (Hconv _ Hgamma)).
  rewrite (st_bind_Ok _ _ _ _ _ (Hconv _ Hbeta)).
  cbn [t_mul t_add scalar_add ShapeFW]. unfold st_bind, st_lift.
  unfold broadcast, broadcast_dim, x, gamma. cbn [sN sC sH sW rbind]. rewrite !Z.eqb_refl.
  cbn [rbind].
  destruct (H =? H + 2) eqn:E1; [apply Z.eqb_eq in E1; lia |].
  destruct (H =? 1) eqn:E2.
  - apply Z.eqb_eq in E2. cbn [rbind].
    destruct (W =? W + 2) eqn:E3; [apply Z.eqb_eq in E3; lia |].
    destruct (W =? 1) eqn:E4; [apply Z.eqb_eq in E4; lia |].
    destruct (W + 2 =? 1) eqn:E5; [apply Z.eqb_eq in E5; lia |].
    reflexivity.
  - destruct (H + 2 =? 1) eqn:E5; [apply Z.eqb_eq in E5; lia |].
    reflexivity.
Qed.

Lemma SPADE_forward_even_kernel_raises_witness :
  exists spade,
    SPADE_init "spadeinstance4x4" 64 3 = Ok spade
    /\ Sequential (fw := ShapeFW true) (mlp_shared spade)
         {| sN := 1; sC := 3; sH := 16; sW := 16 |} tt =
       Ok ({| sN := 1; sC := 128; sH := 17; sW := 17 |}, tt)
    /\ call (ShapeFW true) (mlp_gamma spade)
         {| sN := 1; sC := 128; sH := 17; sW := 17 |} tt =
       Ok ({| sN := 1; sC := 64; sH := 18; sW := 18 |}, tt)
    /\ call (ShapeFW true) (mlp_beta spade)
         {| sN := 1; sC := 128; sH := 17; sW := 17 |} tt =
       Ok ({| sN := 1; sC := 64; sH := 18; sW := 18 |}, tt)
    /\ SPADE_forward (fw := ShapeFW true) spade
         {| sN := 1; sC := 64; sH := 16; sW := 16 |}
         {| sN := 1; sC := 3; sH := 64; sW := 64 |} tt =
       Raise (RuntimeError "The size of tensor a must match the size of tensor b").
Proof.
  eexists. split; [reflexivity |].
  apply (SPADE_forward_even_kernel_raises true "spadeinstance4x4"
           {| group1 := "instance"; group2 := "4" |} 64 3 _ 1 16 16 64 64);
    first [reflexivity | lia | discriminate].
Defined.

(** X7.  With an odd kernel size, on a feature map with more than one
    spatial element, the batch sizes N of the feature map and N' of the
    condition map are broadcast: the forward pass returns
    (n, norm_nc, H, W) when N and N' are equal or one of them is 1, [n]
    being the larger, and raises the size mismatch otherwise.  The height
    and width of the condition map play no part. *)
Theorem SPADE_forward_batch_broadcast :
  forall (training : bool) (config_text : string) (m : Match) (norm_nc label_nc : Z)
         (spade : SPADE Layer) (N H W N' H' W' : Z),
    SPADE_init config_text norm_nc label_nc = Ok spade ->
    re_search config_text = Some m ->
    Z.odd (int (group2 m)) = true ->
    0 < N -> 0 < H -> 0 < W -> 2 <= H \/ 2 <= W -> 0 < N' -> 0 < H' -> 0 < W' ->
    SPADE_forward (fw := ShapeFW training) spade
      {| sN := N; sC := norm_nc; sH := H; sW := W |}
      {| sN := N'; sC := label_nc; sH := H'; sW := W' |} tt =
    match broadcast_dim N N' with
    | Ok n => Ok ({| sN := n; sC := norm_nc; sH := H; sW := W |}, tt)
    | Raise e => Raise e
    end.
Proof.
  intros training config_text m norm_nc label_nc spade N H W N' H' W' Hinit Hm Hodd
         HN HH HW Hmany HN' HH' HW'.
  destruct (SPADE_init_inv _ _ _ _ Hinit) as (m' & Hm' & Hnorm & Hshared & Hgamma & Hbeta).
  rewrite Hm in Hm'. injection Hm' as <-.
  set (x := {| sN := N; sC := norm_nc; sH := H; sW := W |}).
  unfold SPADE_forward. change (layer (ShapeFW training)) with Layer.
  rewrite Hshared, Hgamma, Hbeta.
  assert (Hn : call (ShapeFW training) (param_free_norm spade) x tt = Ok (x, tt)).
  { cbn [call ShapeFW]. unfold st_lift, x.
    rewrite (param_free_norm_many spade norm_nc N H W Hnorm) by lia. reflexivity. }
  cbn [Sequential call F_interpolate size_hw t_mul t_add scalar_add ShapeFW] in *.
  unfold st_bind, st_lift, st_ret in *. rewrite Hn.
  cbv beta iota. cbn [fst snd sH sW x].
  rewrite (Conv2d_same_shape label_nc 128) by (simpl; auto).
  cbv beta iota. rewrite ReLU_shape. cbv beta iota.
  rewrite (Conv2d_same_shape 128 norm_nc) by (simpl; auto).
  cbv beta iota. unfold x. cbn [sN sC sH sW].
  unfold broadcast at 1. cbn [sN sC sH sW].
  destruct (broadcast_dim N N') as [n |] eqn:Hb; [| reflexivity].
  cbn [rbind]. unfold broadcast_dim at 1 2 3. rewrite !Z.eqb_refl. cbn [rbind].
  unfold broadcast. cbn [sN sC sH sW].
  rewrite (broadcast_dim_twice _ _ _ Hb). cbn [rbind].
  unfold broadcast_dim. rewrite !Z.eqb_refl. reflexivity.
Qed.

Lemma SPADE_forward_batch_broadcast_witness :
  exists spade,
    SPADE_init "spadeinstance3x3" 64 3 = Ok spade
    /\ SPADE_forward (fw := ShapeFW true) spade
         {| sN := 8; sC := 64; sH := 16; sW := 16 |}
         {| sN := 1; sC := 3; sH := 5; sW := 7 |} tt =
       Ok ({| sN := 8; sC := 64; sH := 16; sW := 16 |}, tt)
    /\ SPADE_forward (fw := ShapeFW true) spade
         {| sN := 8; sC := 64; sH := 16; sW := 16 |}
         {| sN := 4; sC := 3; sH := 16; sW := 16 |} tt =
       Raise (RuntimeError "The size of tensor a must match the size of tensor b").
Proof.
  eexists. split; [reflexivity |]. split.
  - apply (SPADE_forward_batch_broadcast true "spadeinstance3x3"
             {| group1 := "instance"; group2 := "3" |} 64 3 _ 8 16 16 1 5 7);
      first [reflexivity | lia].
  - apply (SPADE_forward_batch_broadcast true "spadeinstance3x3"
             {| group1 := "instance"; group2 := "3" |} 64 3 _ 8 16 16 4 16 16);
      first [reflexivity | lia].
Defined.

(** ** The two generators at shapes: sizes and channels they accept *)

Lemma generator_out_bounds (H : Z) :
  H <= generator_out H < H + 4 /\ generator_out H mod 4 = 0.
Proof.
  unfold generator_out. split; [Z.div_mod_to_equations; lia |].
  rewrite Z.mul_comm. apply Z.mod_mul. lia.
Qed.

(** X8.  On every input of height and width at least 5, both generators
    (built for channel counts that are not negative, in either mode)
    return (N, output_nc, H', W') where H' and W' are H and W rounded up to
    the next multiple of 4; the condition map may have any height and
    width, and [sign] any value. *)
Theorem generators_output_size :
  forall (training : bool) (input_nc output_nc n_residual_blocks : Z) (sigmoid : bool)
         (N H W H' W' sign : Z),
    0 <= input_nc -> 0 <= output_nc ->
    0 < N -> 0 < H' -> 0 < W' ->
    5 <= H -> 5 <= W ->
    (exists g, Generator_init input_nc output_nc n_residual_blocks sigmoid = Ok g
       /\ Generator_forward (fw := ShapeFW training) g
            {| sN := N; sC := input_nc; sH := H; sW := W |} tt =
          Ok ({| sN := N; sC := output_nc;
                 sH := generator_out H; sW := generator_out W |}, tt))
    /\ (exists g, SPADEGenerator_init input_nc output_nc n_residual_blocks sigmoid = Ok g
          /\ SPADEGenerator_forward (fw := ShapeFW training) g
               {| sN := N; sC := input_nc; sH := H; sW := W |}
               {| sN := N; sC := 3; sH := H'; sW := W' |} sign tt =
             Ok ({| sN := N; sC := output_nc;
                    sH := generator_out H; sW := generator_out W |}, tt))
    /\ (H <= generator_out H < H + 4 /\ generator_out H mod 4 = 0)
    /\ (W <= generator_out W < W + 4 /\ generator_out W mod 4 = 0).
Proof.
  intros training input_nc output_nc n sigmoid N H W H' W' sign _ _ _ _ _ HH HW.
  split; [| split; [| split; apply generator_out_bounds]].
  - eexists. split; [apply Generator_init_eq |].
    apply (Generator_forward_shape input_nc output_nc n sigmoid);
      [apply Generator_init_eq | lia | lia].
  - eexists. split; [apply SPADEGenerator_init_eq |].
    apply (SPADEGenerator_forward_shape input_nc output_nc n sigmoid);
      [apply SPADEGenerator_init_eq | lia | lia].
Qed.

Lemma generators_output_size_witness :
  exists g, Generator_init 3 1 9 true = Ok g
    /\ Generator_forward (fw := ShapeFW true) g
         {| sN := 2; sC := 3; sH := 250; sW := 333 |} tt =
       Ok ({| sN := 2; sC := 1; sH := 252; sW := 336 |}, tt).
Proof.
  exact (proj1 (generators_output_size true 3 1 9 true 2 250 333 1 1 0
                  ltac:(lia) ltac:(lia) ltac:(lia) ltac:(lia) ltac:(lia)
                  ltac:(lia) ltac:(lia))).
Defined.

Lemma ReflectionPad2d_small {training : bool} (p N C H W : Z) :
  H <= p \/ W <= p ->
  Layer_shape training (ReflectionPad2d p) {| sN := N; sC := C; sH := H; sW := W |} =
  Raise (RuntimeError "Padding size should be less than the corresponding input dimension").
Proof.
  intros Hs. unfold Layer_shape. cbn [sH sW].
  destruct (p <? H) eqn:E1; [| reflexivity].
  destruct (p <? W) eqn:E2; [| reflexivity].
  apply Z.ltb_lt in E1. apply Z.ltb_lt in E2. lia.
Qed.

Lemma range_pos (n : Z) : 1 <= n -> range n = S (range (n - 1)).
Proof. intros Hn. unfold range. lia. Qed.

Lemma model0_small {training : bool} (input_nc N C H W : Z) :
  H <= 3 \/ W <= 3 ->
  Sequential (fw := ShapeFW training)
    [ReflectionPad2d 3; Conv2d input_nc 64 7 1 0; norm_layer 64; ReLU true]
    {| sN := N; sC := C; sH := H; sW := W |} tt =
  Raise (RuntimeError "Padding size should be less than the corresponding input dimension").
Proof.
  intros Hs. cbn [Sequential]. apply st_bind_Raise.
  cbn [call ShapeFW]. unfold st_lift. rewrite ReflectionPad2d_small by exact Hs.
  reflexivity.
Qed.

Lemma ResidualBlock_small {training : bool} (c N C H W : Z) :
  H <= 1 \/ W <= 1 ->
  ResidualBlock_forward (fw := ShapeFW training) (ResidualBlock_init c)
    {| sN := N; sC := C; sH := H; sW := W |} tt =
  Raise (RuntimeError "Padding size should be less than the corresponding input dimension").
Proof.
  intros Hs. unfold ResidualBlock_forward, ResidualBlock_init. cbn [conv_block Sequential].
  do 2 apply st_bind_Raise.
  cbn [call ShapeFW]. unfold st_lift. rewrite ReflectionPad2d_small by exact Hs.
  reflexivity.
Qed.

Lemma SPADEResidualBlock_small {training : bool} (c N C H W : Z) (depth : Size) :
  H <= 1 \/ W <= 1 ->
  SPADEResidualBlock_forward (fw := ShapeFW training) (spade_block c)
    {| sN := N; sC := C; sH := H; sW := W |} depth tt =
  Raise (RuntimeError "Padding size should be less than the corresponding input dimension").
Proof.
  intros Hs. unfold SPADEResidualBlock_forward, spade_block. cbn [conv_block0 Sequential].
  do 2 apply st_bind_Raise.
  cbn [call ShapeFW]. unfold st_lift. rewrite ReflectionPad2d_small by exact Hs.
  reflexivity.
Qed.

(** On a 4 x 4 map the second stride-2 convolution of [model1] leaves one
    pixel, which the instance normalization after it refuses. *)
Lemma model1_single {training : bool} (N : Z) :
  Sequential (fw := ShapeFW training)
    [Conv2d 64 128 3 2 1; norm_layer 128; ReLU true;
     Conv2d 128 256 3 2 1; norm_layer 256; ReLU true]
    {| sN := N; sC := 64; sH := 4; sW := 4 |} tt =
  Raise (ValueError "Expected more than 1 spatial element when training").
Proof. reflexivity. Qed.

(** X9.  The least input size is 5.  On a non-empty input, a height or
    width of 3 or less is refused by the reflection padding of the stem;
    a 4 x 4 input shrinks to one pixel in the downsampling stage, where
    the instance normalization raises [ValueError]; and a height or width
    of 4 beside a larger one shrinks to a line one pixel thick, which the
    reflection padding of the first residual block refuses. *)
Theorem generators_reject_small_inputs :
  forall (training : bool) (input_nc output_nc n_residual_blocks : Z) (sigmoid : bool)
         (g : Generator Layer) (sg : SPADEGenerator Layer)
         (N H W : Z) (depth : Size) (sign : Z),
    Generator_init input_nc output_nc n_residual_blocks sigmoid = Ok g ->
    SPADEGenerator_init input_nc output_nc n_residual_blocks sigmoid = Ok sg ->
    1 <= H -> 1 <= W ->
    let x := {| sN := N; sC := input_nc; sH := H; sW := W |} in
    let refused :=
      RuntimeError "Padding size should be less than the corresponding input dimension" in
    let single := ValueError "Expected more than 1 spatial element when training" in
    (H <= 3 \/ W <= 3 ->
       Generator_forward (fw := ShapeFW training) g x tt = Raise refused
       /\ SPADEGenerator_forward (fw := ShapeFW training) sg x depth sign tt = Raise refused)
    /\ (H = 4 -> W = 4 ->
        Generator_forward (fw := ShapeFW training) g x tt = Raise single
        /\ SPADEGenerator_forward (fw := ShapeFW training) sg x depth sign tt = Raise single)
    /\ (1 <= n_residual_blocks -> (H = 4 /\ 5 <= W) \/ (5 <= H /\ W = 4) ->
        Generator_forward (fw := ShapeFW training) g x tt = Raise refused
        /\ SPADEGenerator_forward (fw := ShapeFW training) sg x depth sign tt = Raise refused).
Proof.
  intros training input_nc output_nc n sigmoid g sg N H W depth sign.
  rewrite Generator_init_eq, SPADEGenerator_init_eq.
  intros [= <-] [= <-] HH HW x refused single.
  unfold Generator_forward, SPADEGenerator_forward, SPADEGenerator_body.
  rewrite (st_bind_Ok _ _ _ _ _ (condition_by_sign_shape depth sign)).
  cbn [g_model0 g_model1 g_model2 g_model3 g_model4
       sg_model0 sg_model1 sg_model2 sg_model3 sg_model4].
  change (layer (ShapeFW training)) with Layer.
  split; [| split].
  - intros H3. split; apply st_bind_Raise; apply model0_small; exact H3.
  - intros -> ->. unfold x.
    rewrite !(st_bind_Ok _ _ _ _ _
                (model0_shape input_nc N 4 4 ltac:(lia) ltac:(lia))).
    split; apply st_bind_Raise; apply model1_single.
  - intros Hn Hline.
    assert (H4 : 4 <= H) by lia. assert (W4 : 4 <= W) by lia.
    assert (H1 : 1 <= H) by lia. assert (W1 : 1 <= W) by lia.
    assert (Hmany : 5 <= H \/ 5 <= W) by lia.
    rewrite (range_pos _ Hn). cbn [repeat for_each].
    split.
    + rewrite (st_bind_Ok _ _ _ _ _ (model0_shape input_nc N H W H4 W4)).
      rewrite (st_bind_Ok _ _ _ _ _ (model1_shape N H W H1 W1 Hmany)).
      do 2 apply st_bind_Raise. apply ResidualBlock_small.
      Z.div_mod_to_equations; lia.
    + rewrite (st_bind_Ok _ _ _ _ _ (model0_shape input_nc N H W H4 W4)).
      rewrite (st_bind_Ok _ _ _ _ _ (model1_shape N H W H1 W1 Hmany)).
      do 2 apply st_bind_Raise. apply SPADEResidualBlock_small.
      Z.div_mod_to_equations; lia.
Qed.

Lemma generators_reject_small_inputs_witness :
  exists g sg,
    Generator_init 3 1 9 true = Ok g /\ SPADEGenerator_init 3 1 9 true = Ok sg
    /\ Generator_forward (fw := ShapeFW true) g {| sN := 1; sC := 3; sH := 3; sW := 64 |} tt =
       Raise (RuntimeError
                "Padding size should be less than the corresponding input dimension")
    /\ Generator_forward (fw := ShapeFW true) g {| sN := 1; sC := 3; sH := 4; sW := 4 |} tt =
       Raise (ValueError "Expected more than 1 spatial element when training")
    /\ SPADEGenerator_forward (fw := ShapeFW true) sg
         {| sN := 1; sC := 3; sH := 4; sW := 64 |}
         {| sN := 1; sC := 3; sH := 4; sW := 64 |} 0 tt =
       Raise (RuntimeError
                "Padding size should be less than the corresponding input dimension").
Proof.
  eexists. eexists. split; [apply Generator_init_eq |].
  split; [apply SPADEGenerator_init_eq |].
  split; [| split].
  - apply (proj1 (generators_reject_small_inputs true 3 1 9 true _ _ 1 3 64
                    {| sN := 1; sC := 3; sH := 3; sW := 64 |} 0
                    (Generator_init_eq 3 1 9 true) (SPADEGenerator_init_eq 3 1 9 true)
                    ltac:(lia) ltac:(lia))).
    lia.
  - apply (proj1 (proj2 (generators_reject_small_inputs true 3 1 9 true _ _ 1 4 4
                    {| sN := 1; sC := 3; sH := 4; sW := 4 |} 0
                    (Generator_init_eq 3 1 9 true) (SPADEGenerator_init_eq 3 1 9 true)
                    ltac:(lia) ltac:(lia)))); reflexivity.
  - apply (proj2 (proj2 (generators_reject_small_inputs true 3 1 9 true _ _ 1 4 64
                    {| sN := 1; sC := 3; sH := 4; sW := 64 |} 0
                    (Generator_init_eq 3 1 9 true) (SPADEGenerator_init_eq 3 1 9 true)
                    ltac:(lia) ltac:(lia)))); lia.
Defined.

Lemma Conv2d_bad_channels {training : bool} (cin cout k stride p : Z) (s : Size) :
  sC s <> cin ->
  Layer_shape training (Conv2d cin cout k stride p) s =
  Raise (RuntimeError "input channels do not match the weight").
Proof.
  intros Hc. unfold Layer_shape.
  apply Z.eqb_neq in Hc. rewrite Hc. reflexivity.
Qed.

Lemma spade3x3_bad_channels {training : bool} (c N H W : Z) (segmap : Size) :
  1 <= H -> 1 <= W -> 2 <= H \/ 2 <= W -> sC segmap <> 3 ->
  SPADE_forward (fw := ShapeFW training) (spade3x3 c)
    {| sN := N; sC := c; sH := H; sW := W |} segmap tt =
  Raise (RuntimeError "input channels do not match the weight").
Proof.
  intros HH HW Hmany Hc. unfold SPADE_forward, spade3x3.
  cbn [param_free_norm mlp_shared mlp_gamma mlp_beta].
  erewrite st_bind_Ok
    by (cbn [call ShapeFW]; unfold st_lift;
        rewrite InstanceNorm2d_shape by (apply spatial_many; assumption); reflexivity).
  erewrite st_bind_Ok by reflexivity.
  apply st_bind_Raise. cbn [Sequential]. apply st_bind_Raise.
  cbn [call ShapeFW]. unfold st_lift.
  rewrite Conv2d_bad_channels by (cbn [F_interpolate ShapeFW sC]; exact Hc).
  reflexivity.
Qed.

Lemma SPADEResidualBlock_bad_channels {training : bool} (c N H W : Z) (depth : Size) :
  2 <= H -> 2 <= W -> sC depth <> 3 ->
  SPADEResidualBlock_forward (fw := ShapeFW training) (spade_block c)
    {| sN := N; sC := c; sH := H; sW := W |} depth tt =
  Raise (RuntimeError "input channels do not match the weight").
Proof.
  intros HH HW Hc. unfold SPADEResidualBlock_forward, spade_block.
  cbn [conv_block0 conv_block1 norm_layer0 norm_layer1].
  assert (Hconv : Sequential (fw := ShapeFW training)
                    [ReflectionPad2d 1; Conv2d c c 3 1 0]
                    {| sN := N; sC := c; sH := H; sW := W |} tt =
                  Ok ({| sN := N; sC := c; sH := H; sW := W |}, tt)).
  { shape_run. rewrite !conv_out_3. reflexivity. }
  change (layer (ShapeFW training)) with Layer.
  rewrite (st_bind_Ok _ _ _ _ _ Hconv).
  apply st_bind_Raise. apply spade3x3_bad_channels; first [exact Hc | lia].
Qed.

(** X10.  The channel counts the generators accept.  A feature input whose
    channel count is not [input_nc] is refused by the first convolution of
    either generator; a condition map whose channel count is not 3 is
    refused by the first SPADE module of [SPADEGenerator], whatever the
    number of residual blocks and whatever [sign]. *)
Theorem generators_channel_counts :
  forall (training : bool) (input_nc output_nc n_residual_blocks : Z) (sigmoid : bool)
         (g : Generator Layer) (sg : SPADEGenerator Layer)
         (N C H W : Z) (depth : Size) (sign : Z),
    Generator_init input_nc output_nc n_residual_blocks sigmoid = Ok g ->
    SPADEGenerator_init input_nc output_nc n_residual_blocks sigmoid = Ok sg ->
    5 <= H -> 5 <= W ->
    let refused := RuntimeError "input channels do not match the weight" in
    (C <> input_nc ->
       Generator_forward (fw := ShapeFW training) g
         {| sN := N; sC := C; sH := H; sW := W |} tt = Raise refused
       /\ SPADEGenerator_forward (fw := ShapeFW training) sg
            {| sN := N; sC := C; sH := H; sW := W |} depth sign tt = Raise refused)
    /\ (sC depth <> 3 ->
        SPADEGenerator_forward (fw := ShapeFW training) sg
          {| sN := N; sC := input_nc; sH := H; sW := W |} depth sign tt = Raise refused).
Proof.
  intros training input_nc output_nc n sigmoid g sg N C H W depth sign.
  rewrite Generator_init_eq, SPADEGenerator_init_eq.
  intros [= <-] [= <-] HH HW refused.
  unfold Generator_forward, SPADEGenerator_forward, SPADEGenerator_body.
  rewrite !(st_bind_Ok _ _ _ _ _ (condition_by_sign_shape depth sign)).
  cbn [g_model0 g_model1 g_model2 g_model3 g_model4
       sg_model0 sg_model1 sg_model2 sg_model3 sg_model4].
  change (layer (ShapeFW training)) with Layer.
  split.
  - intros HC.
    assert (Hstem : Sequential (fw := ShapeFW training)
                      [ReflectionPad2d 3; Conv2d input_nc 64 7 1 0; norm_layer 64; ReLU true]
                      {| sN := N; sC := C; sH := H; sW := W |} tt = Raise refused).
    { cbn [Sequential]. erewrite st_bind_Ok
        by (cbn [call ShapeFW]; unfold st_lift;
            rewrite ReflectionPad2d_shape by lia; reflexivity).
      apply st_bind_Raise. cbn [call ShapeFW]. unfold st_lift.
      rewrite Conv2d_bad_channels by (cbn [sC]; exact HC). reflexivity. }
    split; apply st_bind_Raise; exact Hstem.
  - intros Hd.
    rewrite (st_bind_Ok _ _ _ _ _ (model0_shape input_nc N H W ltac:(lia) ltac:(lia))).
    rewrite (st_bind_Ok _ _ _ _ _
               (model1_shape N H W ltac:(lia) ltac:(lia) ltac:(lia))).
    destruct (range n) as [| k].
    + cbn [repeat for_each]. erewrite st_bind_Ok by reflexivity.
      apply st_bind_Raise. cbn [for_each].
      erewrite st_bind_Ok
        by (cbn [call ShapeFW]; unfold st_lift;
            rewrite ConvTranspose2d_shape; reflexivity).
      apply st_bind_Raise.
      apply spade3x3_bad_channels; first [exact Hd | size_side].
    + cbn [repeat for_each]. do 2 apply st_bind_Raise.
      apply SPADEResidualBlock_bad_channels;
        [Z.div_mod_to_equations; lia | Z.div_mod_to_equations; lia | exact Hd].
Qed.

Lemma generators_channel_counts_witness :
  exists sg,
    SPADEGenerator_init 3 1 9 true = Ok sg
    /\ SPADEGenerator_forward (fw := ShapeFW true) sg
         {| sN := 1; sC := 3; sH := 256; sW := 256 |}
         {| sN := 1; sC := 1; sH := 256; sW := 256 |} 1 tt =
       Raise (RuntimeError "input channels do not match the weight").
Proof.
  eexists. split; [apply SPADEGenerator_init_eq |].
  apply (proj2 (generators_channel_counts true 3 1 9 true _ _ 1 3 256 256
                  {| sN := 1; sC := 1; sH := 256; sW := 256 |} 1
                  (Generator_init_eq 3 1 9 true) (SPADEGenerator_init_eq 3 1 9 true)
                  ltac:(lia) ltac:(lia))).
  discriminate.
Defined.

(** ** [GlobalGenerator2]: what the constructor builds and when it runs *)

Lemma downsample_loop_halved (ngf : Z) (nl : Z -> Layer) (act : Layer) (n : nat)
    (model : list (GModule Layer)) (mult : Z) :
  for_range n (downsample_body ngf nl act) (model, mult) =
  Ok (model ++ down_stages ngf nl act n mult, halved n mult).
Proof.
  revert model mult. induction n as [| n IH]; intros model mult.
  - cbn. rewrite app_nil_r. reflexivity.
  - cbn [for_range downsample_body rbind down_stages].
    rewrite IH, <- app_assoc. unfold halved. rewrite Nat.iter_succ_r. reflexivity.
Qed.

Lemma upsample_loop (ngf : Z) (nl : Z -> Layer) (act : Layer) (n : nat)
    (model : list (GModule Layer)) (mult : Z) :
  for_range n (upsample_body ngf nl act) (model, mult) =
  Ok (model ++ fst (up_stages ngf nl act n mult), snd (up_stages ngf nl act n mult)).
Proof.
  revert model mult. induction n as [| n IH]; intros model mult.
  - cbn. rewrite app_nil_r. reflexivity.
  - cbn [for_range upsample_body rbind up_stages].
    destruct (mult / 2 =? 0); cbn [rbind]; rewrite IH;
      destruct (up_stages ngf nl act n _) as [rest final]; cbn [fst snd];
      rewrite <- app_assoc; reflexivity.
Qed.

Lemma resnet_loop_Ok (r : result (ResnetBlock Layer)) (b : ResnetBlock Layer) (n : nat)
    (model : list (GModule Layer)) :
  r = Ok b ->
  for_range n (fun model => rbind r (fun b => Ok (model ++ [GResnetBlock b]))) model =
  Ok (model ++ repeat (GResnetBlock b) n).
Proof.
  intros ->. revert model. induction n as [| n IH]; intros model; cbn.
  - rewrite app_nil_r. reflexivity.
  - rewrite IH, <- app_assoc. reflexivity.
Qed.

Lemma build_conv_block_valid (dim : Z) (padding_type : string) (nl : Z -> Layer)
    (act : Layer) (use_dropout : bool) :
  valid_padding padding_type ->
  exists b, ResnetBlock_init dim padding_type nl act use_dropout = Ok b.
Proof.
  intros [-> | [-> | ->]]; eexists; reflexivity.
Qed.

Lemma build_conv_block_invalid (dim : Z) (padding_type : string) (nl : Z -> Layer)
    (act : Layer) (use_dropout : bool) :
  ~ valid_padding padding_type ->
  ResnetBlock_init dim padding_type nl act use_dropout =
  Raise (NotImplementedError ("padding [" ++ padding_type ++ "] is not implemented")%string).
Proof.
  intros Hinv. unfold ResnetBlock_init, build_conv_block.
  destruct (String.eqb padding_type "reflect") eqn:E1;
    [apply String.eqb_eq in E1; exfalso; apply Hinv; left; exact E1 |].
  destruct (String.eqb padding_type "replicate") eqn:E2;
    [apply String.eqb_eq in E2; exfalso; apply Hinv; right; left; exact E2 |].
  destruct (String.eqb padding_type "zero") eqn:E3;
    [apply String.eqb_eq in E3; exfalso; apply Hinv; right; right; exact E3 |].
  reflexivity.
Qed.

(** The model of a [GlobalGenerator2], given the residual block its
    [n_blocks] iterations build (none is built when [n_blocks] is 0). *)
Lemma GlobalGenerator2_init_model (input_nc output_nc ngf n_downsampling n_blocks : Z)
    (nl : Z -> Layer) (padding_type : string) (use_sig : bool) (n_UPsampling : Z)
    (b : ResnetBlock Layer) :
  0 <= n_blocks ->
  let d := range n_downsampling in
  let u := range (if n_UPsampling <=? 0 then n_downsampling else n_UPsampling) in
  n_blocks = 0
  \/ ResnetBlock_init (ngf * halved d 8) padding_type nl (ReLU true) false = Ok b ->
  GlobalGenerator2_init input_nc output_nc ngf n_downsampling n_blocks nl padding_type
    use_sig n_UPsampling =
  Ok {| gg_model :=
          gg_stem input_nc ngf nl
          ++ down_stages ngf nl (ReLU true) d 8
          ++ repeat (GResnetBlock b) (range n_blocks)
          ++ fst (up_stages ngf nl (ReLU true) u (halved d 8))
          ++ gg_tail ngf output_nc use_sig |}.
Proof.
  intros Hn d u Hb. unfold GlobalGenerator2_init.
  replace (n_blocks >=? 0) with true by (symmetry; apply Z.geb_le; lia).
  cbn [assert rbind].
  rewrite downsample_loop_halved. cbn [rbind]. fold d.
  assert (Hres : for_range (range n_blocks)
                   (fun model =>
                      rbind (ResnetBlock_init (ngf * halved d 8) padding_type nl (ReLU true) false)
                            (fun b => Ok (model ++ [GResnetBlock b])))
                   (gg_stem input_nc ngf nl ++ down_stages ngf nl (ReLU true) d 8) =
                 Ok ((gg_stem input_nc ngf nl ++ down_stages ngf nl (ReLU true) d 8)
                     ++ repeat (GResnetBlock b) (range n_blocks))).
  { destruct Hb as [-> | Hb].
    - cbn. rewrite app_nil_r. reflexivity.
    - apply resnet_loop_Ok. exact Hb. }
  unfold gg_stem in Hres |- *. rewrite Hres. cbn [rbind].
  rewrite upsample_loop. cbn [rbind]. fold u.
  unfold gg_tail. destruct use_sig; rewrite <- !app_assoc; reflexivity.
Qed.

(** X11.  The outcomes of [GlobalGenerator2.__init__]: a negative
    [n_blocks] fails the assertion, before any layer is built.  With
    channel counts that are not negative (the layer constructors refuse
    a negative one): an unknown padding type raises
    [NotImplementedError] when at least one residual block is asked for,
    and goes unnoticed when [n_blocks] is 0; with a known padding type the
    constructor returns, and the model is the stem, the [n_downsampling]
    stages, [n_blocks] residual blocks, the upsampling stages
    ([n_downsampling] of them when [n_UPsampling] is 0 or less) and the
    output layers. *)
Theorem GlobalGenerator2_init_outcomes :
  forall (input_nc output_nc ngf n_downsampling n_blocks : Z) (nl : Z -> Layer)
         (padding_type : string) (use_sig : bool) (n_UPsampling : Z),
    let init := GlobalGenerator2_init input_nc output_nc ngf n_downsampling n_blocks nl
                  padding_type use_sig n_UPsampling in
    let d := range n_downsampling in
    let u := range (if n_UPsampling <=? 0 then n_downsampling else n_UPsampling) in
    (n_blocks < 0 -> init = Raise AssertionError)
    /\ (0 <= input_nc -> 0 <= ngf ->
        1 <= n_blocks -> ~ valid_padding padding_type ->
        init = Raise (NotImplementedError
                        ("padding [" ++ padding_type ++ "] is not implemented")%string))
    /\ (0 <= input_nc -> 0 <= output_nc -> 0 <= ngf ->
        n_blocks = 0 ->
        init = Ok {| gg_model :=
                       gg_stem input_nc ngf nl
                       ++ down_stages ngf nl (ReLU true) d 8
                       ++ fst (up_stages ngf nl (ReLU true) u (halved d 8))
                       ++ gg_tail ngf output_nc use_sig |})
    /\ (0 <= input_nc -> 0 <= output_nc -> 0 <= ngf ->
        0 <= n_blocks -> valid_padding padding_type ->
        exists b,
          ResnetBlock_init (ngf * halved d 8) padding_type nl (ReLU true) false = Ok b
          /\ init = Ok {| gg_model :=
                            gg_stem input_nc ngf nl
                            ++ down_stages ngf nl (ReLU true) d 8
                            ++ repeat (GResnetBlock b) (range n_blocks)
                            ++ fst (up_stages ngf nl (ReLU true) u (halved d 8))
                            ++ gg_tail ngf output_nc use_sig |}).
Proof.
  intros input_nc output_nc ngf n_downsampling n_blocks nl padding_type use_sig
         n_UPsampling init d u.
  split; [| split; [| split]].
  - intros Hneg. unfold init, GlobalGenerator2_init.
    replace (n_blocks >=? 0) with false by (symmetry; rewrite Z.geb_leb; apply Z.leb_gt; lia).
    reflexivity.
  - intros _ _ Hpos Hinv. unfold init, GlobalGenerator2_init.
    replace (n_blocks >=? 0) with true by (symmetry; apply Z.geb_le; lia).
    cbn [assert rbind]. rewrite downsample_loop_halved. cbn [rbind].
    rewrite (range_pos _ Hpos). cbn [for_range].
    rewrite build_conv_block_invalid by exact Hinv. reflexivity.
  - intros _ _ _ ->. unfold init.
    rewrite (GlobalGenerator2_init_model input_nc output_nc ngf n_downsampling 0 nl
               padding_type use_sig n_UPsampling {| rb_conv_block := [] |})
      by (first [lia | left; reflexivity]).
    reflexivity.
  - intros _ _ _ Hn Hvalid.
    destruct (build_conv_block_valid (ngf * halved d 8) padding_type nl (ReLU true) false
                Hvalid) as [b Hb].
    exists b. split; [exact Hb |].
    apply GlobalGenerator2_init_model; [exact Hn | right; exact Hb].
Qed.

Lemma GlobalGenerator2_init_outcomes_witness :
  GlobalGenerator2_init 3 1 64 3 (-1) (fun c => BatchNorm2d c true) "reflect" false 0 =
    Raise AssertionError
  /\ GlobalGenerator2_init 3 1 64 3 9 (fun c => BatchNorm2d c true) "circular" false 0 =
     Raise (NotImplementedError "padding [circular] is not implemented")
  /\ (exists g,
        GlobalGenerator2_init 3 1 64 3 0 (fun c => BatchNorm2d c true) "circular" false 0 =
        Ok g)
  /\ (exists g,
        GlobalGenerator2_init 3 1 64 3 9 (fun c => BatchNorm2d c true) "reflect" false 0 =
        Ok g).
Proof.
  pose proof (GlobalGenerator2_init_outcomes 3 1 64 3 (-1) (fun c => BatchNorm2d c true)
                "reflect" false 0) as Hneg.
  pose proof (GlobalGenerator2_init_outcomes 3 1 64 3 9 (fun c => BatchNorm2d c true)
                "circular" false 0) as Hbad.
  pose proof (GlobalGenerator2_init_outcomes 3 1 64 3 0 (fun c => BatchNorm2d c true)
                "circular" false 0) as Hzero.
  pose proof (GlobalGenerator2_init_outcomes 3 1 64 3 9 (fun c => BatchNorm2d c true)
                "reflect" false 0) as Hgood.
  split; [| split; [| split]].
  - apply (proj1 Hneg). lia.
  - apply (proj1 (proj2 Hbad)); [lia | lia | lia |].
    intros [H | [H | H]]; discriminate H.
  - eexists. apply (proj1 (proj2 (proj2 Hzero))); first [lia | reflexivity].
  - destruct (proj2 (proj2 (proj2 Hgood)) ltac:(lia) ltac:(lia) ltac:(lia) ltac:(lia)
                (or_introl eq_refl)) as (b & _ & Hinit).
    eexists. exact Hinit.
Defined.

Lemma pow2_S (k : nat) : pow2 (S k) = 2 * pow2 k.
Proof. unfold pow2. rewrite Nat2Z.inj_succ, Z.pow_succ_r by lia. reflexivity. Qed.

Lemma pow2_pos (k : nat) : 0 < pow2 k.
Proof. unfold pow2. apply Z.pow_pos_nonneg; lia. Qed.

Lemma pow2_half (k : nat) : pow2 (S k) / 2 = pow2 k.
Proof. rewrite pow2_S, Z.mul_comm. apply Z.div_mul. lia. Qed.

Lemma mul_pow2_half (ngf : Z) (k : nat) : ngf * pow2 (S k) / 2 = ngf * pow2 k.
Proof.
  rewrite pow2_S. replace (ngf * (2 * pow2 k)) with (ngf * pow2 k * 2) by lia.
  apply Z.div_mul. lia.
Qed.

Lemma halved_pow2 (n k : nat) : (n <= k)%nat -> halved n (pow2 k) = pow2 (k - n).
Proof.
  revert k. induction n as [| n IH]; intros k Hn.
  - rewrite Nat.sub_0_r. reflexivity.
  - destruct k as [| k]; [lia |].
    unfold halved. rewrite Nat.iter_succ_r. fold (halved n (pow2 (S k) / 2)).
    rewrite pow2_half. rewrite IH by lia. reflexivity.
Qed.

Lemma for_each_app {fw : Framework} {X : Type}
    (f : X -> tensor fw -> M (world fw) (tensor fw)) (l1 l2 : list X)
    (x : tensor fw) (w : world fw) :
  for_each f (l1 ++ l2) x w = st_bind (for_each f l1 x) (fun y => for_each f l2 y) w.
Proof.
  revert x w. induction l1 as [| m l1 IH]; intros x w.
  - reflexivity.
  - cbn [app for_each]. unfold st_bind. specialize (IH).
    destruct (f m x w) as [[y w1] |]; [| reflexivity].
    rewrite IH. reflexivity.
Qed.

Lemma gg_call_layer {training : bool} (l : Layer) (s : Size) :
  gg_call (ShapeFW training) (GLayer l) s tt =
  match Layer_shape training l s with Ok s' => Ok (s', tt) | Raise e => Raise e end.
Proof. reflexivity. Qed.

Lemma Tanh_shape {training : bool} (s : Size) : Layer_shape training Tanh s = Ok s.
Proof. reflexivity. Qed.

(** One step of [GlobalGenerator2.forward] at shapes. *)
Ltac gg_run Hnl :=
  repeat (cbn [for_each app]; unfold st_bind at 1; rewrite gg_call_layer;
          first [ rewrite ReflectionPad2d_shape by lia
                | rewrite Conv2d_shape by lia
                | rewrite ConvTranspose2d_shape
                | rewrite Hnl by size_side
                | rewrite ReLU_shape
                | rewrite Sigmoid_shape
                | rewrite Tanh_shape ];
          cbv beta iota).

Lemma gg_stem_shape {training : bool} (input_nc ngf N H W : Z) (nl : Z -> Layer) :
  norm_keeps_shape training nl -> 5 <= H -> 5 <= W ->
  for_each (gg_call (ShapeFW training)) (gg_stem input_nc ngf nl)
    {| sN := N; sC := input_nc; sH := H; sW := W |} tt =
  Ok ({| sN := N; sC := ngf * 8; sH := H + 2; sW := W + 2 |}, tt).
Proof.
  intros Hnl HH HW. unfold gg_stem. gg_run Hnl.
  cbn [for_each]. unfold st_ret, conv_out. rewrite !Z.div_1_r.
  do 2 f_equal. f_equal; lia.
Qed.

Lemma down_stages_shape {training : bool} (ngf N : Z) (nl : Z -> Layer) (n k : nat) (H W : Z) :
  norm_keeps_shape training nl -> (n <= k)%nat -> 1 <= H -> 1 <= W ->
  for_each (gg_call (ShapeFW training)) (down_stages ngf nl (ReLU true) n (pow2 k))
    {| sN := N; sC := ngf * pow2 k; sH := H; sW := W |} tt =
  Ok ({| sN := N; sC := ngf * pow2 (k - n); sH := pow2 n * H; sW := pow2 n * W |}, tt).
Proof.
  intros Hnl. revert k H W. induction n as [| n IH]; intros k H W Hn HH HW.
  - cbn [down_stages for_each]. unfold st_ret. rewrite Nat.sub_0_r.
    change (pow2 0) with 1. rewrite !Z.mul_1_l. reflexivity.
  - destruct k as [| k]; [lia |].
    cbn [down_stages]. rewrite mul_pow2_half, pow2_half.
    gg_run Hnl. rewrite IH by (first [lia | size_side]).
    unfold conv_transpose_out. rewrite (pow2_S n).
    replace (S k - S n)%nat with (k - n)%nat by lia.
    do 2 f_equal. f_equal; lia.
Qed.

Lemma up_stages_shape {training : bool} (ngf N : Z) (nl : Z -> Layer) (n k : nat) (H W : Z) :
  norm_keeps_shape training nl -> 1 <= H -> 1 <= W ->
  for_each (gg_call (ShapeFW training)) (fst (up_stages ngf nl (ReLU true) n (pow2 k)))
    {| sN := N; sC := ngf * pow2 k; sH := H; sW := W |} tt =
  Ok ({| sN := N; sC := ngf * pow2 (k - n); sH := pow2 n * H; sW := pow2 n * W |}, tt).
Proof.
  intros Hnl. revert k H W. induction n as [| n IH]; intros k H W HH HW.
  - cbn [up_stages fst for_each]. unfold st_ret. rewrite Nat.sub_0_r.
    change (pow2 0) with 1. rewrite !Z.mul_1_l. reflexivity.
  - cbn [up_stages]. destruct k as [| k].
    + change (pow2 0) with 1. change (1 / 2 =? 0) with true. cbv iota.
      change 1 with (pow2 0) at 1 2 3.
      destruct (up_stages ngf nl (ReLU true) n (pow2 0)) as [rest final] eqn:E.
      cbn [fst]. gg_run Hnl.
      replace rest with (fst (up_stages ngf nl (ReLU true) n (pow2 0))) by (rewrite E; reflexivity).
      rewrite IH by size_side. unfold conv_transpose_out. rewrite (pow2_S n).
      do 2 f_equal. f_equal; lia.
    + rewrite pow2_half.
      replace (pow2 k =? 0) with false
        by (symmetry; apply Z.eqb_neq; pose proof (pow2_pos k); lia).
      cbv iota.
      destruct (up_stages ngf nl (ReLU true) n (pow2 k)) as [rest final] eqn:E.
      cbn [fst]. gg_run Hnl.
      replace rest with (fst (up_stages ngf nl (ReLU true) n (pow2 k))) by (rewrite E; reflexivity).
      rewrite IH by size_side. unfold conv_transpose_out. rewrite (pow2_S n).
      replace (S k - S n)%nat with (k - n)%nat by lia.
      do 2 f_equal. f_equal; lia.
Qed.

Lemma ReplicationPad2d_shape {training : bool} (p N C H W : Z) :
  Layer_shape training (ReplicationPad2d p) {| sN := N; sC := C; sH := H; sW := W |} =
  Ok {| sN := N; sC := C; sH := H + 2 * p; sW := W + 2 * p |}.
Proof. reflexivity. Qed.

Lemma Dropout_shape {training : bool} (p : Q) (s : Size) :
  Layer_shape training (Dropout p) s = Ok s.
Proof. reflexivity. Qed.

Lemma conv_out_3_same (H : Z) : conv_out H 3 1 1 = H.
Proof. unfold conv_out. rewrite Z.div_1_r. lia. Qed.

Ltac rb_run Hnl :=
  cbn [Sequential call t_add ShapeFW app];
  unfold st_bind, st_lift, st_ret;
  repeat (cbv beta iota;
          first [ rewrite ReflectionPad2d_shape by lia
                | rewrite ReplicationPad2d_shape
                | rewrite Conv2d_shape by lia
                | rewrite Hnl by size_side
                | rewrite ReLU_shape
                | rewrite Dropout_shape
                | rewrite conv_out_3
                | rewrite conv_out_3_same
                | rewrite broadcast_same ]).

Lemma ResnetBlock_shape {training : bool} (dim : Z) (padding_type : string) (nl : Z -> Layer)
    (use_dropout : bool) (b : ResnetBlock Layer) (N H W : Z) :
  ResnetBlock_init dim padding_type nl (ReLU true) use_dropout = Ok b ->
  norm_keeps_shape training nl ->
  1 <= H -> 1 <= W -> 2 <= H \/ 2 <= W ->
  (padding_type = "reflect" -> 2 <= H /\ 2 <= W) ->
  ResnetBlock_forward (fw := ShapeFW training) b {| sN := N; sC := dim; sH := H; sW := W |} tt =
  Ok ({| sN := N; sC := dim; sH := H; sW := W |}, tt).
Proof.
  intros Hinit Hnl HH HW Hmany Hreflect.
  destruct (string_dec padding_type "reflect") as [-> | Hne1].
  - destruct (Hreflect eq_refl) as [HH2 HW2].
    destruct use_dropout; injection Hinit as <-;
      unfold ResnetBlock_forward; cbn [rb_conv_block]; rb_run Hnl; reflexivity.
  - destruct (string_dec padding_type "replicate") as [-> | Hne2].
    + destruct use_dropout; injection Hinit as <-;
        unfold ResnetBlock_forward; cbn [rb_conv_block]; rb_run Hnl; reflexivity.
    + destruct (string_dec padding_type "zero") as [-> | Hne3].
      * destruct use_dropout; injection Hinit as <-;
          unfold ResnetBlock_forward; cbn [rb_conv_block]; rb_run Hnl; reflexivity.
      * rewrite build_conv_block_invalid in Hinit; [discriminate |].
        intros [? | [? | ?]]; congruence.
Qed.

(** X12.  A [ResnetBlock] built with any of the three padding types, with
    or without dropout, in either mode of the network, returns a tensor
    of the shape of its input when that has more than one spatial
    element ([reflect]: neither side is 1), which is what its
    normalization layers and the reflection padding ask for. *)
Theorem ResnetBlock_keeps_shape :
  forall (training : bool) (dim : Z) (padding_type : string) (nl : Z -> Layer)
         (use_dropout : bool) (b : ResnetBlock Layer) (N H W : Z),
    ResnetBlock_init dim padding_type nl (ReLU true) use_dropout = Ok b ->
    norm_keeps_shape training nl ->
    0 < N -> 1 <= H -> 1 <= W -> 2 <= H \/ 2 <= W ->
    (padding_type = "reflect" -> 2 <= H /\ 2 <= W) ->
    ResnetBlock_forward (fw := ShapeFW training) b {| sN := N; sC := dim; sH := H; sW := W |} tt =
    Ok ({| sN := N; sC := dim; sH := H; sW := W |}, tt).
Proof.
  intros training dim padding_type nl use_dropout b N H W Hinit Hnl _.
  apply (ResnetBlock_shape dim padding_type nl use_dropout b N H W Hinit Hnl).
Qed.

Lemma BatchNorm2d_keeps_shape {training : bool} (affine : bool) :
  norm_keeps_shape training (fun c => BatchNorm2d c affine).
Proof.
  intros c N H W HH HW Hmany. apply BatchNorm2d_shape.
  intros _. apply batch_many; assumption.
Qed.

Lemma InstanceNorm2d_keeps_shape {training : bool} :
  norm_keeps_shape training (fun c => InstanceNorm2d c false).
Proof.
  intros c N H W HH HW Hmany. apply InstanceNorm2d_shape.
  apply spatial_many; assumption.
Qed.

Lemma ResnetBlock_keeps_shape_witness :
  exists b,
    ResnetBlock_init 64 "zero" (fun c => BatchNorm2d c true) (ReLU true) true = Ok b
    /\ ResnetBlock_forward (fw := ShapeFW true) b {| sN := 2; sC := 64; sH := 1; sW := 7 |} tt =
       Ok ({| sN := 2; sC := 64; sH := 1; sW := 7 |}, tt).
Proof.
  eexists. split; [reflexivity |].
  apply (ResnetBlock_keeps_shape true 64 "zero" (fun c => BatchNorm2d c true) true);
    first [reflexivity | apply BatchNorm2d_keeps_shape | lia | discriminate].
Defined.

Lemma gg_tail_shape {training : bool} (ngf output_nc N H W : Z) (use_sig : bool) :
  4 <= H -> 4 <= W ->
  for_each (gg_call (ShapeFW training)) (gg_tail ngf output_nc use_sig)
    {| sN := N; sC := ngf; sH := H; sW := W |} tt =
  Ok ({| sN := N; sC := output_nc; sH := H; sW := W |}, tt).
Proof.
  intros HH HW. unfold gg_tail.
  destruct use_sig; gg_run I; cbn [for_each]; unfold st_ret;
    rewrite !conv_out_7; reflexivity.
Qed.

Lemma gg_tail_bad_channels {training : bool} (ngf output_nc N C H W : Z) (use_sig : bool) :
  C <> ngf -> 4 <= H -> 4 <= W ->
  for_each (gg_call (ShapeFW training)) (gg_tail ngf output_nc use_sig)
    {| sN := N; sC := C; sH := H; sW := W |} tt =
  Raise (RuntimeError "input channels do not match the weight").
Proof.
  intros HC HH HW. unfold gg_tail. cbn [for_each].
  erewrite st_bind_Ok
    by (rewrite gg_call_layer, ReflectionPad2d_shape by lia; reflexivity).
  apply st_bind_Raise. rewrite gg_call_layer.
  rewrite Conv2d_bad_channels by (cbn [sC]; exact HC). reflexivity.
Qed.

(** The forward pass up to the output layers: stem, downsampling stages,
    residual blocks, upsampling stages. *)
Lemma GlobalGenerator2_body_shape {training : bool} (input_nc ngf N H W : Z) (nl : Z -> Layer)
    (padding_type : string) (b : ResnetBlock Layer) (d u n : nat) :
  norm_keeps_shape training nl -> (d <= 3)%nat -> 5 <= H -> 5 <= W ->
  (n = 0%nat
   \/ ResnetBlock_init (ngf * pow2 (3 - d)) padding_type nl (ReLU true) false = Ok b) ->
  for_each (gg_call (ShapeFW training))
    (gg_stem input_nc ngf nl
     ++ down_stages ngf nl (ReLU true) d 8
     ++ repeat (GResnetBlock b) n
     ++ fst (up_stages ngf nl (ReLU true) u (pow2 (3 - d))))
    {| sN := N; sC := input_nc; sH := H; sW := W |} tt =
  Ok ({| sN := N; sC := ngf * pow2 (3 - d - u);
         sH := pow2 u * (pow2 d * (H + 2)); sW := pow2 u * (pow2 d * (W + 2)) |}, tt).
Proof.
  intros Hnl Hd HH HW Hb.
  rewrite for_each_app. erewrite st_bind_Ok by (apply gg_stem_shape; assumption).
  rewrite for_each_app. change 8 with (pow2 3).
  erewrite st_bind_Ok by (apply down_stages_shape; first [assumption | lia]).
  rewrite for_each_app.
  set (s := {| sN := N; sC := ngf * pow2 (3 - d);
               sH := pow2 d * (H + 2); sW := pow2 d * (W + 2) |}).
  assert (Hblocks : for_each (gg_call (ShapeFW training)) (repeat (GResnetBlock b) n) s tt =
                    Ok (s, tt)).
  { destruct Hb as [Hn | Hb]; [rewrite Hn; reflexivity |].
    apply (for_each_repeat_fixed (fw := ShapeFW training) (gg_call (ShapeFW training))
             (GResnetBlock b) s tt n).
    cbn [gg_call]. pose proof (pow2_pos d).
    apply (ResnetBlock_shape _ padding_type nl false); first [assumption | nia]. }
  rewrite (st_bind_Ok _ _ _ _ _ Hblocks).
  pose proof (pow2_pos d).
  apply up_stages_shape; first [exact Hnl | nia].
Qed.

Lemma GlobalGenerator2_forward_body {training : bool}
    (input_nc output_nc ngf n_downsampling n_blocks : Z)
    (nl : Z -> Layer) (padding_type : string) (use_sig : bool) (n_UPsampling : Z)
    (g : GlobalGenerator2 Layer) (N H W : Z) :
  GlobalGenerator2_init input_nc output_nc ngf n_downsampling n_blocks nl padding_type
    use_sig n_UPsampling = Ok g ->
  norm_keeps_shape training nl ->
  0 <= n_blocks -> n_blocks = 0 \/ valid_padding padding_type ->
  let d := range n_downsampling in
  let u := range (if n_UPsampling <=? 0 then n_downsampling else n_UPsampling) in
  (d <= 3)%nat -> 5 <= H -> 5 <= W ->
  GlobalGenerator2_forward (fw := ShapeFW training) g
    {| sN := N; sC := input_nc; sH := H; sW := W |} tt =
  for_each (gg_call (ShapeFW training)) (gg_tail ngf output_nc use_sig)
    {| sN := N; sC := ngf * pow2 (3 - d - u);
       sH := pow2 u * (pow2 d * (H + 2)); sW := pow2 u * (pow2 d * (W + 2)) |} tt.
Proof.
  intros Hinit Hnl Hn Hcase d u Hd HH HW.
  assert (Hhalved : halved d 8 = pow2 (3 - d))
    by (change 8 with (pow2 3); apply halved_pow2; exact Hd).
  assert (Hb : exists b,
             (range n_blocks = 0%nat
              \/ ResnetBlock_init (ngf * pow2 (3 - d)) padding_type nl (ReLU true) false = Ok b)
             /\ gg_model g =
                (gg_stem input_nc ngf nl
                 ++ down_stages ngf nl (ReLU true) d 8
                 ++ repeat (GResnetBlock b) (range n_blocks)
                 ++ fst (up_stages ngf nl (ReLU true) u (pow2 (3 - d))))
                ++ gg_tail ngf output_nc use_sig).
  { destruct Hcase as [H0 | Hvalid].
    - exists {| rb_conv_block := [] |}. split; [left; subst n_blocks; reflexivity |].
      rewrite (GlobalGenerator2_init_model input_nc output_nc ngf n_downsampling n_blocks nl
                 padding_type use_sig n_UPsampling {| rb_conv_block := [] |} Hn
                 (or_introl H0)) in Hinit.
      injection Hinit as <-. cbn [gg_model]. fold d u. rewrite Hhalved.
      rewrite <- !app_assoc. reflexivity.
    - destruct (build_conv_block_valid (ngf * halved d 8) padding_type nl (ReLU true) false
                  Hvalid) as [b Hb].
      exists b. split; [right; rewrite <- Hhalved; exact Hb |].
      rewrite (GlobalGenerator2_init_model input_nc output_nc ngf n_downsampling n_blocks nl
                 padding_type use_sig n_UPsampling b Hn (or_intror Hb)) in Hinit.
      injection Hinit as <-. cbn [gg_model]. fold d u. rewrite Hhalved.
      rewrite <- !app_assoc. reflexivity. }
  destruct Hb as (b & Hb & Hmodel).
  change (GlobalGenerator2_forward (fw := ShapeFW training) g
            {| sN := N; sC := input_nc; sH := H; sW := W |})
    with (for_each (gg_call (ShapeFW training)) (gg_model g)
            {| sN := N; sC := input_nc; sH := H; sW := W |}).
  rewrite Hmodel, for_each_app.
  apply st_bind_Ok.
  apply (GlobalGenerator2_body_shape input_nc ngf N H W nl padding_type b d u
           (range n_blocks)); assumption.
Qed.

(** X13.  A [GlobalGenerator2] with at most 3 "downsampling" stages and at
    least 3 stages in all (down and up) enlarges its input: on a map of
    height and width at least 5 it returns (N, output_nc, H', W') with
    H' = 2^(d+u) * (H + 2) and W' = 2^(d+u) * (W + 2); the default
    configuration (3 and 3) gives 64 * (H + 2). *)
Theorem GlobalGenerator2_forward_enlarges :
  forall (training : bool)
         (input_nc output_nc ngf n_downsampling n_blocks : Z) (nl : Z -> Layer)
         (padding_type : string) (use_sig : bool) (n_UPsampling : Z)
         (g : GlobalGenerator2 Layer) (N H W : Z),
    GlobalGenerator2_init input_nc output_nc ngf n_downsampling n_blocks nl padding_type
      use_sig n_UPsampling = Ok g ->
    norm_keeps_shape training nl ->
    0 <= n_blocks -> n_blocks = 0 \/ valid_padding padding_type ->
    let d := range n_downsampling in
    let u := range (if n_UPsampling <=? 0 then n_downsampling else n_UPsampling) in
    (d <= 3)%nat -> (3 <= d + u)%nat -> 5 <= H -> 5 <= W ->
    GlobalGenerator2_forward (fw := ShapeFW training) g
      {| sN := N; sC := input_nc; sH := H; sW := W |} tt =
    Ok ({| sN := N; sC := output_nc;
           sH := pow2 (d + u) * (H + 2); sW := pow2 (d + u) * (W + 2) |}, tt).
Proof.
  intros training input_nc output_nc ngf n_downsampling n_blocks nl padding_type use_sig
         n_UPsampling g N H W Hinit Hnl Hn Hcase d u Hd Hdu HH HW.
  rewrite (GlobalGenerator2_forward_body input_nc output_nc ngf n_downsampling n_blocks nl
             padding_type use_sig n_UPsampling g N H W Hinit Hnl Hn Hcase Hd HH HW).
  fold d u. replace (3 - d - u)%nat with 0%nat by lia.
  change (pow2 0) with 1. rewrite Z.mul_1_r.
  assert (Hpow : pow2 (d + u) = pow2 u * pow2 d).
  { unfold pow2. rewrite Nat2Z.inj_add, Z.pow_add_r by lia. lia. }
  pose proof (pow2_pos d). pose proof (pow2_pos u).
  rewrite gg_tail_shape by nia.
  rewrite Hpow. do 2 f_equal. f_equal; lia.
Qed.

Lemma GlobalGenerator2_forward_enlarges_witness :
  exists g,
    GlobalGenerator2_init 3 1 64 3 9 (fun c => BatchNorm2d c true) "reflect" false 0 = Ok g
    /\ GlobalGenerator2_forward (fw := ShapeFW true) g
         {| sN := 1; sC := 3; sH := 6; sW := 14 |} tt =
       Ok ({| sN := 1; sC := 1; sH := 512; sW := 1024 |}, tt).
Proof.
  eexists. split; [reflexivity |].
  apply (GlobalGenerator2_forward_enlarges true 3 1 64 3 9 (fun c => BatchNorm2d c true)
           "reflect" false 0 _ 1 6 14 eq_refl (BatchNorm2d_keeps_shape true));
    first [lia | right; left; reflexivity | (vm_compute; lia)].
Defined.

(** X14.  A [GlobalGenerator2] with at most 3 "downsampling" stages and
    fewer than 3 stages in all is built without complaint, and its
    forward pass raises on every input: the channel count has not come
    down to [ngf] when the output convolution, which takes [ngf]
    channels, is reached.  With the default [n_UPsampling] this is
    [n_downsampling] 0 or 1. *)
Theorem GlobalGenerator2_too_few_stages :
  forall (training : bool)
         (input_nc output_nc ngf n_downsampling n_blocks : Z) (nl : Z -> Layer)
         (padding_type : string) (use_sig : bool) (n_UPsampling : Z)
         (g : GlobalGenerator2 Layer) (N H W : Z),
    GlobalGenerator2_init input_nc output_nc ngf n_downsampling n_blocks nl padding_type
      use_sig n_UPsampling = Ok g ->
    norm_keeps_shape training nl ->
    0 <= n_blocks -> n_blocks = 0 \/ valid_padding padding_type ->
    let d := range n_downsampling in
    let u := range (if n_UPsampling <=? 0 then n_downsampling else n_UPsampling) in
    (d + u < 3)%nat -> ngf <> 0 -> 5 <= H -> 5 <= W ->
    GlobalGenerator2_forward (fw := ShapeFW training) g
      {| sN := N; sC := input_nc; sH := H; sW := W |} tt =
    Raise (RuntimeError "input channels do not match the weight").
Proof.
  intros training input_nc output_nc ngf n_downsampling n_blocks nl padding_type use_sig
         n_UPsampling g N H W Hinit Hnl Hn Hcase d u Hdu Hngf HH HW.
  rewrite (GlobalGenerator2_forward_body input_nc output_nc ngf n_downsampling n_blocks nl
             padding_type use_sig n_UPsampling g N H W Hinit Hnl Hn Hcase
             ltac:(fold d; lia) HH HW).
  fold d u.
  pose proof (pow2_pos d). pose proof (pow2_pos u).
  apply gg_tail_bad_channels; [| nia | nia].
  destruct (3 - d - u)%nat as [| j] eqn:Ej; [lia |].
  rewrite pow2_S. pose proof (pow2_pos j). nia.
Qed.

Lemma GlobalGenerator2_too_few_stages_witness :
  exists g,
    GlobalGenerator2_init 3 1 64 1 9 (fun c => BatchNorm2d c true) "reflect" false 0 = Ok g
    /\ GlobalGenerator2_forward (fw := ShapeFW true) g
         {| sN := 1; sC := 3; sH := 256; sW := 256 |} tt =
       Raise (RuntimeError "input channels do not match the weight").
Proof.
  eexists. split; [reflexivity |].
  apply (GlobalGenerator2_too_few_stages true 3 1 64 1 9 (fun c => BatchNorm2d c true)
           "reflect" false 0 _ 1 256 256 eq_refl (BatchNorm2d_keeps_shape true));
    first [lia | right; left; reflexivity | (vm_compute; lia)].
Defined.

(** ** The random mode of [SPADEGenerator.forward] *)

Lemma Qfloor_rand_low (u : Q) : (0 <= u)%Q -> (u < 1 # 2)%Q -> Qfloor (u * 2) = 0.
Proof.
  intros H0 H1.
  assert (Hlo : Qfloor 0 <= Qfloor (u * 2)) by (apply Qfloor_resp_le; lra).
  assert (Hhi : (inject_Z (Qfloor (u * 2)) < inject_Z 1)%Q).
  { apply Qle_lt_trans with (u * 2)%Q; [apply Qfloor_le |].
    change (inject_Z 1) with 1%Q. lra. }
  rewrite <- Zlt_Qlt in Hhi. change (Qfloor 0) with 0 in Hlo. lia.
Qed.

Lemma Qfloor_rand_high (u : Q) : (1 # 2 <= u)%Q -> (u < 1)%Q -> Qfloor (u * 2) = 1.
Proof.
  intros H0 H1.
  assert (Hlo : Qfloor 1 <= Qfloor (u * 2)) by (apply Qfloor_resp_le; lra).
  assert (Hhi : (inject_Z (Qfloor (u * 2)) < inject_Z 2)%Q).
  { apply Qle_lt_trans with (u * 2)%Q; [apply Qfloor_le |].
    change (inject_Z 2) with 2%Q. lra. }
  rewrite <- Zlt_Qlt in Hhi. change (Qfloor 1) with 1 in Hlo. lia.
Qed.

(** X15.  The random mode ([sign = 0]) of [SPADEGenerator.forward], for a
    draw u of [torch.rand] in [0, 1): when u < 1/2 the pass is the one
    of mode 2 (the condition map times 0), result and random state
    alike; when u >= 1/2 the condition map is multiplied by 1, and the
    pass is the one of mode 1 wherever that multiplication changes
    nothing. *)
Theorem SPADEGenerator_forward_random_mode :
  forall (fw : Framework) (self : SPADEGenerator (layer fw)) (x depth : tensor fw)
         (w : world fw),
    let u := fst (torch_rand fw w) in
    (0 <= u)%Q -> (u < 1)%Q ->
    ((u < 1 # 2)%Q ->
       SPADEGenerator_forward self x depth 0 w = SPADEGenerator_forward self x depth 2 w)
    /\ ((1 # 2 <= u)%Q ->
          SPADEGenerator_forward self x depth 0 w =
          SPADEGenerator_body self x (mul_scalar fw depth 1) (snd (torch_rand fw w))
          /\ (mul_scalar fw depth 1 = depth ->
              SPADEGenerator_forward self x depth 0 w =
              SPADEGenerator_forward self x depth 1 w)).
Proof.
  intros fw self x depth w u H0 H1.
  rewrite !SPADEGenerator_forward_eq. cbn [Z.eqb Pos.eqb]. fold u.
  split.
  - intros Hlow. rewrite (Qfloor_rand_low u H0 Hlow). reflexivity.
  - intros Hhigh. rewrite (Qfloor_rand_high u Hhigh H1).
    split; [reflexivity |]. intros ->. reflexivity.
Qed.

Lemma SPADEGenerator_forward_random_mode_witness :
  SPADEGenerator_forward (fw := ZRowFW) Z_generator [1; 2] [3; -4] 0 1%nat =
    SPADEGenerator_forward (fw := ZRowFW) Z_generator [1; 2] [3; -4] 2 1%nat
  /\ SPADEGenerator_forward (fw := ZRowFW) Z_generator [1; 2] [3; -4] 0 2%nat =
     SPADEGenerator_forward (fw := ZRowFW) Z_generator [1; 2] [3; -4] 1 2%nat.
Proof.
  split.
  - apply (SPADEGenerator_forward_random_mode ZRowFW Z_generator [1; 2] [3; -4] 1%nat);
      first [discriminate | reflexivity].
  - apply (SPADEGenerator_forward_random_mode ZRowFW Z_generator [1; 2] [3; -4] 2%nat);
      first [discriminate | reflexivity].
Defined.

(** ** The auxiliary head of [InceptionV3.forward] *)

Section InceptionV3_aux.

Context {tensor world module : Type}.
Variable call_module : module -> tensor -> M world tensor.
Variable F_max_pool2d : tensor -> Z -> Z -> M world tensor.
Variable F_adaptive_avg_pool2d : tensor -> Z * Z -> M world tensor.
Variable F_dropout : tensor -> bool -> M world tensor.
Variable torch_flatten : tensor -> Z -> M world tensor.

Local Abbreviation forward :=
  (InceptionV3_forward call_module F_max_pool2d F_adaptive_avg_pool2d F_dropout torch_flatten).

Lemma st_bind_raises {A B : Type} (m : M world A) (k : A -> M world B) (w : world) :
  (forall a w', exists e, k a w' = Raise e) -> exists e, st_bind m k w = Raise e.
Proof.
  intros Hk. unfold st_bind. destruct (m w) as [[a w'] | e]; [apply Hk |].
  exists e. reflexivity.
Qed.

(** X16.  The auxiliary head in [InceptionV3.forward].  Unless [isTrain]
    and [use_aux] are both set the head is not run: the pass is the same
    whatever module [AuxLogits] is.  When both are set the head is run
    also with [every_feat] set, where its output is not returned: a head
    that raises makes the pass raise. *)
Theorem InceptionV3_forward_aux_head :
  forall (self : InceptionV3 (module := module)) (x : tensor) (w : world),
    (isTrain self && use_aux self = false ->
     forall m : module, forward (with_AuxLogits m self) x w = forward self x w)
    /\ (isTrain self && use_aux self = true ->
        (forall t w0, exists e, call_module (AuxLogits (model_ft self)) t w0 = Raise e) ->
        exists e, forward self x w = Raise e).
Proof.
  intros self x w. split.
  - intros Haux m. unfold InceptionV3_forward, with_AuxLogits.
    cbn [every_feat model_ft isTrain use_aux Conv2d_1a_3x3 Conv2d_2a_3x3 Conv2d_2b_3x3
         Conv2d_3b_1x1 Conv2d_4a_3x3 Mixed_5b Mixed_5c Mixed_5d Mixed_6a Mixed_6b Mixed_6c
         Mixed_6d Mixed_6e AuxLogits Mixed_7a Mixed_7b Mixed_7c fc].
    rewrite Haux. reflexivity.
  - intros Haux Hfail. unfold InceptionV3_forward.
    do 15 (apply st_bind_raises; intros ? ?).
    rewrite Haux.
    match goal with
    | |- context [call_module (AuxLogits (model_ft self)) ?t] =>
        match goal with
        | |- exists e, _ ?w0 = Raise e =>
            destruct (Hfail t w0) as [e He]; exists e; unfold st_bind; rewrite He
        end
    end.
    reflexivity.
Qed.

End InceptionV3_aux.

Lemma InceptionV3_forward_aux_head_witness :
  InceptionV3_forward Z_failing_call Z_pool Z_avg_pool Z_dropout Z_flatten
    (with_AuxLogits (Some Z.opp) (with_isTrain false Z_inception_failing_aux)) 5 3%nat =
  InceptionV3_forward Z_failing_call Z_pool Z_avg_pool Z_dropout Z_flatten
    (with_isTrain false Z_inception_failing_aux) 5 3%nat
  /\ exists e,
       InceptionV3_forward Z_failing_call Z_pool Z_avg_pool Z_dropout Z_flatten
         Z_inception_failing_aux 5 3%nat = Raise e.
Proof.
  split.
  - apply (InceptionV3_forward_aux_head Z_failing_call Z_pool Z_avg_pool Z_dropout Z_flatten
             (with_isTrain false Z_inception_failing_aux) 5 3%nat).
    reflexivity.
  - apply (InceptionV3_forward_aux_head Z_failing_call Z_pool Z_avg_pool Z_dropout Z_flatten
             Z_inception_failing_aux 5 3%nat).
    + reflexivity.
    + intros t w0. eexists. reflexivity.
Defined.

(** ** The freezing rule, further *)

Lemma freeze_rule_lookup (freeze pretrain : bool) (children : list (list param))
    (heap : gmap positive bool) (p : param) :
  freeze_rule freeze pretrain children heap !! p =
  if freeze && pretrain
  then if decide (p ∈ concat (take 17 children)) then Some false else heap !! p
  else heap !! p.
Proof.
  unfold freeze_rule. destruct (freeze && pretrain); [| reflexivity].
  rewrite freeze_steps_lookup by lia. reflexivity.
Qed.

Lemma elem_of_concat (children : list (list param)) (child : list param) (p : param) :
  child ∈ children -> p ∈ child -> p ∈ concat children.
Proof.
  intros Hc Hp. induction children as [| c children IH]; [inversion Hc |].
  cbn [concat]. apply elem_of_app. apply elem_of_cons in Hc as [<- | Hc].
  - left. exact Hp.
  - right. apply IH. exact Hc.
Qed.

(** X17.  The freezing rule of [InceptionV3.__init__] only ever clears
    [requires_grad]: no flag is [True] afterwards that was not [True]
    before, a flag that was [False] stays [False], and running the rule a
    second time changes nothing.  On a network of at most 17 children,
    with [freeze] and [pretrain] set, every parameter of every child is
    frozen. *)
Theorem freeze_rule_only_clears :
  forall (freeze pretrain : bool) (children : list (list param))
         (heap : gmap positive bool),
    (forall p : param,
       freeze_rule freeze pretrain children heap !! p = Some true -> heap !! p = Some true)
    /\ (forall p : param,
          heap !! p = Some false ->
          freeze_rule freeze pretrain children heap !! p = Some false)
    /\ freeze_rule freeze pretrain children (freeze_rule freeze pretrain children heap) =
       freeze_rule freeze pretrain children heap
    /\ (freeze = true -> pretrain = true -> (length children <= 17)%nat ->
        forall (child : list param) (p : param),
          child ∈ children -> p ∈ child ->
          freeze_rule freeze pretrain children heap !! p = Some false).
Proof.
  intros freeze pretrain children heap.
  split; [| split; [| split]].
  - intros p. rewrite freeze_rule_lookup.
    destruct (freeze && pretrain); [| tauto].
    destruct (decide (p ∈ concat (take 17 children))); [discriminate | tauto].
  - intros p Hp. rewrite freeze_rule_lookup, Hp.
    destruct (freeze && pretrain); [| reflexivity].
    destruct (decide (p ∈ concat (take 17 children))); reflexivity.
  - apply map_eq. intros p. rewrite !freeze_rule_lookup.
    destruct (freeze && pretrain); [| reflexivity].
    repeat case_decide; first [reflexivity | contradiction].
  - intros -> -> Hlen child p Hc Hp. rewrite freeze_rule_lookup. cbn [andb].
    rewrite take_ge by exact Hlen.
    rewrite decide_True by (apply (elem_of_concat children child p Hc Hp)).
    reflexivity.
Qed.

Lemma freeze_rule_only_clears_witness :
  freeze_rule true true (take 17 nineteen_children) all_trainable !! 17%positive = Some false
  /\ (freeze_rule true true nineteen_children all_trainable !! 19%positive = Some true ->
      all_trainable !! 19%positive = Some true).
Proof.
  destruct (freeze_rule_only_clears true true (take 17 nineteen_children) all_trainable)
    as (_ & _ & _ & Hall).
  destruct (freeze_rule_only_clears true true nineteen_children all_trainable)
    as (Hon & _ & _ & _).
  split.
  - apply (Hall eq_refl eq_refl ltac:(vm_compute; lia) [17%positive]).
    + do 16 apply list_elem_of_further. apply list_elem_of_here.
    + apply list_elem_of_here.
  - exact (Hon 19%positive).
Defined.
